(** * Codemind front end: the client orchestration layer

    A shallow embedding of the TypeScript sources

    - [lib/utils/errorHandler.ts]   ([extractErrorMessage], [formatErrorForDisplay]),
    - [lib/api.ts]                  ([repositoryApi.chat], [repositoryApi.chatStream],
                                     [pollRepositoryStatus], [createChatRequest]),
    - [lib/api/search.ts]           ([transformSearchResult]),
    - [lib/hooks/useChat.ts]        ([sendMessage]),
    - [lib/hooks/useCodeSearch.ts]  ([search]),
    - and, beyond these: [safeRenderError], [repositoryApi.ingest],
      [repositoryApi.searchCode], [createSearchRequest], [searchApi.search],
      the page, filter and mode callbacks of [useCodeSearch], and
      [fetchRepository] of [lib/hooks/useRepository.ts],

    together with the part of the JavaScript run time these functions rely on
    (truthiness, [typeof], property access, [ToString], [String.prototype.trim],
    [parseInt], [isNaN], [JSON.stringify], [JSON.parse], [TextDecoder.decode]).

    Conventions.  A JavaScript string is represented by the UTF-8 encoding of its
    text, held in a [string] (one [ascii] per byte); a byte chunk read from the
    network is a [string] of raw bytes.  A number is [NaN], an infinity, or a
    double, written by a decimal [m * 10^e] that it is the nearest double to.
    Values are the JSON trees plus
    [undefined]; an object is the list of its own properties in enumeration
    order, none of them a function.  An exception is a [Throw] completion
    carrying the thrown value. *)

From Stdlib Require Import ZArith NArith List String Ascii Bool Lia.
From Stdlib Require Import DecimalString.
Import ListNotations.
Local Open Scope string_scope.
Set Warnings "-register-all".

(** ** JavaScript values and the built-ins used by the sources *)
Module Js.

Inductive number : Type :=
| NaN
| Infinity (negative : bool)
| Num (m e : Z).

Inductive value : Type :=
| VUndef
| VNull
| VBool (b : bool)
| VNum (n : number)
| VStr (s : string)
| VArr (elems : list value)
| VObj (props : list (string * value)).

Definition int (z : Z) : value := VNum (Num z 0).

(** Completion of a call: a returned value or a thrown one. *)
Inductive completion (A : Type) : Type :=
| Return (a : A)
| Throw (err : value).
Arguments Return {A} a.
Arguments Throw {A} err.

Definition bind {A B} (c : completion A) (k : A -> completion B) : completion B :=
  match c with
  | Return a => k a
  | Throw e => Throw e
  end.

(** [new Error(msg)]: the only property the sources read from it is [message]. *)
Definition Error (msg : string) : value := VObj [("message", VStr msg)].

(** The [TypeError] the engine raises on [undefined.p], [null.p] or a call of a
    non-function.  Its message text is engine specific. *)
Definition TypeError : value :=
  VObj [("name", VStr "TypeError"); ("message", VStr "TypeError")].

(** *** Bytes and strings *)

Definition byte (n : N) : ascii := ascii_of_N n.
Definition code (a : ascii) : N := N_of_ascii a.

Fixpoint bytes (l : list N) : string :=
  match l with
  | [] => ""
  | n :: l' => String (byte n) (bytes l')
  end.

Definition LF : string := bytes [10%N].
Definition backslash : ascii := byte 92.
Definition dquote : ascii := byte 34.

Fixpoint string_rev (s : string) : string :=
  match s with
  | "" => ""
  | String a s' => string_rev s' ++ String a ""
  end.

Fixpoint skip (n : nat) (s : string) : string :=
  match n, s with
  | O, _ => s
  | S n', String _ s' => skip n' s'
  | S _, "" => ""
  end.

(** [s.startsWith(p)] *)
Fixpoint startsWith (s p : string) {struct p} : bool :=
  match p with
  | "" => true
  | String a p' =>
      match s with
      | String b s' => Ascii.eqb a b && startsWith s' p'
      | "" => false
      end
  end.

(** [l.join(sep)] on an array of strings. *)
Fixpoint join (sep : string) (l : list string) : string :=
  match l with
  | [] => ""
  | [x] => x
  | x :: l' => x ++ sep ++ join sep l'
  end.

(** [s.split(c)] for a one-character separator: the pieces between successive
    occurrences of [c]; never empty as a list. *)
Fixpoint split (c : ascii) (s : string) : list string :=
  match s with
  | "" => [""]
  | String a s' =>
      if Ascii.eqb a c then "" :: split c s'
      else match split c s' with
           | [] => [String a ""]
           | x :: l => String a x :: l
           end
  end.

(** The UTF-8 encodings of the code points in WhiteSpace and LineTerminator:
    TAB, LF, VT, FF, CR, SP, U+00A0, U+1680, U+2000..U+200A, U+2028, U+2029,
    U+202F, U+205F, U+3000, U+FEFF. *)
Definition ws_encodings : list string :=
  map bytes
    [ [0x09]; [0x0A]; [0x0B]; [0x0C]; [0x0D]; [0x20];
      [0xC2; 0xA0]; [0xE1; 0x9A; 0x80];
      [0xE2; 0x80; 0x80]; [0xE2; 0x80; 0x81]; [0xE2; 0x80; 0x82];
      [0xE2; 0x80; 0x83]; [0xE2; 0x80; 0x84]; [0xE2; 0x80; 0x85];
      [0xE2; 0x80; 0x86]; [0xE2; 0x80; 0x87]; [0xE2; 0x80; 0x88];
      [0xE2; 0x80; 0x89]; [0xE2; 0x80; 0x8A];
      [0xE2; 0x80; 0xA8]; [0xE2; 0x80; 0xA9]; [0xE2; 0x80; 0xAF];
      [0xE2; 0x81; 0x9F]; [0xE3; 0x80; 0x80]; [0xEF; 0xBB; 0xBF] ]%N.

(** Drop leading occurrences of the given encodings. *)
Fixpoint drop_leading (encs : list string) (fuel : nat) (s : string) : string :=
  match fuel with
  | O => s
  | S fuel' =>
      match find (fun e => startsWith s e) encs with
      | Some e => drop_leading encs fuel' (skip (length e) s)
      | None => s
      end
  end.

Definition trimStart (s : string) : string :=
  drop_leading ws_encodings (length s) s.

Definition trimEnd (s : string) : string :=
  string_rev (drop_leading (map string_rev ws_encodings) (length s) (string_rev s)).

Definition trim (s : string) : string := trimEnd (trimStart s).

(** *** Numbers *)

Definition digits (n : N) : string := NilZero.string_of_uint (N.to_uint n).

Fixpoint zeros (n : nat) : string :=
  match n with
  | O => ""
  | S n' => String "0" (zeros n')
  end.

(** Remove the trailing zeros of a positive mantissa. *)
Fixpoint strip_zeros (fuel : nat) (m : N) (e : Z) : N * Z :=
  match fuel with
  | O => (m, e)
  | S fuel' =>
      if (m mod 10 =? 0)%N then strip_zeros fuel' (m / 10)%N (e + 1)%Z else (m, e)
  end.

(** [Number::toString(x)] in radix 10: with [s] the digits of [x] without
    trailing zeros, [k] their count and [x = s * 10^(n-k)], plain notation for
    [-6 < n <= 21] and exponent notation otherwise. *)
Definition Number_toString (x : number) : string :=
  match x with
  | NaN => "NaN"
  | Infinity negative => if negative then "-Infinity" else "Infinity"
  | Num m e =>
      if (m =? 0)%Z then "0"
      else
        let sign := if (m <? 0)%Z then "-" else "" in
        let '(s, e') := strip_zeros (length (digits (Z.abs_N m))) (Z.abs_N m) e in
        let ds := digits s in
        let k := length ds in
        let n := (Z.of_nat k + e')%Z in
        if ((-6 <? n) && (n <=? 21))%Z%bool then
          if (Z.of_nat k <=? n)%Z then sign ++ ds ++ zeros (Z.to_nat (n - Z.of_nat k))
          else if (0 <? n)%Z then
            sign ++ substring 0 (Z.to_nat n) ds ++ "." ++ skip (Z.to_nat n) ds
          else sign ++ "0." ++ zeros (Z.to_nat (- n)) ++ ds
        else
          let c := (n - 1)%Z in
          let ex := (if (c <? 0)%Z then "-" else "+") ++ digits (Z.abs_N c) in
          if (k =? 1)%nat then sign ++ ds ++ "e" ++ ex
          else sign ++ substring 0 1 ds ++ "." ++ skip 1 ds ++ "e" ++ ex
  end.

Definition is_NaN (x : number) : bool :=
  match x with
  | NaN => true
  | Infinity _ | Num _ _ => false
  end.

(** *** Doubles

    A number of the model is [NaN], an infinity, or a double written [Num m e]
    by a decimal [m * 10 ^ e] that it is the nearest double to; what computes a
    number rounds it as the run time does and writes it by the shortest such
    decimal, the one [Number::toString] prints.  (The sign of zero is not
    kept.) *)

(** [num / den], rounded to the nearest integer, to the even one of two that
    are equally near. *)
Definition round_half_even (num den : Z) : Z :=
  let q := (num / den)%Z in
  let r := (num mod den)%Z in
  if (2 * r <? den)%Z then q
  else if (den <? 2 * r)%Z then (q + 1)%Z
  else if Z.even q then q else (q + 1)%Z.

(** [num / den * 2 ^ (- q)] as a fraction. *)
Definition scale2 (num den q : Z) : Z * Z :=
  if (0 <=? q)%Z then (num, (den * 2 ^ q)%Z) else ((num * 2 ^ (- q))%Z, den).

(** The double nearest to [num / den > 0] (ties to the even significand), as
    a significand [M < 2 ^ 53] and an exponent [q >= -1074] with value
    [M * 2 ^ q]; [None] when it is beyond the largest double. *)
Definition nearest_double (num den : Z) : option (Z * Z) :=
  let k0 := (Z.log2 num - Z.log2 den)%Z in
  let '(n0, d0) := scale2 num den k0 in
  let k := if (d0 <=? n0)%Z then k0 else (k0 - 1)%Z in
  let q := Z.max (k - 52) (-1074) in
  let '(n1, d1) := scale2 num den q in
  let M := round_half_even n1 d1 in
  let '(M, q) := if (M =? 2 ^ 53)%Z then ((2 ^ 52)%Z, (q + 1)%Z) else (M, q) in
  if (971 <? q)%Z then None else Some (M, q).

(** The number of decimal digits of [n > 0]. *)
Definition decimal_length (n : Z) : Z := Z.of_nat (length (digits (Z.to_N n))).

(** The digits [s] and the exponent [x] of the shortest decimal [s * 10 ^ x]
    whose nearest double is [M * 2 ^ q]; of several, the one nearest to it,
    and of two equally near, the even one. *)
Definition shortest (M q : Z) : Z * Z :=
  (let t := Z.max 0 (2 - q) in
   let V := M * 2 ^ (q + t) in
   let up := 2 ^ (q + t - 1) in
   let down := if (M =? 2 ^ 52) && (-1074 <? q) then 2 ^ (q + t - 2) else up in
   (* whether [C / D] rounds to the double, whose value is [V / 2 ^ t] *)
   let inside (C D : Z) :=
     if Z.even M then ((V - down) * D <=? C) && (C <=? (V + up) * D)
     else ((V - down) * D <? C) && (C <? (V + up) * D) in
   (* [10 ^ k10 <= V / 2 ^ t < 10 ^ (k10 + 1)] *)
   let k10 :=
     if 2 ^ t <=? V then decimal_length (V / 2 ^ t) - 1
     else let d := decimal_length (2 ^ t / V) in
          if 2 ^ t <=? V * 10 ^ (d - 1) then - (d - 1) else - d in
   (* the candidates with [n] digits: the decimals next to the double *)
   let try (n : Z) : option (Z * Z) :=
     let x := k10 + 1 - n in
     let '(P, Q) := if 0 <=? x then (1, 10 ^ x) else (10 ^ (- x), 1) in
     let lo := (V * P) / (Q * 2 ^ t) in
     let hi := lo + 1 in
     let ok s := inside (s * Q * 2 ^ t) P in
     let dist s := Z.abs (s * Q * 2 ^ t - V * P) in
     match ok lo, ok hi with
     | true, true =>
         if dist lo <? dist hi then Some (lo, x)
         else if dist hi <? dist lo then Some (hi, x)
         else if Z.even lo then Some (lo, x) else Some (hi, x)
     | true, false => Some (lo, x)
     | false, true => Some (hi, x)
     | false, false => None
     end in
   (fix search (fuel : nat) (n : Z) : Z * Z :=
      match fuel with
      | O => (0, 0)
      | S fuel' =>
          match try n with
          | Some r => r
          | None => search fuel' (n + 1)
          end
      end) 17%nat 1)%Z.

(** The double [M * 2 ^ q], with its sign, as it is written: by its shortest
    decimal, an integer below [10 ^ 21] without exponent. *)
Definition written (negative : bool) (M q : Z) : number :=
  (let '(s, x) := shortest M q in
   let '(s, x) := strip_zeros (Z.to_nat (decimal_length s)) (Z.to_N s) x in
   let s := Z.of_N s in
   let '(s, x) := if (0 <=? x) && (decimal_length s + x <=? 21)
                  then (s * 10 ^ x, 0) else (s, x) in
   Num (if negative then - s else s) x)%Z.

(** The number nearest to the fraction [num / den], for [den > 0].  An
    integer up to [2 ^ 53] is a double and its own shortest decimal. *)
Definition of_fraction (num den : Z) : number :=
  (if num =? 0 then Num 0 0
   else if (den =? 1) && (Z.abs num <=? 2 ^ 53) then Num num 0
   else
     match nearest_double (Z.abs num) den with
     | None => Infinity (num <? 0)
     | Some (M, q) => if M =? 0 then Num 0 0 else written (num <? 0) M q
     end)%Z.

(** The number that the decimal [m * 10 ^ e] denotes.  A decimal of 310
    digits or more before the point is beyond the largest double; one with
    323 zeros or more after the point rounds to 0. *)
Definition to_double (m e : Z) : number :=
  (if m =? 0 then Num 0 0
   else if (e =? 0) && (Z.abs m <=? 2 ^ 53) then Num m 0
   else
     let d := decimal_length (Z.abs m) in
     if 310 <=? d + e then Infinity (m <? 0)
     else if d + e <=? -324 then Num 0 0
     else if 0 <=? e then of_fraction (m * 10 ^ e) 1
     else of_fraction m (10 ^ (- e)))%Z.

(** The value of the double that [m * 10 ^ e] denotes, as a fraction; [None]
    when it denotes an infinity. *)
Definition fraction_of (m e : Z) : option (Z * Z) :=
  (if m =? 0 then Some (0, 1)
   else if (e =? 0) && (Z.abs m <=? 2 ^ 53) then Some (m, 1)
   else
     let d := decimal_length (Z.abs m) in
     if 310 <=? d + e then None
     else if d + e <=? -324 then Some (0, 1)
     else
       let '(num, den) := if 0 <=? e then (Z.abs m * 10 ^ e, 1)
                          else (Z.abs m, 10 ^ (- e)) in
       match nearest_double num den with
       | None => None
       | Some (M, q) =>
           let M := if m <? 0 then - M else M in
           Some (if 0 <=? q then (M * 2 ^ q, 1) else (M, 2 ^ (- q)))
       end)%Z.

(** *** Values *)

(** [ToBoolean]: [undefined], [null], [false], [0], [NaN] and [''] are falsy. *)
Definition truthy (v : value) : bool :=
  match v with
  | VUndef | VNull => false
  | VBool b => b
  | VNum NaN => false
  | VNum (Infinity _) => true
  | VNum (Num m _) => negb (m =? 0)%Z
  | VStr s => negb (s =? "")
  | VArr _ | VObj _ => true
  end.

Definition typeof (v : value) : string :=
  match v with
  | VUndef => "undefined"
  | VNull | VArr _ | VObj _ => "object"
  | VBool _ => "boolean"
  | VNum _ => "number"
  | VStr _ => "string"
  end.

Definition Array_isArray (v : value) : bool :=
  match v with
  | VArr _ => true
  | _ => false
  end.

Definition nullish (v : value) : bool :=
  match v with
  | VUndef | VNull => true
  | _ => false
  end.

Fixpoint lookup (k : string) (props : list (string * value)) : value :=
  match props with
  | [] => VUndef
  | (k', v) :: props' => if k' =? k then v else lookup k props'
  end.

(** [v.k] for a [v] that is neither [undefined] nor [null], and a name [k]
    that no built-in prototype defines ([response], [data], [detail],
    [message], [msg], [loc], [type], [content], [question], [file_id], ...):
    the own property of an object, [undefined] on anything else. *)
Definition get (v : value) (k : string) : value :=
  match v with
  | VObj props => lookup k props
  | _ => VUndef
  end.

(** [v.k] in general: a [TypeError] on [undefined] and [null]. *)
Definition getp (v : value) (k : string) : completion value :=
  if nullish v then Throw TypeError else Return (get v k).

(** [v?.k] *)
Definition get_opt (v : value) (k : string) : value :=
  if nullish v then VUndef else get v k.

(** [a || b] and [a ?? b] *)
Definition or_else (a b : value) : value := if truthy a then a else b.
Definition coalesce (a b : value) : value := if nullish a then b else a.

(** Whether an object has an own property of the given name. *)
Definition has_own (k : string) (props : list (string * value)) : bool :=
  existsb (fun kv => fst kv =? k) props.

(** [ToString] on the values of the model.  An array prints as its elements
    joined by commas, with [undefined] and [null] elements printing as
    nothing.  A plain object prints as [[object Object]] through the
    [toString] it inherits; an own property named [toString] hides that
    method and, not being a function in a value of the model, leaves
    [ToPrimitive] with [valueOf], which returns the object: a [TypeError]. *)
Fixpoint ToString (v : value) : completion string :=
  match v with
  | VUndef => Return "undefined"
  | VNull => Return "null"
  | VBool true => Return "true"
  | VBool false => Return "false"
  | VNum n => Return (Number_toString n)
  | VStr s => Return s
  | VArr l =>
      bind ((fix elements (l : list value) : completion (list string) :=
               match l with
               | [] => Return []
               | x :: l' =>
                   bind (if nullish x then Return "" else ToString x) (fun t =>
                   bind (elements l') (fun ts => Return (t :: ts)))
               end) l)
           (fun ts => Return (join "," ts))
  | VObj props =>
      if has_own "toString" props then Throw TypeError
      else Return "[object Object]"
  end.

(** The elements of an array as [join] prints them. *)
Fixpoint join_elements (l : list value) : completion (list string) :=
  match l with
  | [] => Return []
  | x :: l' =>
      bind (if nullish x then Return "" else ToString x) (fun t =>
      bind (join_elements l') (fun ts => Return (t :: ts)))
  end.

(** [arr.join(sep)] *)
Definition Array_join (sep : string) (l : list value) : completion string :=
  bind (join_elements l) (fun ts => Return (join sep ts)).

(** *** [JSON.stringify] *)

Definition hex_digit (n : N) : ascii :=
  if (n <? 10)%N then byte (48 + n) else byte (87 + n).

(** [QuoteJSONString], one byte at a time: the two-character escapes, [\u00XX]
    for the other control characters, everything else unchanged. *)
Definition quote_char (a : ascii) : string :=
  let c := code a in
  if (c =? 8)%N then String backslash "b"
  else if (c =? 9)%N then String backslash "t"
  else if (c =? 10)%N then String backslash "n"
  else if (c =? 12)%N then String backslash "f"
  else if (c =? 13)%N then String backslash "r"
  else if (c =? 34)%N then String backslash (String a "")
  else if (c =? 92)%N then String backslash (String backslash "")
  else if (c <? 32)%N then
    String backslash "u00"
    ++ String (hex_digit (c / 16)) (String (hex_digit (c mod 16)) "")
  else String a "".

Fixpoint quote_chars (s : string) : string :=
  match s with
  | "" => ""
  | String a s' => quote_char a ++ quote_chars s'
  end.

Definition quote (s : string) : string :=
  String dquote (quote_chars s ++ String dquote "").

(** [SerializeJSONProperty]: [None] stands for [undefined]. *)
Fixpoint serialize (v : value) : option string :=
  match v with
  | VUndef => None
  | VNull => Some "null"
  | VBool true => Some "true"
  | VBool false => Some "false"
  | VNum NaN | VNum (Infinity _) => Some "null"
  | VNum n => Some (Number_toString n)
  | VStr s => Some (quote s)
  | VArr l =>
      Some ("[" ++ join ","
              (map (fun x => match serialize x with
                             | Some t => t
                             | None => "null"
                             end) l) ++ "]")
  | VObj props =>
      Some ("{" ++ join ","
              ((fix members (ps : list (string * value)) : list string :=
                  match ps with
                  | [] => []
                  | (k, x) :: ps' =>
                      match serialize x with
                      | Some t => (quote k ++ ":" ++ t) :: members ps'
                      | None => members ps'
                      end
                  end) props) ++ "}")
  end.

Definition JSON_stringify (v : value) : value :=
  match serialize v with
  | Some t => VStr t
  | None => VUndef
  end.

(** *** [parseInt] and [isNaN] *)

Definition is_digit (a : ascii) : bool :=
  ((48 <=? code a) && (code a <=? 57))%N.

Definition is_hex_digit (a : ascii) : bool :=
  (is_digit a || ((65 <=? code a) && (code a <=? 70))
              || ((97 <=? code a) && (code a <=? 102)))%N.

Definition is_octal_digit (a : ascii) : bool :=
  ((48 <=? code a) && (code a <=? 55))%N.

Definition is_binary_digit (a : ascii) : bool :=
  ((48 <=? code a) && (code a <=? 49))%N.

(** The longest prefix of characters satisfying [p], and what follows it. *)
Fixpoint span (p : ascii -> bool) (s : string) : string * string :=
  match s with
  | "" => ("", "")
  | String a s' =>
      if p a then let '(x, r) := span p s' in (String a x, r) else ("", s)
  end.

Fixpoint digits_value (acc : Z) (s : string) : Z :=
  match s with
  | "" => acc
  | String a s' => digits_value (10 * acc + (Z.of_N (code a) - 48)) s'
  end.

(** [parseInt(s, 10)]: leading white space is skipped, then an optional sign,
    then the longest run of decimal digits; [NaN] when that run is empty, and
    otherwise the number that the integer written denotes.  (Beyond twenty
    digits the language lets an engine read the further digits as zeros;
    the engines round the integer as written.) *)
Definition parseInt10 (s : string) : number :=
  let t := trimStart s in
  let '(neg, u) :=
    match t with
    | String "-" r => (true, r)
    | String "+" r => (false, r)
    | _ => (false, t)
    end in
  let '(ds, _) := span is_digit u in
  if ds =? "" then NaN
  else to_double (if neg then - digits_value 0 ds else digits_value 0 ds) 0.

(** ExponentPart, optional, up to the end of the string. *)
Definition exponent_opt (r : string) : bool :=
  match r with
  | "" => true
  | String c r1 =>
      if ((c =? "e") || (c =? "E"))%char then
        let r2 := match r1 with
                  | String "+" r' => r'
                  | String "-" r' => r'
                  | _ => r1
                  end in
        let '(ds, rest) := span is_digit r2 in
        negb (ds =? "") && (rest =? "")
      else false
  end.

(** StrUnsignedDecimalLiteral *)
Definition unsigned_decimal (u : string) : bool :=
  if u =? "Infinity" then true
  else
    let '(i, r1) := span is_digit u in
    match r1 with
    | String "." r2 =>
        let '(f, r3) := span is_digit r2 in
        (negb (i =? "") || negb (f =? "")) && exponent_opt r3
    | _ => negb (i =? "") && exponent_opt r1
    end.

(** NonDecimalIntegerLiteral: [0x], [0o] or [0b] and at least one digit. *)
Definition non_decimal (t : string) : bool :=
  match t with
  | String "0" (String c r) =>
      let all p := let '(ds, rest) := span p r in negb (ds =? "") && (rest =? "") in
      if ((c =? "x") || (c =? "X"))%char then all is_hex_digit
      else if ((c =? "o") || (c =? "O"))%char then all is_octal_digit
      else if ((c =? "b") || (c =? "B"))%char then all is_binary_digit
      else false
  | _ => false
  end.

(** Whether [StringToNumber(s)] is a number other than [NaN]: [s] is, between
    optional white space, empty or a StrNumericLiteral. *)
Definition numeric_string (s : string) : bool :=
  let t := trim s in
  if t =? "" then true
  else
    non_decimal t
    || unsigned_decimal (match t with
                         | String "+" r => r
                         | String "-" r => r
                         | _ => t
                         end).

(** [isNaN(v)], that is, whether [ToNumber(v)] is [NaN]; an array or an
    object is first made a string, which can throw. *)
Definition isNaN (v : value) : completion bool :=
  match v with
  | VUndef => Return true
  | VNull | VBool _ => Return false
  | VNum n => Return (is_NaN n)
  | VStr s => Return (negb (numeric_string s))
  | VArr _ | VObj _ => bind (ToString v) (fun t => Return (negb (numeric_string t)))
  end.

(** *** UTF-8 *)

(** The UTF-8 encoding of a code point (generalised to surrogates). *)
Definition utf8_encode (cp : N) : string :=
  (if cp <? 0x80 then bytes [cp]
   else if cp <? 0x800 then bytes [0xC0 + cp / 64; 0x80 + cp mod 64]
   else if cp <? 0x10000 then
     bytes [0xE0 + cp / 4096; 0x80 + (cp / 64) mod 64; 0x80 + cp mod 64]
   else
     bytes [0xF0 + cp / 262144; 0x80 + (cp / 4096) mod 64;
            0x80 + (cp / 64) mod 64; 0x80 + cp mod 64])%N.

(** U+FFFD, the replacement character, and U+FEFF, the byte order mark. *)
Definition REPLACEMENT : string := bytes [0xEF; 0xBF; 0xBD]%N.
Definition BOM : string := bytes [0xEF; 0xBB; 0xBF]%N.

(** The state of the UTF-8 decoder of the Encoding standard.  The code point
    under construction is kept as the bytes read for it so far, since decoded
    text is held in UTF-8. *)
Record utf8_state : Type := {
  bytes_needed : nat;
  bytes_seen : string;
  lower_boundary : N;
  upper_boundary : N
}.

Definition utf8_initial : utf8_state :=
  {| bytes_needed := 0; bytes_seen := "";
     lower_boundary := 0x80; upper_boundary := 0xBF |}.

(** A byte read when no bytes are needed. *)
Definition utf8_lead (b : ascii) : string * utf8_state :=
  let c := code b in
  (if c <=? 0x7F then (String b "", utf8_initial)
   else if (0xC2 <=? c) && (c <=? 0xDF) then
     ("", {| bytes_needed := 1; bytes_seen := String b "";
             lower_boundary := 0x80; upper_boundary := 0xBF |})
   else if (0xE0 <=? c) && (c <=? 0xEF) then
     ("", {| bytes_needed := 2; bytes_seen := String b "";
             lower_boundary := if c =? 0xE0 then 0xA0 else 0x80;
             upper_boundary := if c =? 0xED then 0x9F else 0xBF |})
   else if (0xF0 <=? c) && (c <=? 0xF4) then
     ("", {| bytes_needed := 3; bytes_seen := String b "";
             lower_boundary := if c =? 0xF0 then 0x90 else 0x80;
             upper_boundary := if c =? 0xF4 then 0x8F else 0xBF |})
   else (REPLACEMENT, utf8_initial))%N%bool.

(** One byte through the decoder: the text emitted and the next state.  A byte
    outside the expected range ends the sequence under construction with an
    error and is then read again as a lead byte. *)
Definition utf8_step (st : utf8_state) (b : ascii) : string * utf8_state :=
  match bytes_needed st with
  | O => utf8_lead b
  | S n =>
      if ((lower_boundary st <=? code b) && (code b <=? upper_boundary st))%N%bool
      then
        match n with
        | O => (bytes_seen st ++ String b "", utf8_initial)
        | S _ => ("", {| bytes_needed := n;
                         bytes_seen := bytes_seen st ++ String b "";
                         lower_boundary := 0x80; upper_boundary := 0xBF |})
        end
      else
        let '(out, st') := utf8_lead b in (REPLACEMENT ++ out, st')
  end.

Fixpoint utf8_run (st : utf8_state) (chunk : string) : string * utf8_state :=
  match chunk with
  | "" => ("", st)
  | String b chunk' =>
      let '(out, st1) := utf8_step st b in
      let '(out', st2) := utf8_run st1 chunk' in
      (out ++ out', st2)
  end.

(** End of input: an unfinished sequence is an error. *)
Definition utf8_flush (st : utf8_state) : string :=
  match bytes_needed st with
  | O => ""
  | S _ => REPLACEMENT
  end.

Definition strip_BOM (s : string) : string :=
  if startsWith s BOM then skip 3 s else s.

(** [decoder.decode(chunk)] for [decoder = new TextDecoder()], called without
    the [stream] option: the call starts from a fresh decoder, flushes at the
    end of [chunk], and drops a leading byte order mark. *)
Definition TextDecoder_decode (chunk : string) : string :=
  let '(out, st) := utf8_run utf8_initial chunk in
  strip_BOM (out ++ utf8_flush st).

(** *** [JSON.parse] *)

Definition is_json_ws (a : ascii) : bool :=
  ((code a =? 32) || (code a =? 9) || (code a =? 10) || (code a =? 13))%N.

Fixpoint skip_ws (s : string) : string :=
  match s with
  | String a s' => if is_json_ws a then skip_ws s' else s
  | "" => ""
  end.

Definition hex_value (a : ascii) : option N :=
  let c := code a in
  (if is_digit a then Some (c - 48)
   else if (65 <=? c) && (c <=? 70) then Some (c - 55)
   else if (97 <=? c) && (c <=? 102) then Some (c - 87)
   else None)%N%bool.

(** The code unit written [XXXX] at the head of [s], and what follows it. *)
Definition hex4 (s : string) : option (N * string) :=
  match s with
  | String a (String b (String c (String d r))) =>
      match hex_value a, hex_value b, hex_value c, hex_value d with
      | Some x, Some y, Some z, Some w => Some (4096 * x + 256 * y + 16 * z + w, r)%N
      | _, _, _, _ => None
      end
  | _ => None
  end.

(** A low surrogate escape [\uXXXX] at the head of [s]. *)
Definition low_surrogate (s : string) : option (N * string) :=
  match s with
  | String b (String u r) =>
      if ((code b =? 92) && (code u =? 117))%N then
        match hex4 r with
        | Some (lo, r') =>
            if ((0xDC00 <=? lo) && (lo <=? 0xDFFF))%N then Some (lo, r') else None
        | None => None
        end
      else None
  | _ => None
  end.

(** The characters of a string literal after its opening quote, up to the
    closing one: the decoded text and what follows the literal. *)
Fixpoint parse_chars (fuel : nat) (s : string) : option (string * string) :=
  match fuel with
  | O => None
  | S fuel' =>
      let cons (x : string) (r : string) :=
        match parse_chars fuel' r with
        | Some (t, r') => Some (x ++ t, r')
        | None => None
        end in
      match s with
      | "" => None
      | String a r =>
          let c := code a in
          if (c =? 34)%N then Some ("", r)
          else if (c <? 32)%N then None
          else if (c =? 92)%N then
            match r with
            | "" => None
            | String e r1 =>
                let d := code e in
                if ((d =? 34) || (d =? 92) || (d =? 47))%N then cons (String e "") r1
                else if (d =? 98)%N then cons (bytes [8%N]) r1
                else if (d =? 102)%N then cons (bytes [12%N]) r1
                else if (d =? 110)%N then cons (bytes [10%N]) r1
                else if (d =? 114)%N then cons (bytes [13%N]) r1
                else if (d =? 116)%N then cons (bytes [9%N]) r1
                else if (d =? 117)%N then
                  match hex4 r1 with
                  | Some (u, r2) =>
                      if ((0xD800 <=? u) && (u <=? 0xDBFF))%N then
                        match low_surrogate r2 with
                        | Some (lo, r3) =>
                            cons (utf8_encode
                                    (0x10000 + 1024 * (u - 0xD800) + (lo - 0xDC00))%N) r3
                        | None => cons (utf8_encode u) r2
                        end
                      else cons (utf8_encode u) r2
                  | None => None
                  end
                else None
            end
          else cons (String a "") r
      end
  end.

(** A number literal: an optional minus sign, then [0] or a run of digits not
    starting with [0], then optionally a point and digits, then optionally an
    exponent [e] or [E] with an optional sign and digits; its value is the
    number that the decimal written denotes. *)
Definition parse_number (s : string) : option (number * string) :=
  let '(neg, s1) := match s with
                    | String "-" r => (true, r)
                    | _ => (false, s)
                    end in
  let '(i, s2) := match s1 with
                  | String "0" r => ("0", r)
                  | _ => span is_digit s1
                  end in
  if i =? "" then None
  else
    let frac := match s2 with
                | String "." r =>
                    let '(f, r') := span is_digit r in
                    if f =? "" then None else Some (f, r')
                | _ => Some ("", s2)
                end in
    match frac with
    | None => None
    | Some (f, s3) =>
        let exp := match s3 with
                   | String c r =>
                       if ((c =? "e") || (c =? "E"))%char then
                         let '(eneg, r1) := match r with
                                            | String "-" r' => (true, r')
                                            | String "+" r' => (false, r')
                                            | _ => (false, r)
                                            end in
                         let '(ds, r2) := span is_digit r1 in
                         if ds =? "" then None
                         else Some (if eneg then (- digits_value 0 ds)%Z
                                    else digits_value 0 ds, r2)
                       else Some (0%Z, s3)
                   | "" => Some (0%Z, s3)
                   end in
        match exp with
        | None => None
        | Some (x, s4) =>
            let m := digits_value 0 (i ++ f) in
            Some (to_double (if neg then (- m)%Z else m) (x - Z.of_nat (length f))%Z,
                  s4)
        end
    end.

(** The array index that a property key writes, when it writes one: [0], or
    digits that do not start with [0], up to [2 ^ 32 - 2]. *)
Definition array_index (k : string) : option Z :=
  match k with
  | "" => None
  | String a _ =>
      if (snd (span is_digit k) =? "") && ((k =? "0") || negb (Ascii.eqb a "0"))
         && (digits_value 0 k <=? 4294967294)%Z
      then Some (digits_value 0 k)
      else None
  end.

(** Whether a new key [k] is enumerated before the key [k'] of an object:
    array indices come first, in ascending order, then the other keys in the
    order of their creation. *)
Definition precedes (k k' : string) : bool :=
  match array_index k, array_index k' with
  | Some i, Some j => (i <? j)%Z
  | Some _, None => true
  | None, _ => false
  end.

(** [CreateDataProperty]: a repeated key keeps its place and takes the new
    value; a new key takes its place in the enumeration order. *)
Fixpoint obj_set (k : string) (v : value) (props : list (string * value))
  : list (string * value) :=
  match props with
  | [] => [(k, v)]
  | (k', v') :: props' =>
      if k' =? k then (k, v) :: props'
      else if precedes k k' && negb (has_own k props') then (k, v) :: props
      else (k', v') :: obj_set k v props'
  end.

Fixpoint parse_value (fuel : nat) (s : string) : option (value * string) :=
  match fuel with
  | O => None
  | S fuel' =>
      match skip_ws s with
      | "" => None
      | String a r as t =>
          if (a =? "{")%char then
            match skip_ws r with
            | String "}" r' => Some (VObj [], r')
            | _ => parse_members fuel' [] r
            end
          else if (a =? "[")%char then
            match skip_ws r with
            | String "]" r' => Some (VArr [], r')
            | _ => parse_elements fuel' [] r
            end
          else if (code a =? 34)%N then
            match parse_chars (S (length r)) r with
            | Some (x, r') => Some (VStr x, r')
            | None => None
            end
          else if startsWith t "true" then Some (VBool true, skip 4 t)
          else if startsWith t "false" then Some (VBool false, skip 5 t)
          else if startsWith t "null" then Some (VNull, skip 4 t)
          else
            match parse_number t with
            | Some (n, r') => Some (VNum n, r')
            | None => None
            end
      end
  end
with parse_elements (fuel : nat) (acc : list value) (s : string)
  : option (value * string) :=
  match fuel with
  | O => None
  | S fuel' =>
      match parse_value fuel' s with
      | Some (v, r) =>
          match skip_ws r with
          | String "," r' => parse_elements fuel' (acc ++ [v]) r'
          | String "]" r' => Some (VArr (acc ++ [v]), r')
          | _ => None
          end
      | None => None
      end
  end
with parse_members (fuel : nat) (acc : list (string * value)) (s : string)
  : option (value * string) :=
  match fuel with
  | O => None
  | S fuel' =>
      match skip_ws s with
      | String q r =>
          if (code q =? 34)%N then
            match parse_chars (S (length r)) r with
            | Some (k, r1) =>
                match skip_ws r1 with
                | String ":" r2 =>
                    match parse_value fuel' r2 with
                    | Some (v, r3) =>
                        match skip_ws r3 with
                        | String "," r4 => parse_members fuel' (obj_set k v acc) r4
                        | String "}" r4 => Some (VObj (obj_set k v acc), r4)
                        | _ => None
                        end
                    | None => None
                    end
                | _ => None
                end
            | None => None
            end
          else None
      | "" => None
      end
  end.

(** The UTF-16 code units of a text, each as a text of its own: a character
    of the basic plane is one unit, any other character the two surrogates
    that write it. *)
Fixpoint code_units (s : string) : list string :=
  match s with
  | "" => []
  | String a r =>
      if (code a <? 0xC0)%N then String a "" :: code_units r
      else
        match r with
        | "" => [String a ""]
        | String b r1 =>
            if (code a <? 0xE0)%N then String a (String b "") :: code_units r1
            else
              match r1 with
              | "" => [String a (String b "")]
              | String c r2 =>
                  if (code a <? 0xF0)%N then
                    String a (String b (String c "")) :: code_units r2
                  else
                    match r2 with
                    | "" => [String a (String b (String c ""))]
                    | String d r3 =>
                        let cp := ((code a - 0xF0) * 262144 + (code b - 0x80) * 4096
                                   + (code c - 0x80) * 64 + (code d - 0x80))%N in
                        utf8_encode (0xD800 + (cp - 0x10000) / 1024)%N
                          :: utf8_encode (0xDC00 + (cp - 0x10000) mod 1024)%N
                          :: code_units r3
                    end
              end
        end
  end.

(** The elements of an array or a string as properties, from index [i] on. *)
Fixpoint indexed (i : N) (l : list value) : list (string * value) :=
  match l with
  | [] => []
  | x :: l' => (digits i, x) :: indexed (N.succ i) l'
  end.

(** The properties that a spread [{...v}] copies: the own properties of an
    object, the elements of an array and the code units of a string under
    their indices, nothing of any other value. *)
Definition spread_properties (v : value) : list (string * value) :=
  match v with
  | VObj props => props
  | VArr l => indexed 0 l
  | VStr s => indexed 0 (map VStr (code_units s))
  | _ => []
  end.

(** [JSON.parse(text)]: [None] stands for the [SyntaxError].  Every call
    below the first consumes a character at least every second step, so the
    fuel given is never exhausted on a well-formed text. *)
Definition JSON_parse (text : string) : option value :=
  match parse_value (2 * length text + 2) text with
  | Some (v, r) => if skip_ws r =? "" then Some v else None
  | None => None
  end.

End Js.

(** ** lib/utils/errorHandler.ts *)
Module ErrorHandler.
Import Js.

(** [arr.map(f)] for a callback that may throw: the first exception ends it. *)
Fixpoint Array_map {A} (f : value -> completion A) (l : list value)
  : completion (list A) :=
  match l with
  | [] => Return []
  | x :: l' =>
      bind (f x) (fun y => bind (Array_map f l') (fun ys => Return (y :: ys)))
  end.

(** [err.loc?.slice(1).join('.')]: [undefined] when [loc] is [undefined] or
    [null]; an array has both methods; a string has [slice] but its result has
    no [join], and no other value has a [slice] that can be called. *)
Definition loc_path (loc : value) : completion value :=
  match loc with
  | VUndef | VNull => Return VUndef
  | VArr l => bind (Array_join "." (tl l)) (fun path => Return (VStr path))
  | _ => Throw TypeError
  end.

(** The callback given to [data.detail.map]. *)
Definition format_validation_error (err : value) : completion string :=
  bind (getp err "loc") (fun loc =>
  bind (loc_path loc) (fun path =>
  let location := or_else path (VStr "field") in
  bind (ToString location) (fun l =>
  bind (ToString (get err "msg")) (fun m =>
  Return (l ++ ": " ++ m))))).

(** The block guarded by [if (error.response?.data)]; [None] when control
    falls out of it. *)
Definition from_response_data (data : value) : option (completion value) :=
  let detail := get data "detail" in
  match detail with
  | VArr entries =>
      Some (bind (Array_map format_validation_error entries)
                 (fun parts => Return (VStr (join "; " parts))))
  | _ =>
      if typeof detail =? "string" then Some (Return detail)
      else if truthy detail && (typeof detail =? "object") then
        Some (Return (or_else (or_else (get detail "message") (get detail "msg"))
                              (JSON_stringify detail)))
      else if truthy (get data "message") then Some (Return (get data "message"))
      else if typeof data =? "object" then Some (Return (JSON_stringify data))
      else None
  end.

Definition extractErrorMessage (error : value) : completion value :=
  if negb (truthy error) then Return (VStr "An unknown error occurred")
  else if typeof error =? "string" then Return error
  else
    let data := get_opt (get error "response") "data" in
    match (if truthy data then from_response_data data else None) with
    | Some result => result
    | None =>
        if truthy (get error "message") then Return (get error "message")
        else if truthy (get error "msg") then Return (get error "msg")
        else Return (VStr "An unexpected error occurred")
    end.

(** [formatErrorForDisplay(error, fallback)]; a missing [fallback] is [undefined]. *)
Definition formatErrorForDisplay (error fallback : value) : completion value :=
  bind (extractErrorMessage error) (fun message =>
  Return (or_else (or_else message fallback) (VStr "An error occurred"))).

Definition safeRenderError (error fallback : value) : completion value :=
  if typeof error =? "string" then Return error
  else formatErrorForDisplay error fallback.

End ErrorHandler.

(** ** lib/api/search.ts *)
Module SearchApi.
Import Js.

Record SearchResultItem : Type := {
  chunkId : value;
  fileId : value;
  filePath : value;
  snippet : value;
  highlightedSnippet : value;
  startLine : value;
  endLine : value;
  matchType : value;
  relevanceScore : value;
  semanticScore : value;
  keywordScore : value;
  symbolScore : value;
  language : value;
  symbolName : value;
  symbolType : value
}.

(** The sentinel that replaces an invalid [file_id]. *)
Definition sentinel : value := int 0.

(** The two steps that settle [fileId]. *)
Definition normalize_file_id (file_id : value) : completion value :=
  let fileId := match file_id with
                | VStr s => VNum (parseInt10 s)
                | _ => file_id
                end in
  bind (isNaN fileId) (fun nan =>
  Return (if nan || nullish fileId then sentinel else fileId)).

Definition transformSearchResult (apiResult : value) : completion SearchResultItem :=
  bind (getp apiResult "file_id") (fun file_id =>
  bind (normalize_file_id file_id) (fun fileId =>
  Return {|
    chunkId := coalesce (get apiResult "chunk_id") VUndef;
    fileId := fileId;
    filePath := or_else (get apiResult "file_path") (VStr "");
    snippet := or_else (get apiResult "snippet") (VStr "");
    highlightedSnippet :=
      or_else (or_else (get apiResult "highlighted_snippet") (get apiResult "snippet"))
              (VStr "");
    startLine := or_else (get apiResult "start_line") (int 0);
    endLine := or_else (get apiResult "end_line") (int 0);
    matchType := if Array_isArray (get apiResult "match_type")
                 then get apiResult "match_type" else VArr [];
    relevanceScore := or_else (get apiResult "relevance_score") (int 0);
    semanticScore := coalesce (get apiResult "semantic_score") VUndef;
    keywordScore := coalesce (get apiResult "keyword_score") VUndef;
    symbolScore := coalesce (get apiResult "symbol_score") VUndef;
    language := or_else (get apiResult "language") (VStr "text");
    symbolName := coalesce (get apiResult "symbol_name") VUndef;
    symbolType := coalesce (get apiResult "symbol_type") VUndef
  |})).

End SearchApi.

(** ** lib/api.ts *)
Module Api.
Import Js.

Record request : Type := {
  method : string;
  url : string;
  body : value
}.

(** What a call does besides returning: requests handed to the transport,
    callbacks invoked, timed waits, console diagnostics and state updates of
    the calling hook, in the order in which they happen. *)
Inductive effect : Type :=
| Http (r : request)
| OnToken (token : value)
| OnSources (sources : value)
| OnDone (messageId : value)
| OnError (error : value)
| OnUpdate (status : value)
| SetTimeout (ms : Z)
| ConsoleError
| ReleaseLock
| SetIsLoading (b : bool)
| SetError (message : value).

Definition trace : Type := list effect.

(** An asynchronous call: its effects and how it settles. *)
Definition async (A : Type) : Type := trace * completion A.

Definition is_Http (e : effect) : bool :=
  match e with
  | Http _ => true
  | _ => false
  end.

(** [s.trim()] on a value: only a string has the method. *)
Definition String_trim (v : value) : completion value :=
  match v with
  | VStr s => Return (VStr (trim s))
  | _ => Throw TypeError
  end.

(** The request body both chat operations build from the caller's request. *)
Definition validatedRequest (request : value) (question : value) : value :=
  VObj [ ("question", question);
         ("top_k", coalesce (get request "top_k") (int 5));
         ("prompt_style", coalesce (get request "prompt_style") (VStr "senior_dev"));
         ("include_sources", coalesce (get request "include_sources") (VBool true));
         ("include_metadata", coalesce (get request "include_metadata") (VBool true)) ].

(** [repositoryApi.chat(id, request)], over the transport's [api.post]. *)
Definition chat (post : request -> completion value) (id : Z) (request : value)
  : async value :=
  if negb (truthy request) || negb (typeof request =? "object") then
    ([], Throw (Error "Invalid request object"))
  else
    match get request "question" with
    | VStr q =>
        (* a string: the test is [!q || !q.trim()] *)
        if negb (truthy (VStr q)) || negb (truthy (VStr (trim q))) then
          ([], Throw (Error "Question is required and must be a non-empty string"))
        else
          let r := {| method := "POST";
                      url := "/repos/" ++ Number_toString (Num id 0) ++ "/chat";
                      body := validatedRequest request (VStr (trim q)) |} in
          ([Http r], bind (post r) (fun response => getp response "data"))
    | _ =>
        (* falsy, or [typeof request.question !== 'string'] *)
        ([], Throw (Error "Question is required and must be a non-empty string"))
    end.

(** One [reader.read()]: a chunk of bytes, or a failure of the transport.  The
    end of the list is the read that reports [done]. *)
Inductive read : Type :=
| Chunk (value : string)
| ReadError (err : value).

(** The reply to [fetch]: [ok], what [response.json()] settles to, and the
    reads of [response.body]'s reader when there is a body. *)
Record response : Type := {
  ok : bool;
  json : completion value;
  reads : option (list read)
}.

(** The [switch] on [event.type]; reading [type] off [null] throws into the
    enclosing [catch], which logs.  A callback is recorded as an effect; the
    callbacks themselves are taken not to throw. *)
Definition dispatch (event : value) : trace :=
  match getp event "type" with
  | Throw _ => [ConsoleError]
  | Return (VStr type) =>
      if type =? "token" then [OnToken (get event "content")]
      else if type =? "sources" then [OnSources (get event "content")]
      else if type =? "done" then [OnDone (get event "message_id")]
      else if type =? "error" then [OnError (get event "content")]
      else []
  | Return _ => []
  end.

(** The body of [for (const line of lines)]. *)
Definition handle_line (line : string) : trace :=
  if startsWith line "data: " then
    let data := skip 6 line in
    match JSON_parse data with
    | Some event => dispatch event
    | None => [ConsoleError]
    end
  else [].

(** The body of the [while] loop for one chunk read. *)
Definition handle_chunk (value : string) : trace :=
  let chunk := TextDecoder_decode value in
  let lines := split "010" chunk in
  flat_map handle_line lines.

(** The [while (true)] loop over the reads of the stream. *)
Fixpoint read_loop (rs : list read) : async unit :=
  match rs with
  | [] => ([], Return tt)
  | Chunk value :: rs' =>
      let '(t, c) := read_loop rs' in ((handle_chunk value ++ t)%list, c)
  | ReadError err :: _ => ([], Throw err)
  end.

(** [repositoryApi.chatStream(id, request, onToken, onSources, onDone, onError)],
    over [fetch]; the four callbacks appear as effects. *)
Definition chatStream (fetch : request -> completion response) (id : Z)
    (request : value) : async unit :=
  match getp request "question" with
  | Throw e => ([], Throw e)
  | Return question =>
      if negb (truthy question) then ([], Throw (Error "Question is required"))
      else
        match String_trim question with
        | Throw e => ([], Throw e)
        | Return trimmed =>
            if negb (truthy trimmed) then ([], Throw (Error "Question is required"))
            else
              let r := {| method := "POST";
                          url := "/repos/" ++ Number_toString (Num id 0)
                                 ++ "/chat/stream";
                          body := JSON_stringify (validatedRequest request trimmed) |} in
              match fetch r with
              | Throw e => ([Http r], Throw e)
              | Return response =>
                  if negb (ok response) then
                    let errorData := match json response with
                                     | Return d => d
                                     | Throw _ => VObj []
                                     end in
                    match getp errorData "detail" with
                    | Throw e => ([Http r], Throw e)
                    | Return detail =>
                        ([Http r],
                         bind (ToString
                                 (or_else detail
                                    (VStr "Failed to start streaming chat")))
                              (fun message => Throw (Error message)))
                    end
                  else
                    match reads response with
                    | None => ([Http r], Throw (Error "Stream not available"))
                    | Some rs =>
                        let '(t, c) := read_loop rs in
                        ((Http r :: t ++ [ReleaseLock])%list, c)
                    end
              end
        end
  end.

(** The outcomes of [repositoryApi.getById(id)], one per call, in call order. *)
Definition status_source : Type := nat -> completion value.

Definition is_terminal (status : value) : bool :=
  match status with
  | VStr s => (s =? "completed") || (s =? "failed")
  | _ => false
  end.

Definition status_request (id : Z) : request :=
  {| method := "GET"; url := "/repos/" ++ Number_toString (Num id 0); body := VUndef |}.

(** The caller's [onUpdate]: whether it returns or throws on a status.  The
    call itself is recorded as an effect. *)
Definition callback : Type := value -> completion unit.

(** The [while (attempt < maxAttempts)] loop from a given [attempt]; [n] is
    the number of status requests issued so far.  What [onUpdate] throws is
    not caught.  [None] only when the fuel, which bounds the iterations, runs
    out. *)
Fixpoint poll_loop (getById : status_source) (onUpdate : callback)
    (id maxAttempts interval : Z)
    (fuel : nat) (attempt : Z) (n : nat) : trace * option (completion value) :=
  if (attempt <? maxAttempts)%Z then
    match fuel with
    | O => ([], None)
    | S fuel' =>
        match getById n with
        | Throw e => ([Http (status_request id)], Some (Throw e))
        | Return repo =>
            match getp repo "status" with
            | Throw e => ([Http (status_request id)], Some (Throw e))
            | Return status =>
                match onUpdate status with
                | Throw e =>
                    ([Http (status_request id); OnUpdate status], Some (Throw e))
                | Return _ =>
                    if is_terminal status then
                      ([Http (status_request id); OnUpdate status],
                       Some (Return repo))
                    else
                      let '(t, c) :=
                        poll_loop getById onUpdate id maxAttempts interval fuel'
                                  (attempt + 1)%Z (S n) in
                      (Http (status_request id) :: OnUpdate status
                         :: SetTimeout interval :: t, c)
                end
            end
        end
    end
  else ([], Some (Throw (Error "Timeout waiting for repository to be processed"))).

Definition pollRepositoryStatus (getById : status_source) (onUpdate : callback)
    (id maxAttempts interval : Z) : trace * option (completion value) :=
  poll_loop getById onUpdate id maxAttempts interval (Z.to_nat maxAttempts) 0%Z 0.

(** [createChatRequest(question, options)]; missing [options] are [undefined]. *)
Definition createChatRequest (question options : value) : completion value :=
  if negb (truthy question) || negb (typeof question =? "string") then
    Throw (Error "Question must be a non-empty string")
  else
    bind (String_trim question) (fun trimmedQuestion =>
    if negb (truthy trimmedQuestion) then Throw (Error "Question cannot be empty")
    else
      Return (VObj
        [ ("question", trimmedQuestion);
          ("top_k", coalesce (get_opt options "top_k") (int 5));
          ("prompt_style", coalesce (get_opt options "prompt_style") (VStr "senior_dev"));
          ("include_sources", coalesce (get_opt options "include_sources") (VBool true));
          ("include_metadata",
           coalesce (get_opt options "include_metadata") (VBool true)) ])).

End Api.

(** ** lib/hooks/useChat.ts *)
Module UseChat.
Import Js Api.

(** [sendMessage(question, options)]: the [try] block, then [catch] and
    [finally]. *)
Definition sendMessage (post : request -> completion value) (repoId : Z)
    (question options : value) : async value :=
  let attempt : async value :=
    if negb (truthy question) || negb (typeof question =? "string") then
      ([], Throw (Error "Question must be a non-empty string"))
    else
      match String_trim question with
      | Throw e => ([], Throw e)
      | Return trimmedQuestion =>
          if negb (truthy trimmedQuestion) then
            ([], Throw (Error "Question cannot be empty"))
          else
            match createChatRequest trimmedQuestion options with
            | Throw e => ([SetIsLoading true; SetError (VStr "")], Throw e)
            | Return request =>
                let '(t, c) := chat post repoId request in
                ((SetIsLoading true :: SetError (VStr "") :: t)%list, c)
            end
      end in
  let '(t, c) := attempt in
  match c with
  | Return response => ((t ++ [SetIsLoading false])%list, Return response)
  | Throw err =>
      match ErrorHandler.extractErrorMessage err with
      | Return errorMsg =>
          ((t ++ [ConsoleError; SetError errorMsg; SetIsLoading false])%list,
           Return VNull)
      | Throw e => ((t ++ [ConsoleError; SetIsLoading false])%list, Throw e)
      end
  end.

End UseChat.

(** ** lib/hooks/useCodeSearch.ts *)
Module UseCodeSearch.
Import Js.

(** The state cells of the hook, its options, and the requests handed to
    [searchApi.search] that have not settled yet, by their order of issue.
    The hook imports [searchApi] from [lib/api.ts], whose [search] resolves
    to the body of the reply as it is. *)
Record state : Type := {
  query : value;
  results : value;
  totalResults : value;
  isLoading : bool;
  error : value;
  latency : value;
  currentPage : value;
  mode : value;
  filters : value;
  perPage : value;
  issued : nat;
  in_flight : list (nat * Api.request)
}.

Definition initial (initialQuery : value) (options : value) : state :=
  {| query := initialQuery;
     results := VArr [];
     totalResults := int 0;
     isLoading := false;
     error := VNull;
     latency := int 0;
     currentPage := or_else (get options "page") (int 1);
     mode := or_else (get options "mode") (VStr "auto");
     filters := or_else (get options "filters") (VObj []);
     perPage := get options "perPage";
     issued := 0;
     in_flight := [] |}.

(** What happens to a search session: a call of [search], or the settling of
    the [n]-th request issued, with the body of the reply, which is what
    [searchApi.search] resolves to, or with a failure. *)
Inductive event : Type :=
| Search (searchQuery searchOptions : value)
| Resolved (n : nat) (apiData : value)
| Rejected (n : nat) (err : value).

(** The [params] of [searchApi.search]; the spread of [options.filters] adds
    the properties of the filters. *)
Definition search_params (q : string) (mode page perPage filters : value) : value :=
  VObj (fold_left (fun ps kv => obj_set (fst kv) (snd kv) ps)
          (spread_properties filters)
          [ ("q", VStr q);
            ("mode", or_else mode (VStr "auto"));
            ("page", or_else page (int 1));
            ("per_page", or_else perPage (int 20)) ]).

(** [search(searchQuery, searchOptions)] up to its [await].  When
    [String(q || '')] throws, the call rejects before it has set anything. *)
Definition search (repoId : Z) (st : state) (searchQuery searchOptions : value)
  : state :=
  let q := match searchQuery with
           | VUndef => query st
           | _ => searchQuery
           end in
  match (if typeof q =? "string" then Return q
         else bind (ToString (or_else q (VStr ""))) (fun t => Return (VStr t))) with
  | Throw _ => st
  | Return q =>
  let q := match q with
           | VStr s => trim s
           | _ => ""
           end in
  if negb (truthy (VStr q)) then
    {| query := query st; results := VArr []; totalResults := int 0;
       isLoading := isLoading st; error := error st; latency := latency st;
       currentPage := currentPage st; mode := mode st; filters := filters st;
       perPage := perPage st; issued := issued st; in_flight := in_flight st |}
  else
    let r := {| Api.method := "GET";
                Api.url := "/repos/" ++ Number_toString (Num repoId 0) ++ "/search";
                Api.body :=
                  search_params q
                    (or_else (get_opt searchOptions "mode") (mode st))
                    (or_else (get_opt searchOptions "page") (currentPage st))
                    (or_else (or_else (get_opt searchOptions "perPage") (perPage st))
                             (int 20))
                    (or_else (get_opt searchOptions "filters") (filters st)) |} in
    {| query := query st; results := results st; totalResults := totalResults st;
       isLoading := true; error := VNull; latency := latency st;
       currentPage := currentPage st; mode := mode st; filters := filters st;
       perPage := perPage st; issued := S (issued st);
       in_flight := (in_flight st ++ [(issued st, r)])%list |}
  end.

Definition settle (n : nat) (st : state) : list (nat * Api.request) :=
  filter (fun p => negb (Nat.eqb (fst p) n)) (in_flight st).

(** The rest of the [try] block, then [finally], for a [response] that is
    neither [undefined] nor [null]: its [results], [totalResults] and
    [latencyMs] are stored as they are read. *)
Definition apply_response (n : nat) (st : state) (response : value) : state :=
  {| query := query st; results := get response "results";
     totalResults := get response "totalResults";
     isLoading := false; error := error st; latency := get response "latencyMs";
     currentPage := currentPage st; mode := mode st; filters := filters st;
     perPage := perPage st; issued := issued st; in_flight := settle n st |}.

(** The [catch] block, then [finally]. *)
Definition apply_failure (n : nat) (st : state) (err : value) : state :=
  match getp err "response" with
  | Throw _ =>
      {| query := query st; results := results st; totalResults := totalResults st;
         isLoading := false; error := error st; latency := latency st;
         currentPage := currentPage st; mode := mode st; filters := filters st;
         perPage := perPage st; issued := issued st; in_flight := settle n st |}
  | Return response =>
      let errorMessage :=
        or_else (or_else (get_opt (get_opt response "data") "detail")
                         (get err "message"))
                (VStr "Search failed") in
      {| query := query st; results := VArr []; totalResults := int 0;
         isLoading := false; error := errorMessage; latency := latency st;
         currentPage := currentPage st; mode := mode st; filters := filters st;
         perPage := perPage st; issued := issued st; in_flight := settle n st |}
  end.

Definition is_in_flight (n : nat) (st : state) : bool :=
  existsb (fun p => Nat.eqb (fst p) n) (in_flight st).

(** One event of the session.  A request settles once: an event for a request
    that is not in flight changes nothing.  Reading [response.results] off an
    [undefined] or [null] reply throws into the [catch] block. *)
Definition step (repoId : Z) (st : state) (e : event) : state :=
  match e with
  | Search searchQuery searchOptions => search repoId st searchQuery searchOptions
  | Resolved n apiData =>
      if is_in_flight n st then
        if nullish apiData then apply_failure n st TypeError
        else apply_response n st apiData
      else st
  | Rejected n err => if is_in_flight n st then apply_failure n st err else st
  end.

Definition run (repoId : Z) (st : state) (es : list event) : state :=
  fold_left (step repoId) es st.

End UseCodeSearch.

(** ** Notions used in the statements *)
Module Notions.
Import Js.

(** A text made of white space only: a concatenation of encodings of
    WhiteSpace and LineTerminator code points; the empty text is one. *)
Definition whitespace_only (q : string) : Prop :=
  exists l : list string,
    Forall (fun e => In e ws_encodings) l /\ q = fold_right append "" l.

Definition in_range (lo hi : N) (a : ascii) : bool :=
  ((lo <=? code a) && (code a <=? hi))%N.

Definition continuation (a : ascii) : bool := in_range 0x80 0xBF a.

(** The well-formed byte sequences of two, three and four bytes (Unicode,
    table 3-7). *)
Definition seq2 (a b : ascii) : bool :=
  in_range 0xC2 0xDF a && continuation b.

Definition seq3 (a b c : ascii) : bool :=
  (in_range 0xE0 0xE0 a && in_range 0xA0 0xBF b
   || in_range 0xE1 0xEC a && continuation b
   || in_range 0xED 0xED a && in_range 0x80 0x9F b
   || in_range 0xEE 0xEF a && continuation b)
  && continuation c.

Definition seq4 (a b c d : ascii) : bool :=
  (in_range 0xF0 0xF0 a && in_range 0x90 0xBF b
   || in_range 0xF1 0xF3 a && continuation b
   || in_range 0xF4 0xF4 a && in_range 0x80 0x8F b)
  && continuation c && continuation d.

(** The encoding of one character that takes more than one byte. *)
Definition multibyte_char (s : string) : bool :=
  match s with
  | String a (String b "") => seq2 a b
  | String a (String b (String c "")) => seq3 a b c
  | String a (String b (String c (String d ""))) => seq4 a b c d
  | _ => false
  end.

(** Well-formed UTF-8. *)
Fixpoint is_utf8 (s : string) : bool :=
  match s with
  | "" => true
  | String a r =>
      if in_range 0 0x7F a then is_utf8 r
      else
        match r with
        | String b r1 =>
            if seq2 a b then is_utf8 r1
            else
              match r1 with
              | String c r2 =>
                  if seq3 a b c then is_utf8 r2
                  else
                    match r2 with
                    | String d r3 => seq4 a b c d && is_utf8 r3
                    | "" => false
                    end
              | "" => false
              end
        | "" => false
        end
  end.

Fixpoint no_newline (s : string) : bool :=
  match s with
  | "" => true
  | String a r => negb (Ascii.eqb a "010") && no_newline r
  end.

(** A line as the stream carries it between two line feeds: well-formed text
    without a line feed that does not open with a byte order mark. *)
Definition is_line (l : string) : bool :=
  is_utf8 l && no_newline l && negb (startsWith l BOM).

(** The text of a chunk that holds the given lines, each with its line feed. *)
Fixpoint lines_text (ls : list string) : string :=
  match ls with
  | [] => ""
  | l :: ls' => l ++ LF ++ lines_text ls'
  end.

Fixpoint repeat_text (t : string) (n : nat) : string :=
  match n with
  | O => ""
  | S n' => t ++ repeat_text t n'
  end.


Definition is_callback (e : Api.effect) : bool :=
  match e with
  | Api.OnToken _ | Api.OnSources _ | Api.OnDone _ | Api.OnError _ => true
  | _ => false
  end.

(** A JSON text written with ['] in place of the double quote. *)
Fixpoint json_text (s : string) : string :=
  match s with
  | "" => ""
  | String a s' => String (if Ascii.eqb a "'" then dquote else a) (json_text s')
  end.

(** A text that the decoder, started afresh, returns unchanged, ending in its
    initial state. *)
Definition decodes_to_itself (s : string) : Prop :=
  utf8_run utf8_initial s = (s, utf8_initial).

(** A reply to [fetch] that streams the given chunks and then ends. *)
Definition stream_of (chunks : list string)
  : Api.request -> completion Api.response :=
  fun _ => Return {| Api.ok := true; Api.json := Return VNull;
                     Api.reads := Some (map Api.Chunk chunks) |}.

(** The callbacks among the effects of a call, in order. *)
Definition callbacks (t : Api.trace) : Api.trace := filter is_callback t.

Definition ask : value := VObj [("question", VStr "What does it do?")].

Definition token_line : string := json_text "data: {'type':'token','content':'Hello'}".
Definition token_head : string := json_text "data: {'type':'token','con".
Definition token_tail : string := json_text "tent':'Hello'}".
Definition done_line : string := json_text "data: {'type':'done','message_id':7}".
Definition late_line : string := json_text "data: {'type':'token','content':' again'}".

(** A message field that the error handler may return: a string, or a value
    it skips. *)
Definition text_or_falsy (v : value) : bool :=
  match v with
  | VStr _ => true
  | _ => negb (truthy v)
  end.

(** A value that can be made a string: neither it nor, when it is an array,
    any of its elements is an object with a property of its own named
    [toString]. *)
Fixpoint printable (v : value) : bool :=
  match v with
  | VArr l =>
      (fix all (l : list value) : bool :=
         match l with
         | [] => true
         | x :: l' => printable x && all l'
         end) l
  | VObj props => negb (has_own "toString" props)
  | _ => true
  end.

(** What [ToString] does is decided by [printable]. *)
Definition ToString_decided (v : value) : Prop :=
  (printable v = true -> exists t, ToString v = Return t)
  /\ (printable v = false -> ToString v = Throw TypeError).

(** An entry of a validation array that [format_validation_error] accepts:
    not [null], with no [loc] or an array whose elements after the first can
    be printed, and with a [msg] that can be printed. *)
Definition entry_ok (e : value) : bool :=
  negb (nullish e)
  && match get e "loc" with
     | VUndef | VNull => true
     | VArr l => forallb printable (tl l)
     | _ => false
     end
  && printable (get e "msg").

Definition detail_ok (detail : value) : bool :=
  match detail with
  | VArr entries =>
      match entries with
      | [] => false
      | _ => forallb entry_ok entries
      end
  | VStr s => negb (s =? "")
  | VObj _ =>
      text_or_falsy (get detail "message")
      && (truthy (get detail "message") || text_or_falsy (get detail "msg"))
  | _ => true
  end.

(** The error shapes on which the handler yields a message. *)
Definition error_ok (error : value) : bool :=
  let data := get_opt (get error "response") "data" in
  (if truthy data
   then detail_ok (get data "detail") && text_or_falsy (get data "message")
   else true)
  && text_or_falsy (get error "message")
  && (truthy (get error "message") || text_or_falsy (get error "msg")).

(** The [fileId] of a transformed result. *)
Definition fileId_of (c : completion SearchApi.SearchResultItem) : completion value :=
  bind c (fun item => Return (SearchApi.fileId item)).

(** Two replies of the search endpoint, for the queries of a session in which
    a second query is issued while the first is still in flight. *)
Definition reply_A : value :=
  VObj [("total_results", int 1);
        ("results", VArr [VObj [("file_id", int 10); ("file_path", VStr "auth.ts")]]);
        ("latency_ms", int 900)].

Definition reply_B : value :=
  VObj [("total_results", int 2);
        ("results", VArr [VObj [("file_id", int 20); ("file_path", VStr "login.ts")];
                          VObj [("file_id", int 21); ("file_path", VStr "logout.ts")]]);
        ("latency_ms", int 40)].

Definition overtaken_session : list UseCodeSearch.event :=
  [ UseCodeSearch.Search (VStr "auth") VUndef;
    UseCodeSearch.Search (VStr "login") VUndef;
    UseCodeSearch.Resolved 1 reply_B;
    UseCodeSearch.Resolved 0 reply_A ].

(** What the user sees of a search session: the results and the total. *)
Definition visible (st : UseCodeSearch.state) : value * value :=
  (UseCodeSearch.results st, UseCodeSearch.totalResults st).

(** What the hook reads off a reply for them. *)
Definition shown (response : value) : value * value :=
  (get response "results", get response "totalResults").

(** A call that returns a non-empty string. *)
Definition yields_message (c : completion value) : Prop :=
  exists s, c = Return (VStr s) /\ s <> "".

(** A failed request as the transport reports it, with the validation
    errors of the server. *)
Definition validation_failure : value :=
  VObj [("message", VStr "Request failed with status code 422");
        ("response",
         VObj [("status", int 422);
               ("data",
                VObj [("detail",
                       VArr [VObj [("type", VStr "missing");
                                   ("loc", VArr [VStr "body"; VStr "items"; int 0;
                                                 VStr "name"]);
                                   ("msg", VStr "Field required")];
                             VObj [("msg", VStr "Invalid")]])])])].

(** An error whose response carries an empty validation array. *)
Definition empty_validation_failure : value :=
  VObj [("message", VStr "Request failed with status code 422");
        ("response", VObj [("data", VObj [("detail", VArr [])])])].

(** A status source that reports the four states of the scenario, then
    [completed] for ever. *)
Definition scenario_source : Api.status_source :=
  fun n => Return (VObj [("id", int 1);
                         ("status", VStr (nth n ["pending"; "running"; "running"]
                                            "completed"))]).

(** The [onUpdate] that the home page passes to [pollRepositoryStatus]: it
    sets the progress and the status message, and throws on [failed]. *)
Definition home_onUpdate : Api.callback :=
  fun currentStatus =>
    match currentStatus with
    | VStr s =>
        if s =? "failed" then Throw (Error "Repository processing failed")
        else Return tt
    | _ => Return tt
    end.


End Notions.

(** ** More of the JavaScript run time: arithmetic on numbers *)
Module JsOps.
Import Js.

(** A number with a decimal that denotes an infinity read as that infinity. *)
Definition extended (x : number) : number :=
  match x with
  | Num m e =>
      match fraction_of m e with
      | Some _ => x
      | None => Infinity (m <? 0)%Z
      end
  | _ => x
  end.

(** The sum of two numbers: the exact sum of the two doubles, rounded. *)
Definition Num_add (x y : number) : number :=
  match extended x, extended y with
  | Num m1 e1, Num m2 e2 =>
      match fraction_of m1 e1, fraction_of m2 e2 with
      | Some (n1, d1), Some (n2, d2) => of_fraction (n1 * d2 + n2 * d1) (d1 * d2)
      | _, _ => NaN
      end
  | Infinity a, Infinity b => if Bool.eqb a b then Infinity a else NaN
  | Infinity a, Num _ _ | Num _ _, Infinity a => Infinity a
  | _, _ => NaN
  end.

Definition Num_neg (x : number) : number :=
  match x with
  | Num m e => Num (- m) e
  | Infinity a => Infinity (negb a)
  | NaN => NaN
  end.

(** [x < y] on numbers; false when either is [NaN]. *)
Definition Num_ltb (x y : number) : bool :=
  match extended x, extended y with
  | Num m1 e1, Num m2 e2 =>
      match fraction_of m1 e1, fraction_of m2 e2 with
      | Some (n1, d1), Some (n2, d2) => (n1 * d2 <? n2 * d1)%Z
      | _, _ => false
      end
  | Infinity a, Infinity b => a && negb b
  | Infinity a, Num _ _ => a
  | Num _ _, Infinity b => negb b
  | _, _ => false
  end.

(** [ToPrimitive]: arrays and plain objects become their string, which can
    throw. *)
Definition ToPrimitive (v : value) : completion value :=
  match v with
  | VArr _ | VObj _ => bind (ToString v) (fun t => Return (VStr t))
  | _ => Return v
  end.

(** [ToNumber] on a primitive that is not a string. *)
Definition ToNumber_primitive (v : value) : number :=
  match v with
  | VNull | VBool false => Num 0 0
  | VBool true => Num 1 0
  | VNum n => n
  | _ => NaN
  end.

(** [a + b]: concatenation as soon as one side is a string after
    [ToPrimitive], the sum of the numbers otherwise. *)
Definition plus (a b : value) : completion value :=
  bind (ToPrimitive a) (fun pa =>
  bind (ToPrimitive b) (fun pb =>
  match pa, pb with
  | VStr _, _ | _, VStr _ =>
      bind (ToString pa) (fun sa =>
      bind (ToString pb) (fun sb => Return (VStr (sa ++ sb))))
  | _, _ => Return (VNum (Num_add (ToNumber_primitive pa) (ToNumber_primitive pb)))
  end)).

(** [ToNumber(v)], as [v > 1] and [v - 1] apply it, where it is in the model:
    [None] for a string that writes a number, or an array that prints as one,
    whose value the model does not compute. *)
Definition ToNumber (v : value) : completion (option number) :=
  bind (ToPrimitive v) (fun p =>
  Return (match p with
          | VStr s => if numeric_string s then None else Some NaN
          | _ => Some (ToNumber_primitive p)
          end)).

End JsOps.

(** ** lib/api.ts, the other calls of [repositoryApi] *)
Module ApiCalls.
Import Js Api.

(** [repositoryApi.ingest(githubUrl)] *)
Definition ingest (post : request -> completion value) (githubUrl : value)
  : async value :=
  if negb (truthy githubUrl) || negb (typeof githubUrl =? "string") then
    ([], Throw (Error "GitHub URL is required"))
  else
    let r := {| method := "POST"; url := "/repos/ingest";
                body := VObj [("github_url", githubUrl)] |} in
    ([Http r], bind (post r) (fun response => getp response "data")).

(** The request body [searchCode] builds; 0.3 is the default threshold. *)
Definition validatedSearchRequest (request : value) (query : value) : value :=
  VObj [ ("query", query);
         ("top_k", coalesce (get request "top_k") (int 5));
         ("score_threshold", coalesce (get request "score_threshold") (VNum (Num 3 (-1))));
         ("rerank", coalesce (get request "rerank") (VBool true)) ].

(** [repositoryApi.searchCode(id, request)] *)
Definition searchCode (post : request -> completion value) (id : Z) (request : value)
  : async value :=
  match getp request "query" with
  | Throw e => ([], Throw e)
  | Return query =>
      if negb (truthy query) then ([], Throw (Error "Search query is required"))
      else
        match String_trim query with
        | Throw e => ([], Throw e)
        | Return trimmed =>
            if negb (truthy trimmed) then
              ([], Throw (Error "Search query is required"))
            else
              let r := {| method := "POST";
                          url := "/repos/" ++ Number_toString (Num id 0) ++ "/search";
                          body := validatedSearchRequest request trimmed |} in
              ([Http r], bind (post r) (fun response => getp response "data"))
        end
  end.

(** [createSearchRequest(query, options)] *)
Definition createSearchRequest (query options : value) : completion value :=
  if negb (truthy query) || negb (typeof query =? "string") then
    Throw (Error "Query must be a non-empty string")
  else
    bind (String_trim query) (fun trimmedQuery =>
    if negb (truthy trimmedQuery) then Throw (Error "Query cannot be empty")
    else
      Return (VObj
        [ ("query", trimmedQuery);
          ("top_k", coalesce (get_opt options "top_k") (int 5));
          ("score_threshold",
           coalesce (get_opt options "score_threshold") (VNum (Num 3 (-1))));
          ("rerank", coalesce (get_opt options "rerank") (VBool true)) ])).

End ApiCalls.

(** ** lib/api/search.ts, [searchApi.search] *)
Module SearchClient.
Import Js Api SearchApi.

(** The object [searchApi.search] resolves to. *)
Record SearchResult : Type := {
  query : value;
  mode : value;
  totalResults : value;
  page : value;
  perPage : value;
  totalPages : value;
  results : list SearchResultItem;
  latencyMs : value;
  filtersApplied : value;
  suggestions : value
}.

(** The request of [searchApi.search(repoId, query, options)]; a missing
    [options] is the empty object. *)
Definition search_request (repoId : Z) (query : string) (options : value) : request :=
  {| method := "GET";
     url := "/repos/" ++ Number_toString (Num repoId 0) ++ "/search";
     body := UseCodeSearch.search_params query
               (get options "mode") (get options "page")
               (get options "perPage") (get options "filters") |}.

(** What is made of the body of the reply. *)
Definition transform_response (apiData : value) : completion SearchResult :=
  bind (getp apiData "query") (fun q =>
  match get apiData "results" with
  | VArr items =>
      bind (ErrorHandler.Array_map transformSearchResult items) (fun items' =>
      Return {| query := q;
                mode := get apiData "mode";
                totalResults := get apiData "total_results";
                page := get apiData "page";
                perPage := get apiData "per_page";
                totalPages := get apiData "total_pages";
                results := items';
                latencyMs := get apiData "latency_ms";
                filtersApplied := get apiData "filters_applied";
                suggestions := get apiData "suggestions" |})
  | _ => Throw TypeError
  end).

(** [searchApi.search(repoId, query, options)], over the transport's [api.get];
    reading [options.mode] of a [null] throws before anything is sent. *)
Definition search (get_ : request -> completion value) (repoId : Z)
    (query : string) (options : value) : async SearchResult :=
  match options with
  | VNull => ([], Throw TypeError)
  | _ =>
      let r := search_request repoId query options in
      ([Http r],
       bind (get_ r) (fun response =>
       bind (getp response "data") transform_response))
  end.

End SearchClient.

(** ** lib/hooks/useCodeSearch.ts, page navigation, filters and mode *)
Module UseCodeSearchNav.
Import Js JsOps UseCodeSearch.

Definition setCurrentPage (p : value) (st : state) : state :=
  {| query := query st; results := results st; totalResults := totalResults st;
     isLoading := isLoading st; error := error st; latency := latency st;
     currentPage := p; mode := mode st; filters := filters st;
     perPage := perPage st; issued := issued st; in_flight := in_flight st |}.

Definition setFilters (f : value) (st : state) : state :=
  {| query := query st; results := results st; totalResults := totalResults st;
     isLoading := isLoading st; error := error st; latency := latency st;
     currentPage := currentPage st; mode := mode st; filters := f;
     perPage := perPage st; issued := issued st; in_flight := in_flight st |}.

Definition setMode (m : value) (st : state) : state :=
  {| query := query st; results := results st; totalResults := totalResults st;
     isLoading := isLoading st; error := error st; latency := latency st;
     currentPage := currentPage st; mode := m; filters := filters st;
     perPage := perPage st; issued := issued st; in_flight := in_flight st |}.

(** In each callback [search] is the function of the current render: it
    reads the state as it is before the updates the callback schedules. *)

(** [nextPage]; when [currentPage + 1] throws nothing is set. *)
Definition nextPage (repoId : Z) (st : state) : state :=
  match plus (currentPage st) (int 1) with
  | Throw _ => st
  | Return newPage =>
      setCurrentPage newPage
        (search repoId st (query st) (VObj [("page", newPage)]))
  end.

(** [prevPage]; [None] when [currentPage] is a string or an array that writes
    a number, whose comparison with 1 the model does not compute.  When the
    comparison throws nothing is set. *)
Definition prevPage (repoId : Z) (st : state) : option state :=
  match ToNumber (currentPage st) with
  | Throw _ => Some st
  | Return None => None
  | Return (Some n) =>
      if Num_ltb (Num 1 0) n then
        let newPage := VNum (Num_add n (Num_neg (Num 1 0))) in
        Some (setCurrentPage newPage
                (search repoId st (query st) (VObj [("page", newPage)])))
      else Some st
  end.

Definition goToPage (repoId : Z) (st : state) (page : value) : state :=
  setCurrentPage page (search repoId st (query st) (VObj [("page", page)])).

Definition updateFilters (repoId : Z) (st : state) (newFilters : value) : state :=
  setCurrentPage (int 1)
    (setFilters newFilters
       (search repoId st (query st)
          (VObj [("filters", newFilters); ("page", int 1)]))).

Definition updateMode (repoId : Z) (st : state) (newMode : value) : state :=
  setCurrentPage (int 1)
    (setMode newMode
       (search repoId st (query st)
          (VObj [("mode", newMode); ("page", int 1)]))).

End UseCodeSearchNav.

(** ** lib/hooks/useRepository.ts *)
Module UseRepository.
Import Js.

Record state : Type := {
  repository : value;
  isLoading : bool;
  error : value;
  isPolling : bool
}.

Definition initial : state :=
  {| repository := VNull; isLoading := true; error := VStr ""; isPolling := false |}.




End UseRepository.

(** ** Further notions used in the statements *)
Module Notions2.
Import Js Api.

(** The requests among the effects of a call. *)
Definition requests (t : trace) : trace := filter is_Http t.

Definition is_update (e : effect) : bool :=
  match e with
  | OnUpdate _ => true
  | _ => false
  end.

Definition is_wait (e : effect) : bool :=
  match e with
  | SetTimeout _ => true
  | _ => false
  end.

(** One round of polling that does not end it. *)
Definition round (id interval : Z) (status : value) : trace :=
  [Http (status_request id); OnUpdate status; SetTimeout interval].

(** The status of the job that the [n]-th status request returns, if it
    returns one. *)
Definition status_at (getById : status_source) (n : nat) : option value :=
  match getById n with
  | Return repo =>
      match getp repo "status" with
      | Return status => Some status
      | Throw _ => None
      end
  | Throw _ => None
  end.

(** The first [k] status requests succeed and report no terminal status. *)
Definition pending_until (getById : status_source) (k : nat) : Prop :=
  forall n, n < k ->
    exists status, status_at getById n = Some status /\ is_terminal status = false.

(** [onUpdate] returns on the statuses that the first [k] status requests
    report. *)
Definition returns_until (getById : status_source) (onUpdate : callback) (k : nat)
  : Prop :=
  forall n status,
    n < k -> status_at getById n = Some status -> onUpdate status = Return tt.

Fixpoint statuses (getById : status_source) (from k : nat) : list value :=
  match k with
  | O => []
  | S k' =>
      match status_at getById from with
      | Some status => status :: statuses getById (S from) k'
      | None => []
      end
  end.

(** No encoding of the list starts the string. *)
Definition no_leading (encs : list string) (s : string) : Prop :=
  find (fun e => startsWith s e) encs = None.

(** The request that [sendMessage] ends up posting for a question [q]. *)
Definition chat_request (id : Z) (q : string) (options : value) : request :=
  {| method := "POST";
     url := "/repos/" ++ Number_toString (Num id 0) ++ "/chat";
     body := VObj
       [ ("question", VStr (trim q));
         ("top_k", coalesce (get_opt options "top_k") (int 5));
         ("prompt_style", coalesce (get_opt options "prompt_style") (VStr "senior_dev"));
         ("include_sources", coalesce (get_opt options "include_sources") (VBool true));
         ("include_metadata",
          coalesce (get_opt options "include_metadata") (VBool true)) ] |}.

(** A wire result that [transformSearchResult] accepts: not [null], with a
    [file_id] that can be made a string. *)
Definition transformable (apiResult : value) : bool :=
  negb (nullish apiResult) && Notions.printable (get apiResult "file_id").

(** The parameter names that [searchApi.search] sets itself. *)
Definition reserved_params : list string := ["q"; "mode"; "page"; "per_page"].

(** The filters define none of those names (the fields of [SearchFilters]
    are [file], [lang], [branch], [symbolType], [includeTests] and
    [caseSensitive]; the indices of an array or a string are none of them). *)
Definition reserved_free (filters : value) : bool :=
  match filters with
  | VObj fs =>
      forallb (fun kv => negb (existsb (String.eqb (fst kv)) reserved_params)) fs
  | _ => true
  end.

(** The request that the hook's [search] issues for the trimmed query [q]
    and the options given, from the state of the current render. *)
Definition hook_request (repoId : Z) (st : UseCodeSearch.state) (q : string)
    (searchOptions : value) : request :=
  {| method := "GET";
     url := "/repos/" ++ Number_toString (Num repoId 0) ++ "/search";
     body :=
       UseCodeSearch.search_params q
         (or_else (get_opt searchOptions "mode") (UseCodeSearch.mode st))
         (or_else (get_opt searchOptions "page") (UseCodeSearch.currentPage st))
         (or_else (or_else (get_opt searchOptions "perPage") (UseCodeSearch.perPage st))
                  (int 20))
         (or_else (get_opt searchOptions "filters") (UseCodeSearch.filters st)) |}.

(** The requests of a search session that have not settled. *)
Definition outstanding (st : UseCodeSearch.state) : list nat :=
  map fst (UseCodeSearch.in_flight st).

(** The request that [chatStream] hands to [fetch] for a question [q]. *)
Definition stream_request (id : Z) (request : value) (q : string) : Api.request :=
  {| method := "POST";
     url := "/repos/" ++ Number_toString (Num id 0) ++ "/chat/stream";
     body := JSON_stringify (validatedRequest request (VStr (trim q))) |}.

(** A data line, as [handle_line] recognises it. *)
Definition is_data_line (l : string) : bool := startsWith l "data: ".

(** A job record as the status endpoint returns it. *)
Definition job (status : string) : value :=
  VObj [("id", int 1); ("status", VStr status)].

(** A job reported as [processing] once and as [failed] from then on. *)
Definition failing_job_source : status_source :=
  fun n => Return (job (match n with O => "processing" | S _ => "failed" end)).

(** A job that never leaves [processing]. *)
Definition stalled_source : status_source :=
  fun _ => Return (job "processing").

Definition network_error : value := VObj [("message", VStr "Network Error")].

(** A server that answers twice and is unreachable from then on. *)
Definition unreachable_source : status_source :=
  fun n => match n with
           | 0 | 1 => Return (job "processing")
           | _ => Throw network_error
           end.

(** A reply to [fetch] that refuses the stream. *)
Definition refusal : response :=
  {| ok := false; json := Return (VObj [("detail", VStr "Repository not found")]);
     reads := None |}.

(** A reply whose third read fails. *)
Definition broken_stream : response :=
  {| ok := true; json := Return VNull;
     reads := Some [Chunk (Notions.token_line ++ LF); Chunk (Notions.late_line ++ LF);
                    ReadError network_error; Chunk (Notions.done_line ++ LF)] |}.

(** A data line whose payload is cut short. *)
Definition bad_line : string := Notions.json_text "data: {'type':'token','content':".

(** A search hook on its third page. *)
Definition third_page : UseCodeSearch.state :=
  UseCodeSearch.initial (VStr "auth") (VObj [("page", int 3)]).

End Notions2.

(** * Properties *)

Import Js Notions.

(** ** Job status polling ([pollRepositoryStatus]) *)
Section Polling.
Import Api.
Variable getById : status_source.
Variable onUpdate : callback.
Variables id interval : Z.

Lemma poll_loop_unfold maxAttempts fuel attempt n :
  (attempt < maxAttempts)%Z ->
  poll_loop getById onUpdate id maxAttempts interval (S fuel) attempt n =
  match getById n with
  | Throw e => ([Http (status_request id)], Some (Throw e))
  | Return repo =>
      match getp repo "status" with
      | Throw e => ([Http (status_request id)], Some (Throw e))
      | Return status =>
          match onUpdate status with
          | Throw e => ([Http (status_request id); OnUpdate status], Some (Throw e))
          | Return _ =>
              if is_terminal status then
                ([Http (status_request id); OnUpdate status], Some (Return repo))
              else
                let '(t, c) :=
                  poll_loop getById onUpdate id maxAttempts interval fuel
                            (attempt + 1)%Z (S n) in
                (Http (status_request id) :: OnUpdate status
                   :: SetTimeout interval :: t, c)
          end
      end
  end.
Proof.
  intros Hlt. cbn [poll_loop].
  apply Z.ltb_lt in Hlt. rewrite Hlt. reflexivity.
Qed.

Lemma poll_loop_exhausted maxAttempts fuel attempt n :
  (maxAttempts <= attempt)%Z ->
  poll_loop getById onUpdate id maxAttempts interval fuel attempt n =
  ([], Some (Throw (Error "Timeout waiting for repository to be processed"))).
Proof.
  intros Hle. apply Z.ltb_ge in Hle.
  destruct fuel; cbn [poll_loop]; rewrite Hle; reflexivity.
Qed.

(** The fuel [pollRepositoryStatus] starts with is enough: the call settles. *)
Lemma poll_loop_settles maxAttempts fuel attempt n :
  (maxAttempts <= attempt + Z.of_nat fuel)%Z ->
  exists c,
    snd (poll_loop getById onUpdate id maxAttempts interval fuel attempt n) = Some c.
Proof.
  revert attempt n. induction fuel as [|fuel IH]; intros attempt n Hfuel.
  - rewrite poll_loop_exhausted by lia. eexists; reflexivity.
  - destruct (Z.lt_ge_cases attempt maxAttempts) as [Hlt|Hge].
    + rewrite poll_loop_unfold by assumption.
      destruct (getById n) as [repo|e]; [|eexists; reflexivity].
      destruct (getp repo "status") as [status|e]; [|eexists; reflexivity].
      destruct (onUpdate status) as [u|e]; [|eexists; reflexivity].
      destruct (is_terminal status); [eexists; reflexivity|].
      destruct (IH (attempt + 1)%Z (S n)) as [c Hc]; [lia|].
      destruct (poll_loop getById onUpdate id maxAttempts interval fuel
                  (attempt + 1) (S n)) as [t c'].
      exists c. exact Hc.
    + rewrite poll_loop_exhausted by assumption. eexists; reflexivity.
Qed.

Lemma pollRepositoryStatus_settles maxAttempts :
  exists c,
    snd (pollRepositoryStatus getById onUpdate id maxAttempts interval) = Some c.
Proof.
  unfold pollRepositoryStatus. apply poll_loop_settles. lia.
Qed.

(** Nothing follows the update that reports a terminal status: no wait, no
    further status request. *)
Lemma poll_loop_stops_at_terminal maxAttempts fuel attempt n pre status post :
  fst (poll_loop getById onUpdate id maxAttempts interval fuel attempt n)
  = (pre ++ OnUpdate status :: post)%list ->
  is_terminal status = true ->
  post = [].
Proof.
  revert attempt n pre. induction fuel as [|fuel IH]; intros attempt n pre Heq Hterm.
  - cbn [poll_loop] in Heq. destruct (attempt <? maxAttempts)%Z; cbn in Heq;
      destruct pre; discriminate.
  - destruct (Z.lt_ge_cases attempt maxAttempts) as [Hlt|Hge].
    + rewrite poll_loop_unfold in Heq by assumption.
      destruct (getById n) as [repo|e].
      2:{ cbn in Heq. destruct pre as [|? [|]]; discriminate. }
      destruct (getp repo "status") as [st|e].
      2:{ cbn in Heq. destruct pre as [|? [|]]; discriminate. }
      destruct (onUpdate st) as [u|e].
      2:{ cbn in Heq. destruct pre as [|x [|y [|]]]; try discriminate.
          inversion Heq; subst. reflexivity. }
      destruct (is_terminal st) eqn:Hst.
      * cbn in Heq. destruct pre as [|x [|y [|]]]; try discriminate.
        inversion Heq; subst. reflexivity.
      * specialize (IH (attempt + 1)%Z (S n)).
        destruct (poll_loop getById onUpdate id maxAttempts interval fuel
                    (attempt + 1) (S n)) as [t c].
        cbn in Heq.
        destruct pre as [|x [|y [|z pre']]]; try discriminate.
        -- inversion Heq; subst. congruence.
        -- inversion Heq; subst. apply (IH pre'); [reflexivity | assumption].
    + rewrite poll_loop_exhausted in Heq by assumption. cbn in Heq.
      destruct pre; discriminate.
Qed.

Ltac not_terminal := cbn [is_terminal String.eqb Ascii.eqb Bool.eqb orb].

(** C6.  With at least four attempts allowed and an [onUpdate] that returns
    on these statuses, a job whose four successive
    status fetches report pending, running, running and completed resolves with
    the completed job after exactly four status requests; each fetch is followed
    by [onUpdate] with the status just fetched, before the wait; nothing is
    requested, and nothing else happens, after the terminal status. *)
Theorem poll_pending_running_running_completed
    (maxAttempts : Z) (r0 r1 r2 r3 : value) :
  (4 <= maxAttempts)%Z ->
  (forall status, In status [VStr "pending"; VStr "running"; VStr "completed"] ->
                  onUpdate status = Return tt) ->
  getById 0 = Return r0 -> get r0 "status" = VStr "pending" ->
  getById 1 = Return r1 -> get r1 "status" = VStr "running" ->
  getById 2 = Return r2 -> get r2 "status" = VStr "running" ->
  getById 3 = Return r3 -> get r3 "status" = VStr "completed" ->
  pollRepositoryStatus getById onUpdate id maxAttempts interval =
  ([ Http (status_request id); OnUpdate (VStr "pending"); SetTimeout interval;
     Http (status_request id); OnUpdate (VStr "running"); SetTimeout interval;
     Http (status_request id); OnUpdate (VStr "running"); SetTimeout interval;
     Http (status_request id); OnUpdate (VStr "completed") ],
   Some (Return r3))
  /\ List.length (filter is_Http
                    (fst (pollRepositoryStatus getById onUpdate id maxAttempts
                            interval))) = 4
  /\ forall pre status post,
       fst (pollRepositoryStatus getById onUpdate id maxAttempts interval)
       = (pre ++ OnUpdate status :: post)%list ->
       is_terminal status = true -> post = [].
Proof.
  intros Hmax Hret G0 S0 G1 S1 G2 S2 G3 S3.
  assert (Hget : forall r s, get r "status" = VStr s -> getp r "status" = Return (VStr s)).
  { intros r s Hr. unfold getp. destruct r; try discriminate. cbn in *. congruence. }
  assert (Hp : onUpdate (VStr "pending") = Return tt) by (apply Hret; cbn; tauto).
  assert (Hr : onUpdate (VStr "running") = Return tt) by (apply Hret; cbn; tauto).
  assert (Hc : onUpdate (VStr "completed") = Return tt) by (apply Hret; cbn; tauto).
  assert (Hrun : pollRepositoryStatus getById onUpdate id maxAttempts interval =
    ([ Http (status_request id); OnUpdate (VStr "pending"); SetTimeout interval;
       Http (status_request id); OnUpdate (VStr "running"); SetTimeout interval;
       Http (status_request id); OnUpdate (VStr "running"); SetTimeout interval;
       Http (status_request id); OnUpdate (VStr "completed") ],
     Some (Return r3))).
  { unfold pollRepositoryStatus.
    destruct (Z.to_nat maxAttempts) as [|[|[|[|fuel]]]] eqn:Hfuel; try lia.
    rewrite poll_loop_unfold by lia. rewrite G0, (Hget _ _ S0), Hp. not_terminal.
    rewrite poll_loop_unfold by lia. rewrite G1, (Hget _ _ S1), Hr. not_terminal.
    rewrite poll_loop_unfold by lia. rewrite G2, (Hget _ _ S2), Hr. not_terminal.
    rewrite poll_loop_unfold by lia. rewrite G3, (Hget _ _ S3), Hc. reflexivity. }
  split; [exact Hrun|]. split.
  - rewrite Hrun. reflexivity.
  - intros pre status post Heq Hterm.
    eapply poll_loop_stops_at_terminal; eassumption.
Qed.

(** C10.  With [maxAttempts] zero or negative the loop body never runs: the
    call rejects with the timeout error, no status request is issued and
    [onUpdate] is never invoked. *)
Theorem poll_nonpositive_attempts_times_out (maxAttempts : Z) :
  (maxAttempts <= 0)%Z ->
  pollRepositoryStatus getById onUpdate id maxAttempts interval =
  ([], Some (Throw (Error "Timeout waiting for repository to be processed"))).
Proof.
  intros Hle. unfold pollRepositoryStatus. apply poll_loop_exhausted. exact Hle.
Qed.

End Polling.


Lemma poll_pending_running_running_completed_witness :
  Api.pollRepositoryStatus scenario_source home_onUpdate 1 120 3000 =
  ([ Api.Http (Api.status_request 1); Api.OnUpdate (VStr "pending"); Api.SetTimeout 3000;
     Api.Http (Api.status_request 1); Api.OnUpdate (VStr "running"); Api.SetTimeout 3000;
     Api.Http (Api.status_request 1); Api.OnUpdate (VStr "running"); Api.SetTimeout 3000;
     Api.Http (Api.status_request 1); Api.OnUpdate (VStr "completed") ],
   Some (Return (VObj [("id", int 1); ("status", VStr "completed")]))).
Proof.
  apply (poll_pending_running_running_completed scenario_source home_onUpdate
           1 3000 120
           (VObj [("id", int 1); ("status", VStr "pending")])
           (VObj [("id", int 1); ("status", VStr "running")])
           (VObj [("id", int 1); ("status", VStr "running")])
           (VObj [("id", int 1); ("status", VStr "completed")]));
    try solve [reflexivity | lia].
  intros status [<- | [<- | [<- | []]]]; reflexivity.
Defined.

Lemma poll_nonpositive_attempts_times_out_witness :
  Api.pollRepositoryStatus scenario_source home_onUpdate 1 0 3000 =
  ([], Some (Throw (Error "Timeout waiting for repository to be processed"))).
Proof.
  apply (poll_nonpositive_attempts_times_out scenario_source home_onUpdate 1 3000 0).
  lia.
Defined.

(** ** Error normalisation ([extractErrorMessage]) *)
Section ErrorMessages.
Import ErrorHandler.


Lemma truthy_VStr s : truthy (VStr s) = true <-> s <> "".
Proof.
  cbn. rewrite negb_true_iff. apply String.eqb_neq.
Qed.

Lemma truthy_text v :
  text_or_falsy v = true -> truthy v = true -> yields_message (Return v).
Proof.
  intros Htext Htruthy. destruct v as [| |b|n|s|l|ps]; cbn in Htext;
    try discriminate; try (cbn in Htruthy; rewrite Htruthy in Htext; discriminate).
  exists s. split; [reflexivity | now apply truthy_VStr].
Qed.

Lemma append_nonempty_r (a b : string) : b <> "" -> (a ++ b) <> "".
Proof.
  intros Hb. destruct a; cbn; [assumption | discriminate].
Qed.

Lemma stringify_object v :
  truthy v = true -> typeof v = "object" -> yields_message (Return (JSON_stringify v)).
Proof.
  intros Htruthy Htype.
  destruct v; try discriminate; unfold JSON_stringify; cbn [serialize];
    eexists; (split; [reflexivity | discriminate]).
Qed.

Lemma value_induction (P : value -> Prop) :
  P VUndef -> P VNull -> (forall b, P (VBool b)) -> (forall n, P (VNum n)) ->
  (forall s, P (VStr s)) ->
  (forall l, Forall P l -> P (VArr l)) ->
  (forall ps, P (VObj ps)) ->
  forall v, P v.
Proof.
  intros HU HN HB HNum HS HA HO.
  fix IH 1.
  intros [| |b|n|s|l|ps];
    [exact HU | exact HN | apply HB | apply HNum | apply HS | | apply HO].
  apply HA. induction l as [|x l IHl]; constructor; [apply IH | exact IHl].
Qed.

Lemma printable_VArr l : printable (VArr l) = forallb printable l.
Proof.
  cbn [printable]. induction l as [|x l IH]; [reflexivity|].
  cbn [forallb]. now rewrite <- IH.
Qed.

Lemma ToString_VArr l :
  ToString (VArr l) = bind (join_elements l) (fun ts => Return (join "," ts)).
Proof.
  reflexivity.
Qed.

Lemma join_elements_decided l :
  Forall ToString_decided l ->
  (forallb printable l = true -> exists ts, join_elements l = Return ts)
  /\ (forallb printable l = false -> join_elements l = Throw TypeError).
Proof.
  induction 1 as [|x l [Hx Hx'] Hl [IH IH']]; cbn [forallb join_elements].
  - split; [now exists [] | discriminate].
  - destruct (nullish x) eqn:Hnull.
    + assert (Hp : printable x = true) by (destruct x; try discriminate; reflexivity).
      rewrite Hp. cbn [andb bind]. split.
      * intros Hall. destruct (IH Hall) as [ts ->]. now eexists.
      * intros Hall. now rewrite (IH' Hall).
    + destruct (printable x) eqn:Hp; cbn [andb].
      * destruct (Hx eq_refl) as [t ->]. cbn [bind]. split.
        -- intros Hall. destruct (IH Hall) as [ts ->]. now eexists.
        -- intros Hall. now rewrite (IH' Hall).
      * rewrite (Hx' eq_refl). split; [discriminate | reflexivity].
Qed.

Lemma ToString_is_decided v : ToString_decided v.
Proof.
  induction v as [| |b|n|s|l IH|ps] using value_induction;
    try (split; [intros _; try destruct b; now eexists | discriminate]).
  - unfold ToString_decided. rewrite ToString_VArr, printable_VArr.
    destruct (join_elements_decided l IH) as [H1 H2]. split.
    + intros Hall. destruct (H1 Hall) as [ts ->]. now eexists.
    + intros Hall. now rewrite (H2 Hall).
  - unfold ToString_decided. cbn [printable ToString].
    destruct (has_own "toString" ps); split;
      solve [discriminate | reflexivity | now eexists].
Qed.

Lemma ToString_returns v : printable v = true -> exists t, ToString v = Return t.
Proof. apply ToString_is_decided. Qed.

Lemma ToString_throws v : printable v = false -> ToString v = Throw TypeError.
Proof. apply ToString_is_decided. Qed.

Lemma join_elements_returns l :
  forallb printable l = true -> exists ts, join_elements l = Return ts.
Proof.
  apply join_elements_decided, Forall_forall. intros x _. apply ToString_is_decided.
Qed.

Lemma join_elements_throws l :
  forallb printable l = false -> join_elements l = Throw TypeError.
Proof.
  apply join_elements_decided, Forall_forall. intros x _. apply ToString_is_decided.
Qed.

Lemma format_validation_error_ok e :
  entry_ok e = true ->
  exists part, format_validation_error e = Return part /\ part <> "".
Proof.
  unfold entry_ok, format_validation_error, getp. intros Hok.
  apply andb_prop in Hok as [Hok Hmsg]. apply andb_prop in Hok as [Hnull Hloc].
  apply negb_true_iff in Hnull. rewrite Hnull. cbn [bind].
  destruct (ToString_returns _ Hmsg) as [m Hm].
  destruct (get e "loc") as [| |b|n|s|l|ps]; try discriminate.
  - cbn [loc_path bind or_else truthy ToString]. rewrite Hm. cbn [bind].
    eexists; split; [reflexivity|]. apply append_nonempty_r; discriminate.
  - cbn [loc_path bind or_else truthy ToString]. rewrite Hm. cbn [bind].
    eexists; split; [reflexivity|]. apply append_nonempty_r; discriminate.
  - cbn [loc_path]. unfold Array_join.
    destruct (join_elements_returns _ Hloc) as [ts ->]. cbn [bind].
    unfold or_else. destruct (truthy (VStr (join "." ts)));
      cbn [ToString bind]; rewrite Hm; cbn [bind];
      (eexists; split; [reflexivity|]); apply append_nonempty_r; discriminate.
Qed.

Lemma format_validation_error_throws e :
  entry_ok e = false -> format_validation_error e = Throw TypeError.
Proof.
  unfold entry_ok, format_validation_error, getp. intros Hbad.
  destruct (nullish e); [reflexivity|]. cbn [negb andb bind] in *.
  destruct (get e "loc") as [| |b|n|s|l|ps]; try reflexivity.
  - cbn [loc_path bind or_else truthy ToString andb] in *.
    now rewrite (ToString_throws _ Hbad).
  - cbn [loc_path bind or_else truthy ToString andb] in *.
    now rewrite (ToString_throws _ Hbad).
  - cbn [loc_path]. unfold Array_join.
    destruct (forallb printable (tl l)) eqn:Hloc.
    + destruct (join_elements_returns _ Hloc) as [ts ->]. cbn [bind andb] in *.
      unfold or_else. destruct (truthy (VStr (join "." ts)));
        cbn [ToString bind]; now rewrite (ToString_throws _ Hbad).
    + now rewrite (join_elements_throws _ Hloc).
Qed.

Lemma Array_map_format_ok entries :
  forallb entry_ok entries = true ->
  exists parts,
    Array_map format_validation_error entries = Return parts
    /\ List.length parts = List.length entries
    /\ Forall (fun part => part <> "") parts.
Proof.
  induction entries as [|e entries IH]; intros Hall.
  - exists []. repeat split. constructor.
  - cbn in Hall. apply andb_prop in Hall as [He Hall].
    destruct (format_validation_error_ok e He) as [part [Hpart Hne]].
    destruct (IH Hall) as [parts [Hparts [Hlen Hnes]]].
    exists (part :: parts). cbn [Array_map]. rewrite Hpart. cbn [bind].
    rewrite Hparts. cbn. repeat split; [congruence | now constructor].
Qed.

Lemma join_nonempty sep part parts :
  part <> "" -> join sep (part :: parts) <> "".
Proof.
  intros Hne. destruct parts; cbn [join]; [assumption|].
  destruct part; [contradiction | discriminate].
Qed.

Lemma from_response_data_ok data result :
  truthy data = true ->
  detail_ok (get data "detail") = true ->
  text_or_falsy (get data "message") = true ->
  from_response_data data = Some result ->
  yields_message result.
Proof.
  intros Hdata Hdetail Hmessage. unfold from_response_data.
  destruct (get data "detail") as [| |b|n|d|entries|props] eqn:Edetail.
  - (* undefined *)
    cbn. destruct (truthy (get data "message")) eqn:Hm.
    + intros [= <-]. now apply truthy_text.
    + destruct (typeof data =? "object") eqn:Ht; [|discriminate].
      intros [= <-]. apply stringify_object; [assumption | now apply String.eqb_eq].
  - (* null *)
    cbn. destruct (truthy (get data "message")) eqn:Hm.
    + intros [= <-]. now apply truthy_text.
    + destruct (typeof data =? "object") eqn:Ht; [|discriminate].
      intros [= <-]. apply stringify_object; [assumption | now apply String.eqb_eq].
  - (* boolean *)
    cbn. rewrite andb_false_r.
    destruct (truthy (get data "message")) eqn:Hm.
    + intros [= <-]. now apply truthy_text.
    + destruct (typeof data =? "object") eqn:Ht; [|discriminate].
      intros [= <-]. apply stringify_object; [assumption | now apply String.eqb_eq].
  - (* number *)
    cbn. rewrite andb_false_r.
    destruct (truthy (get data "message")) eqn:Hm.
    + intros [= <-]. now apply truthy_text.
    + destruct (typeof data =? "object") eqn:Ht; [|discriminate].
      intros [= <-]. apply stringify_object; [assumption | now apply String.eqb_eq].
  - (* string *)
    cbn. intros [= <-]. exists d. split; [reflexivity|].
    cbn in Hdetail. apply negb_true_iff in Hdetail. now apply String.eqb_neq.
  - (* validation array *)
    intros [= <-]. cbn in Hdetail.
    destruct entries as [|e entries]; [discriminate|].
    destruct (Array_map_format_ok _ Hdetail) as [parts [Hparts [Hlen Hnes]]].
    rewrite Hparts. cbn [bind].
    destruct parts as [|part parts]; [discriminate|].
    eexists. split; [reflexivity|]. apply join_nonempty. now inversion Hnes.
  - (* object *)
    change (typeof (VObj props) =? "string") with false.
    change (truthy (VObj props) && (typeof (VObj props) =? "object")) with true.
    cbv iota. intros [= <-]. cbn [detail_ok] in Hdetail.
    apply andb_prop in Hdetail as [Hm Hmsg].
    unfold or_else. cbn [get] in *.
    destruct (truthy (lookup "message" props)) eqn:Htm.
    + rewrite Htm. now apply truthy_text.
    + cbn [orb] in Hmsg.
      destruct (truthy (lookup "msg" props)) eqn:Htmsg.
      * now apply truthy_text.
      * now apply stringify_object.
Qed.

(** The handler's domain includes the falsy values and every string. *)
Lemma error_ok_primitives (s : string) :
  error_ok VNull = true /\ error_ok VUndef = true /\ error_ok (VStr s) = true.
Proof.
  repeat split.
Qed.

(** C5, as the code has it.  On the error shapes the handler is written for
    ([error_ok]: a validation array that is not empty, whose entries are not
    [null], carry an array or no [loc], and have a [msg] and [loc] elements
    that can be made strings; a [detail] string that is not
    empty; message fields that are strings when they are truthy),
    [extractErrorMessage] returns, without throwing, a string that is not
    empty. *)
Theorem extractErrorMessage_yields_message (error : value) :
  error_ok error = true ->
  yields_message (extractErrorMessage error).
Proof.
  unfold error_ok, extractErrorMessage. intros Hok.
  apply andb_prop in Hok as [Hok Hmsg]. apply andb_prop in Hok as [Hdata Hmessage].
  destruct (truthy error) eqn:Htruthy; cbn [negb].
  2:{ eexists. split; [reflexivity | discriminate]. }
  destruct (typeof error =? "string") eqn:Htype.
  { destruct error; try discriminate. exists s. split; [reflexivity|].
    now apply truthy_VStr. }
  set (data := get_opt (get error "response") "data") in *.
  assert (Hrest : yields_message
            (if truthy (get error "message") then Return (get error "message")
             else if truthy (get error "msg") then Return (get error "msg")
             else Return (VStr "An unexpected error occurred"))).
  { destruct (truthy (get error "message")) eqn:Hm; [now apply truthy_text|].
    cbn [orb] in Hmsg.
    destruct (truthy (get error "msg")) eqn:Hm'; [now apply truthy_text|].
    eexists. split; [reflexivity | discriminate]. }
  destruct (truthy data) eqn:Htd; [|exact Hrest].
  apply andb_prop in Hdata as [Hdetail Hdm].
  destruct (from_response_data data) as [result|] eqn:Hfrom; [|exact Hrest].
  apply (from_response_data_ok data result); assumption.
Qed.


Lemma extractErrorMessage_yields_message_witness :
  error_ok validation_failure = true
  /\ yields_message (extractErrorMessage validation_failure).
Proof.
  split; [reflexivity|].
  apply (extractErrorMessage_yields_message validation_failure). reflexivity.
Defined.

Example extractErrorMessage_validation_failure :
  extractErrorMessage validation_failure
  = Return (VStr "items.0.name: Field required; field: Invalid").
Proof. reflexivity. Qed.


(** C5 fails as stated: the handler returns the empty string for an empty
    validation array. *)
Lemma extractErrorMessage_empty_result :
  extractErrorMessage empty_validation_failure = Return (VStr "")
  /\ ~ yields_message (extractErrorMessage empty_validation_failure).
Proof.
  split; [reflexivity|].
  intros [s [Heq Hne]]. cbn in Heq. injection Heq as <-. now apply Hne.
Qed.

(** Further ways out of the claim: an empty [detail] string comes back as it
    is, a [null] entry of the validation array makes the handler throw, so
    does a [msg] that cannot be made a string, and a
    message field that is not a string comes back as it is. *)
Lemma extractErrorMessage_empty_detail :
  extractErrorMessage
    (VObj [("response", VObj [("data", VObj [("detail", VStr "")])])])
  = Return (VStr "").
Proof. reflexivity. Qed.

Lemma extractErrorMessage_throws :
  extractErrorMessage
    (VObj [("response", VObj [("data", VObj [("detail", VArr [VNull])])])])
  = Throw TypeError.
Proof. reflexivity. Qed.

Lemma extractErrorMessage_unprintable_msg :
  extractErrorMessage
    (VObj [("response",
            VObj [("data",
                   VObj [("detail",
                          VArr [VObj [("loc", VArr [VStr "body"; VStr "name"]);
                                      ("msg", VObj [("toString", int 0)])]])])])])
  = Throw TypeError.
Proof. reflexivity. Qed.

Lemma extractErrorMessage_not_a_string :
  extractErrorMessage (VObj [("message", int 42)]) = Return (int 42).
Proof. reflexivity. Qed.

(** [formatErrorForDisplay] is where an empty message is replaced. *)
Lemma formatErrorForDisplay_empty_result :
  formatErrorForDisplay empty_validation_failure VUndef
  = Return (VStr "An error occurred").
Proof. reflexivity. Qed.

(** C9, as the code has it.  A string that is not empty is returned
    unchanged; the empty string is falsy and, like [null] and [undefined],
    yields the generic message. *)
Theorem extractErrorMessage_string (s : string) :
  extractErrorMessage (VStr s)
  = Return (VStr (if s =? "" then "An unknown error occurred" else s))
  /\ extractErrorMessage VNull = Return (VStr "An unknown error occurred")
  /\ extractErrorMessage VUndef = Return (VStr "An unknown error occurred").
Proof.
  repeat split. unfold extractErrorMessage. cbn.
  destruct (s =? ""); reflexivity.
Qed.

(** C9 fails as stated: the empty string is not returned as it is. *)
Lemma extractErrorMessage_empty_string :
  extractErrorMessage (VStr "") = Return (VStr "An unknown error occurred")
  /\ extractErrorMessage (VStr "") <> Return (VStr "").
Proof.
  split; [reflexivity | discriminate].
Qed.

End ErrorMessages.

(** ** Validation of the question ([chat], [chatStream], [sendMessage]) *)
Section Validation.
Import Api.

Lemma skip_app (e q : string) : skip (length e) (e ++ q) = q.
Proof.
  induction e as [|a e IH]; [reflexivity | exact IH].
Qed.

Lemma length_app (a b : string) : length (a ++ b) = length a + length b.
Proof.
  induction a as [|c a IH]; cbn; [reflexivity | now rewrite IH].
Qed.

Lemma ws_encoding_found e q :
  In e ws_encodings ->
  find (fun e' => startsWith (e ++ q) e') ws_encodings = Some e.
Proof.
  intros Hin. cbn in Hin.
  repeat (destruct Hin as [<- | Hin]; [reflexivity|]). contradiction.
Qed.

Lemma ws_encoding_nonempty e : In e ws_encodings -> 1 <= length e.
Proof.
  intros Hin. cbn in Hin.
  repeat (destruct Hin as [<- | Hin]; [cbn; lia|]). contradiction.
Qed.

Lemma drop_leading_whitespace l :
  Forall (fun e => In e ws_encodings) l ->
  forall fuel, List.length l <= fuel ->
  drop_leading ws_encodings fuel (fold_right append "" l) = "".
Proof.
  induction 1 as [|e l He Hl IH]; intros fuel Hfuel.
  - destruct fuel; reflexivity.
  - destruct fuel as [|fuel]; [cbn in Hfuel; lia|].
    cbn [fold_right drop_leading]. rewrite (ws_encoding_found e _ He).
    rewrite skip_app. apply IH. cbn in Hfuel. lia.
Qed.

Lemma whitespace_length l :
  Forall (fun e => In e ws_encodings) l ->
  List.length l <= length (fold_right append "" l).
Proof.
  induction 1 as [|e l He Hl IH]; [cbn; lia|].
  cbn [fold_right List.length]. rewrite length_app.
  pose proof (ws_encoding_nonempty e He). lia.
Qed.

(** [trim] leaves nothing of a text made of white space. *)
Lemma trim_whitespace_only q : whitespace_only q -> trim q = "".
Proof.
  intros [l [Hl ->]]. unfold trim, trimStart.
  rewrite drop_leading_whitespace; [reflexivity | assumption |].
  now apply whitespace_length.
Qed.

(** C8.  An empty or white-space-only question is rejected by [chat], by
    [chatStream] and by the hook's [sendMessage] with a validation error, and
    none of them hands a request to the transport. *)
Theorem blank_question_is_rejected_before_any_request
    (post : request -> completion value) (fetch : request -> completion response)
    (id : Z) (request options : value) (q : string) :
  whitespace_only q ->
  get request "question" = VStr q ->
  chat post id request
  = ([], Throw (Error "Question is required and must be a non-empty string"))
  /\ chatStream fetch id request = ([], Throw (Error "Question is required"))
  /\ (exists message,
        UseChat.sendMessage post id (VStr q) options
        = ([ConsoleError; SetError (VStr message); SetIsLoading false], Return VNull))
  /\ (exists message, createChatRequest (VStr q) options = Throw (Error message)).
Proof.
  intros Hblank Hq. apply trim_whitespace_only in Hblank.
  destruct request as [| |b|n|s|l|props]; try discriminate.
  repeat split.
  - unfold chat. change (truthy (VObj props)) with true.
    change (typeof (VObj props) =? "object") with true. cbv iota. cbn [negb orb].
    rewrite Hq, Hblank. cbn [truthy String.eqb negb]. rewrite orb_true_r. reflexivity.
  - unfold chatStream, getp. cbn [nullish]. rewrite Hq.
    destruct (truthy (VStr q)); cbn [negb]; [|reflexivity].
    cbn [String_trim]. rewrite Hblank. reflexivity.
  - unfold UseChat.sendMessage.
    change (typeof (VStr q) =? "string") with true. cbn [negb]. rewrite orb_false_r.
    destruct (truthy (VStr q)); cbn [negb].
    + cbn [String_trim]. rewrite Hblank. cbn. eexists; reflexivity.
    + cbn. eexists; reflexivity.
  - unfold createChatRequest.
    change (typeof (VStr q) =? "string") with true. cbn [negb]. rewrite orb_false_r.
    destruct (truthy (VStr q)); cbn [negb].
    + cbn [String_trim bind]. rewrite Hblank. cbn. eexists; reflexivity.
    + eexists; reflexivity.
Qed.

End Validation.

Lemma blank_question_is_rejected_before_any_request_witness :
  let request := VObj [("question", VStr "   "); ("top_k", int 3)] in
  let post := fun _ : Api.request => Return (VObj [("data", VObj [])]) in
  let fetch := fun _ : Api.request =>
                 Return {| Api.ok := true; Api.json := Return VNull;
                           Api.reads := Some [] |} in
  Api.chat post 7 request
  = ([], Throw (Error "Question is required and must be a non-empty string"))
  /\ Api.chatStream fetch 7 request = ([], Throw (Error "Question is required"))
  /\ (exists message,
        UseChat.sendMessage post 7 (VStr "   ") VUndef
        = ([Api.ConsoleError; Api.SetError (VStr message); Api.SetIsLoading false],
           Return VNull))
  /\ (exists message, Api.createChatRequest (VStr "   ") VUndef = Throw (Error message)).
Proof.
  intros request post fetch.
  apply (blank_question_is_rejected_before_any_request post fetch 7 request VUndef "   ").
  - exists [" "; " "; " "]. split; [|reflexivity].
    repeat constructor; cbn; tauto.
  - reflexivity.
Defined.

(** A question with text is sent, trimmed. *)
Example chat_sends_trimmed_question :
  fst (Api.chat (fun _ => Return (VObj [("data", VObj [])])) 7
         (VObj [("question", VStr "  why?  ")]))
  = [Api.Http {| Api.method := "POST"; Api.url := "/repos/7/chat";
                 Api.body := VObj [("question", VStr "why?"); ("top_k", int 5);
                                   ("prompt_style", VStr "senior_dev");
                                   ("include_sources", VBool true);
                                   ("include_metadata", VBool true)] |}].
Proof. reflexivity. Qed.

(** ** Normalisation of search results ([transformSearchResult]) *)
Section Normalisation.
Import SearchApi.










Lemma isNaN_number n : isNaN (VNum n) = Return (is_NaN n).
Proof. reflexivity. Qed.

(** The two ways out of [normalize_file_id]: a [fileId] that is not [NaN], or
    the [TypeError] of a [file_id] that cannot be printed. *)
Lemma normalize_file_id_decided file_id :
  (printable file_id = true ->
   exists fileId, normalize_file_id file_id = Return fileId /\ fileId <> VNum NaN)
  /\ (printable file_id = false -> normalize_file_id file_id = Throw TypeError).
Proof.
  unfold normalize_file_id.
  destruct file_id as [| |b|n|s|l|ps].
  1-5: split; [intros _ | discriminate].
  - eexists; split; [reflexivity | discriminate].
  - eexists; split; [reflexivity | discriminate].
  - eexists; split; [reflexivity | discriminate].
  - cbn [isNaN bind]. destruct n; (eexists; split; [reflexivity | discriminate]).
  - cbn [isNaN bind]. destruct (parseInt10 s);
      (eexists; split; [reflexivity | discriminate]).
  - split; intros Hp; cbn [isNaN].
    + destruct (ToString_returns _ Hp) as [t ->]. cbn [bind nullish orb].
      destruct (negb (numeric_string t));
        (eexists; split; [reflexivity | discriminate]).
    + now rewrite (ToString_throws _ Hp).
  - split; intros Hp; cbn [isNaN].
    + destruct (ToString_returns _ Hp) as [t ->]. cbn [bind nullish orb].
      destruct (negb (numeric_string t));
        (eexists; split; [reflexivity | discriminate]).
    + now rewrite (ToString_throws _ Hp).
Qed.





Example transformSearchResult_missing_file_id :
  fileId_of (transformSearchResult (VObj [("file_path", VStr "src/a.ts")]))
  = Return sentinel.
Proof. reflexivity. Qed.

Example transformSearchResult_invalid_file_id :
  fileId_of (transformSearchResult (VObj [("file_id", VStr "abc")])) = Return sentinel.
Proof. reflexivity. Qed.

(** Beyond [2 ^ 53] the digits are rounded to the nearest double, and past
    the largest double to infinity. *)
Example transformSearchResult_rounded_file_id :
  fileId_of (transformSearchResult (VObj [("file_id", VStr "9007199254740993")]))
  = Return (int 9007199254740992).
Proof. vm_compute. reflexivity. Qed.

Example transformSearchResult_huge_file_id :
  fileId_of (transformSearchResult
               (VObj [("file_id", VStr (repeat_text "9" 401))]))
  = Return (VNum (Infinity false)).
Proof. vm_compute. reflexivity. Qed.

(** [isNaN] cannot convert an object that has a [toString] property of its
    own; an array is kept when the text it prints as is a number. *)
Example transformSearchResult_unprintable_file_id :
  fileId_of (transformSearchResult
               (VObj [("file_id", VObj [("toString", VStr "1")])]))
  = Throw TypeError.
Proof. reflexivity. Qed.

Example transformSearchResult_array_file_id :
  fileId_of (transformSearchResult (VObj [("file_id", VArr [VStr "12"])]))
  = Return (VArr [VStr "12"])
  /\ fileId_of (transformSearchResult (VObj [("file_id", VObj [])]))
     = Return sentinel.
Proof. split; reflexivity. Qed.

End Normalisation.

(** ** The search session ([useCodeSearch]) *)
Section SearchSession.
Import UseCodeSearch.
Variable repoId : Z.

(** A query with text issues a request, which joins those in flight. *)
Lemma search_issues st q searchOptions :
  trim q <> "" ->
  exists r,
    in_flight (search repoId st (VStr q) searchOptions)
    = (in_flight st ++ [(issued st, r)])%list
    /\ issued (search repoId st (VStr q) searchOptions) = S (issued st).
Proof.
  intros Hq. unfold search.
  change (typeof (VStr q) =? "string") with true. cbv iota.
  apply truthy_VStr in Hq. rewrite Hq. cbn [negb].
  eexists. split; reflexivity.
Qed.

(** There is no generation check: the reply to any request in flight is
    applied when it arrives. *)
Lemma resolved_response_is_applied st n apiData :
  is_in_flight n st = true ->
  nullish apiData = false ->
  visible (step repoId st (Resolved n apiData)) = shown apiData
  /\ in_flight (step repoId st (Resolved n apiData)) = settle n st.
Proof.
  intros Hn Hresp. cbn [step]. rewrite Hn, Hresp. split; reflexivity.
Qed.

Lemma is_in_flight_iff n st :
  is_in_flight n st = true <-> exists r, In (n, r) (in_flight st).
Proof.
  unfold is_in_flight. rewrite existsb_exists. split.
  - intros [[m r] [Hin Heq]]. cbn in Heq. apply Nat.eqb_eq in Heq. subst.
    now exists r.
  - intros [r Hin]. exists (n, r). split; [assumption | apply Nat.eqb_refl].
Qed.

(** C1, as the code has it.  Query A is executed, then query B before A's
    reply arrives; B's reply arrives and is shown; then A's reply arrives.
    The results and the total count on display are then those read off A's
    reply, the last to arrive: executions carry no generation number and a
    late reply is not discarded.  What is displayed is what the reply holds
    under [results] and [totalResults], as it is. *)
Theorem late_response_overwrites
    (st0 : state) (qA qB : string) (optsA optsB dataA dataB : value) :
  trim qA <> "" -> trim qB <> "" ->
  nullish dataA = false -> nullish dataB = false ->
  let a := issued st0 in
  let b := S (issued st0) in
  visible (run repoId st0 [Search (VStr qA) optsA; Search (VStr qB) optsB;
                           Resolved b dataB])
  = shown dataB
  /\ visible (run repoId st0 [Search (VStr qA) optsA; Search (VStr qB) optsB;
                              Resolved b dataB; Resolved a dataA])
     = shown dataA.
Proof.
  intros HqA HqB HA HB a b. unfold run. cbn [fold_left].
  destruct (search_issues st0 qA optsA HqA) as [rA [HflA HissA]].
  change (step repoId st0 (Search (VStr qA) optsA))
    with (search repoId st0 (VStr qA) optsA).
  set (st1 := search repoId st0 (VStr qA) optsA) in *.
  destruct (search_issues st1 qB optsB HqB) as [rB [HflB HissB]].
  change (step repoId st1 (Search (VStr qB) optsB))
    with (search repoId st1 (VStr qB) optsB).
  set (st2 := search repoId st1 (VStr qB) optsB) in *.
  assert (Hb : is_in_flight b st2 = true).
  { apply is_in_flight_iff. exists rB. rewrite HflB, HissA.
    apply in_or_app. right. now left. }
  destruct (resolved_response_is_applied st2 b dataB Hb HB) as [HvisB HflB'].
  set (st3 := step repoId st2 (Resolved b dataB)) in *.
  split; [exact HvisB|].
  assert (Ha : is_in_flight a st3 = true).
  { apply is_in_flight_iff. exists rA. rewrite HflB'. unfold settle.
    apply filter_In. split.
    - rewrite HflB, HflA. apply in_or_app. left. apply in_or_app. right. now left.
    - cbn [fst]. apply negb_true_iff. apply Nat.eqb_neq. unfold a, b. lia. }
  exact (proj1 (resolved_response_is_applied st3 a dataA Ha HA)).
Qed.

End SearchSession.

Lemma late_response_overwrites_witness :
  visible (UseCodeSearch.run 1 (UseCodeSearch.initial (VStr "") (VObj []))
             overtaken_session)
  = (VArr [VObj [("file_id", int 10); ("file_path", VStr "auth.ts")]], VUndef).
Proof.
  exact (proj2 (late_response_overwrites 1
                  (UseCodeSearch.initial (VStr "") (VObj [])) "auth" "login"
                  VUndef VUndef reply_A reply_B
                  ltac:(discriminate) ltac:(discriminate) eq_refl eq_refl)).
Defined.

(** C1 fails as stated: after A's late reply the display shows A's single
    result, not the two results of B, the query issued last; the total on
    display is the count of neither reply. *)
Lemma stale_response_is_shown :
  let st := UseCodeSearch.run 1 (UseCodeSearch.initial (VStr "") (VObj []))
              overtaken_session in
  UseCodeSearch.results st = get reply_A "results"
  /\ UseCodeSearch.results st <> get reply_B "results"
  /\ UseCodeSearch.totalResults st <> get reply_B "total_results"
  /\ visible st <> shown reply_B.
Proof.
  cbn. repeat split; discriminate.
Qed.

(** ** The UTF-8 decoder ([TextDecoder.decode] without [stream]) *)
Section Decoder.

Lemma code_range lo hi a :
  in_range lo hi a = true <-> (lo <= code a /\ code a <= hi)%N.
Proof.
  unfold in_range. rewrite andb_true_iff, !N.leb_le. reflexivity.
Qed.

Ltac ranges :=
  unfold seq2, seq3, seq4, continuation in *;
  repeat match goal with
         | H : _ && _ = true |- _ => apply andb_prop in H as [? ?]
         | H : _ || _ = true |- _ => apply orb_prop in H as [? | ?]
         | H : in_range _ _ _ = true |- _ => apply code_range in H as [? ?]
         end.

Ltac decide_tests :=
  repeat match goal with
         | |- context [(?x <=? ?y)%N] => destruct (N.leb_spec x y); try lia
         | |- context [(?x =? ?y)%N] => destruct (N.eqb_spec x y); try lia
         end;
  cbn [andb orb negb].

Ltac run_decoder :=
  repeat (cbn [utf8_run utf8_step utf8_lead bytes_needed bytes_seen
               lower_boundary upper_boundary utf8_initial];
          unfold utf8_step, utf8_lead;
          cbn [bytes_needed bytes_seen lower_boundary upper_boundary utf8_initial];
          decide_tests).

Lemma run_ascii a r :
  in_range 0 0x7F a = true ->
  utf8_run utf8_initial (String a r)
  = let '(out, st) := utf8_run utf8_initial r in (String a out, st).
Proof.
  intros H. ranges. cbn [utf8_run]. unfold utf8_step, utf8_lead.
  cbn [bytes_needed utf8_initial]. decide_tests. reflexivity.
Qed.

Lemma run_seq2 a b r :
  seq2 a b = true ->
  utf8_run utf8_initial (String a (String b r))
  = let '(out, st) := utf8_run utf8_initial r in (String a (String b out), st).
Proof.
  intros H. ranges. cbn [utf8_run]. unfold utf8_step, utf8_lead.
  cbn [bytes_needed bytes_seen lower_boundary upper_boundary utf8_initial].
  decide_tests. cbn [bytes_needed bytes_seen lower_boundary upper_boundary].
  decide_tests. fold utf8_initial.
  destruct (utf8_run utf8_initial r). reflexivity.
Qed.

Lemma run_seq3 a b c r :
  seq3 a b c = true ->
  utf8_run utf8_initial (String a (String b (String c r)))
  = let '(out, st) := utf8_run utf8_initial r in
    (String a (String b (String c out)), st).
Proof.
  intros H. ranges; run_decoder; fold utf8_initial;
    destruct (utf8_run utf8_initial r); reflexivity.
Qed.

Lemma run_seq4 a b c d r :
  seq4 a b c d = true ->
  utf8_run utf8_initial (String a (String b (String c (String d r))))
  = let '(out, st) := utf8_run utf8_initial r in
    (String a (String b (String c (String d out))), st).
Proof.
  intros H. ranges; run_decoder; fold utf8_initial;
    destruct (utf8_run utf8_initial r); reflexivity.
Qed.

(** Well-formed text is decoded to itself. *)
Lemma is_utf8_decodes s : is_utf8 s = true -> decodes_to_itself s.
Proof.
  unfold decodes_to_itself.
  assert (H : forall n s, length s <= n -> is_utf8 s = true ->
                          utf8_run utf8_initial s = (s, utf8_initial)).
  { clear s. induction n as [|n IH]; intros s Hlen Hs.
    - destruct s; [reflexivity | cbn in Hlen; lia].
    - destruct s as [|a r]; [reflexivity|]. cbn [is_utf8] in Hs.
      destruct (in_range 0 127 a) eqn:H1.
      { rewrite run_ascii, IH by (assumption || (cbn in Hlen; lia)). reflexivity. }
      destruct r as [|b r1]; [discriminate|].
      destruct (seq2 a b) eqn:H2.
      { rewrite run_seq2, IH by (assumption || (cbn in Hlen; lia)). reflexivity. }
      destruct r1 as [|c r2]; [discriminate|].
      destruct (seq3 a b c) eqn:H3.
      { rewrite run_seq3, IH by (assumption || (cbn in Hlen; lia)). reflexivity. }
      destruct r2 as [|d r3]; [discriminate|].
      apply andb_prop in Hs as [H4 Hs].
      rewrite run_seq4, IH by (assumption || (cbn in Hlen; lia)). reflexivity. }
  intros Hs. apply (H (length s)); [lia | assumption].
Qed.

Lemma append_assoc (a b c : string) : (a ++ b) ++ c = a ++ b ++ c.
Proof.
  induction a as [|x a IH]; cbn; [reflexivity | now rewrite IH].
Qed.

Lemma append_nil_r (a : string) : a ++ "" = a.
Proof.
  induction a as [|x a IH]; cbn; [reflexivity | now rewrite IH].
Qed.

Lemma utf8_run_app st a b :
  utf8_run st (a ++ b)
  = let '(o1, s1) := utf8_run st a in
    let '(o2, s2) := utf8_run s1 b in (o1 ++ o2, s2).
Proof.
  revert st. induction a as [|x a IH]; intros st.
  - cbn. destruct (utf8_run st b). reflexivity.
  - cbn [append utf8_run]. destruct (utf8_step st x) as [o st1].
    rewrite IH. destruct (utf8_run st1 a) as [o1 s1].
    destruct (utf8_run s1 b) as [o2 s2]. now rewrite append_assoc.
Qed.

Lemma decodes_app a b :
  decodes_to_itself a -> decodes_to_itself b -> decodes_to_itself (a ++ b).
Proof.
  unfold decodes_to_itself. intros Ha Hb. now rewrite utf8_run_app, Ha, Hb.
Qed.

Lemma decodes_LF : decodes_to_itself LF.
Proof. reflexivity. Qed.

Lemma decode_itself s :
  decodes_to_itself s -> TextDecoder_decode s = strip_BOM s.
Proof.
  unfold decodes_to_itself, TextDecoder_decode. intros ->.
  cbn [utf8_flush utf8_initial bytes_needed]. now rewrite append_nil_r.
Qed.

Lemma strip_BOM_char s : multibyte_char s = true -> s <> BOM -> strip_BOM s = s.
Proof.
  intros Hs Hne. unfold strip_BOM.
  destruct (startsWith s BOM) eqn:Hbom; [exfalso | reflexivity].
  destruct s as [|a [|b [|c [|d [|e r]]]]]; try discriminate;
    unfold BOM in Hbom; cbn [startsWith bytes] in Hbom;
    rewrite ?andb_false_r, ?andb_true_r in Hbom; try discriminate.
  - apply andb_prop in Hbom as [Ha Hbom]. apply andb_prop in Hbom as [Hb Hc].
    apply Ascii.eqb_eq in Ha, Hb, Hc. subst. now apply Hne.
  - apply andb_prop in Hbom as [Ha _]. apply Ascii.eqb_eq in Ha. subst.
    vm_compute in Hs. discriminate.
Qed.

Lemma multibyte_char_decodes s : multibyte_char s = true -> decodes_to_itself s.
Proof.
  intros Hs. unfold decodes_to_itself.
  destruct s as [|a [|b [|c [|d [|e r]]]]]; try discriminate; cbn in Hs.
  - now rewrite run_seq2.
  - now rewrite run_seq3.
  - now rewrite run_seq4.
Qed.

Ltac decode_fragment :=
  unfold TextDecoder_decode; run_decoder; reflexivity.

(** C3, as the code has it.  The decoder is called afresh on every chunk.  A
    character of several bytes that arrives whole is decoded to itself (a byte
    order mark apart, which is dropped); when its bytes are split between two
    chunks, the first fragment is decoded to one U+FFFD and each byte of the
    second to another: the text decoded from the two chunks is not the
    character. *)
Theorem split_character_is_replaced (s : string) (k : nat) :
  multibyte_char s = true ->
  0 < k < length s ->
  (s <> BOM -> TextDecoder_decode s = s)
  /\ TextDecoder_decode (substring 0 k s) = REPLACEMENT
  /\ TextDecoder_decode (skip k s) = repeat_text REPLACEMENT (length s - k)
  /\ TextDecoder_decode (substring 0 k s) ++ TextDecoder_decode (skip k s) <> s.
Proof.
  intros Hs Hk.
  split.
  { intros Hne. rewrite decode_itself by now apply multibyte_char_decodes.
    now apply strip_BOM_char. }
  assert (H : TextDecoder_decode (substring 0 k s) = REPLACEMENT
              /\ TextDecoder_decode (skip k s) = repeat_text REPLACEMENT (length s - k)).
  { destruct s as [|a [|b [|c [|d [|e r]]]]]; try discriminate; cbn in Hs, Hk;
      destruct k as [|[|[|[|k]]]]; try lia;
      cbn [substring skip length Nat.sub repeat_text];
      ranges; split; decode_fragment. }
  destruct H as [H1 H2]. repeat split; try assumption.
  rewrite H1, H2.
  destruct s as [|a [|b [|c [|d [|e r]]]]]; try discriminate; cbn in Hk;
    destruct k as [|[|[|[|k]]]]; try lia; cbn; discriminate.
Qed.

Lemma split_character_is_replaced_witness :
  TextDecoder_decode (bytes [0xC3]%N) ++ TextDecoder_decode (bytes [0xA9]%N)
  <> bytes [0xC3; 0xA9]%N.
Proof.
  exact (proj2 (proj2 (proj2
           (split_character_is_replaced (bytes [0xC3; 0xA9]%N) 1
              eq_refl (conj (le_n 1) (le_n 2)))))).
Defined.

(** C3 fails as stated: the two bytes of U+00E9, delivered one per chunk, are
    decoded to two replacement characters. *)
Lemma split_e_acute_is_corrupted :
  utf8_encode 0xE9 = bytes [0xC3; 0xA9]%N
  /\ TextDecoder_decode (bytes [0xC3]%N) ++ TextDecoder_decode (bytes [0xA9]%N)
     = REPLACEMENT ++ REPLACEMENT
  /\ TextDecoder_decode (bytes [0xC3]%N) ++ TextDecoder_decode (bytes [0xA9]%N)
     <> utf8_encode 0xE9.
Proof.
  repeat split. discriminate.
Qed.

End Decoder.

(** ** Framing and dispatch of the chat stream ([chatStream]) *)
Section Framing.
Import Api.

Lemma split_no_newline l : no_newline l = true -> split "010" l = [l].
Proof.
  induction l as [|a l IH]; [reflexivity|].
  cbn [no_newline split]. intros H. apply andb_prop in H as [Ha Hl].
  apply negb_true_iff in Ha. rewrite Ha, (IH Hl). reflexivity.
Qed.

Lemma split_line l r :
  no_newline l = true -> split "010" (l ++ LF ++ r) = l :: split "010" r.
Proof.
  induction l as [|a l IH]; [reflexivity|].
  cbn [no_newline split append]. intros H. apply andb_prop in H as [Ha Hl].
  apply negb_true_iff in Ha. rewrite Ha, (IH Hl). reflexivity.
Qed.

Lemma is_line_parts l :
  is_line l = true ->
  is_utf8 l = true /\ no_newline l = true /\ startsWith l BOM = false.
Proof.
  unfold is_line. intros H. apply andb_prop in H as [H Hbom].
  apply andb_prop in H as [Hutf Hnl]. apply negb_true_iff in Hbom. now repeat split.
Qed.

Lemma split_lines ls frag :
  forallb is_line ls = true -> no_newline frag = true ->
  split "010" (lines_text ls ++ frag) = (ls ++ [frag])%list.
Proof.
  intros Hls Hfrag. induction ls as [|l ls IH].
  - now apply split_no_newline.
  - cbn [forallb] in Hls. apply andb_prop in Hls as [Hl Hls].
    apply is_line_parts in Hl as [_ [Hnl _]].
    cbn [lines_text]. rewrite !append_assoc, split_line by assumption.
    now rewrite (IH Hls).
Qed.

Lemma lines_decode ls frag :
  forallb is_line ls = true -> is_utf8 frag = true ->
  decodes_to_itself (lines_text ls ++ frag).
Proof.
  intros Hls Hfrag. induction ls as [|l ls IH].
  - now apply is_utf8_decodes.
  - cbn [forallb] in Hls. apply andb_prop in Hls as [Hl Hls].
    apply is_line_parts in Hl as [Hutf _].
    cbn [lines_text]. rewrite !append_assoc.
    apply decodes_app; [now apply is_utf8_decodes|].
    apply decodes_app; [apply decodes_LF | now apply IH].
Qed.

(** A line that does not open with a byte order mark, followed by a line
    feed, does not open with one either. *)
Lemma line_has_no_BOM l r :
  is_utf8 l = true -> startsWith l BOM = false ->
  startsWith (l ++ LF ++ r) BOM = false.
Proof.
  intros Hutf Hbom. destruct l as [|a l1]; [reflexivity|].
  unfold BOM in *. cbn [startsWith append bytes] in *.
  destruct (Ascii.eqb_spec (byte 239) a) as [<- | Hne]; [|reflexivity].
  cbn [andb] in *.
  destruct l1 as [|b [|c l3]]; try (vm_compute in Hutf; discriminate).
  cbn [startsWith append] in *.
  destruct (Ascii.eqb (byte 187) b); [|reflexivity].
  destruct (Ascii.eqb (byte 191) c); [|reflexivity].
  discriminate.
Qed.

Lemma lines_have_no_BOM ls frag :
  forallb is_line ls = true -> is_line frag = true ->
  startsWith (lines_text ls ++ frag) BOM = false.
Proof.
  intros Hls Hfrag. destruct ls as [|l ls].
  - now apply is_line_parts in Hfrag.
  - cbn [forallb] in Hls. apply andb_prop in Hls as [Hl _].
    apply is_line_parts in Hl as [Hutf [_ Hbom]].
    cbn [lines_text]. rewrite !append_assoc. now apply line_has_no_BOM.
Qed.

(** A chunk of well-formed text is handled line by line; what follows its
    last line feed is handled as a line too. *)
Lemma handle_chunk_lines ls frag :
  forallb is_line ls = true -> is_line frag = true ->
  handle_chunk (lines_text ls ++ frag)
  = (flat_map handle_line ls ++ handle_line frag)%list.
Proof.
  intros Hls Hfrag. unfold handle_chunk.
  pose proof (is_line_parts _ Hfrag) as [Hutf [Hnl _]].
  rewrite decode_itself by now apply lines_decode.
  unfold strip_BOM. rewrite lines_have_no_BOM by assumption.
  rewrite split_lines by assumption.
  rewrite flat_map_app. cbn [flat_map]. now rewrite app_nil_r.
Qed.

Lemma handle_chunk_complete_lines ls :
  forallb is_line ls = true ->
  handle_chunk (lines_text ls) = flat_map handle_line ls.
Proof.
  intros Hls. rewrite <- (append_nil_r (lines_text ls)).
  rewrite handle_chunk_lines by (assumption || reflexivity).
  apply app_nil_r.
Qed.

Lemma nonempty_has_no_BOM l r :
  is_utf8 l = true -> startsWith l BOM = false -> l <> "" ->
  startsWith (l ++ r) BOM = false.
Proof.
  intros Hutf Hbom Hne. destruct l as [|a l1]; [contradiction|].
  unfold BOM in *. cbn [startsWith append bytes] in *.
  destruct (Ascii.eqb_spec (byte 239) a) as [<- | Ha]; [|reflexivity].
  cbn [andb] in *.
  destruct l1 as [|b [|c l3]]; try (vm_compute in Hutf; discriminate).
  cbn [startsWith append] in *.
  destruct (Ascii.eqb (byte 187) b); [|reflexivity].
  destruct (Ascii.eqb (byte 191) c); [|reflexivity].
  discriminate.
Qed.

Lemma no_newline_app a b :
  no_newline a = true -> no_newline b = true -> no_newline (a ++ b) = true.
Proof.
  intros Ha Hb. induction a as [|x a IH]; [assumption|].
  cbn [no_newline append] in *. apply andb_prop in Ha as [Hx Ha].
  now rewrite Hx, IH.
Qed.

Lemma is_utf8_app a b :
  is_utf8 a = true -> is_utf8 b = true -> is_utf8 (a ++ b) = true.
Proof.
  intros Ha Hb.
  assert (H : forall n a, length a <= n -> is_utf8 a = true ->
                          is_utf8 (a ++ b) = true).
  { clear a Ha. induction n as [|n IH]; intros a Hlen Ha.
    - destruct a; [assumption | cbn in Hlen; lia].
    - destruct a as [|x r]; [assumption|]. cbn [is_utf8 append] in *.
      destruct (in_range 0 127 x); [apply IH; [cbn in Hlen; lia | assumption]|].
      destruct r as [|y r1]; [discriminate|]. cbn [append].
      destruct (seq2 x y); [apply IH; [cbn in Hlen; lia | assumption]|].
      destruct r1 as [|z r2]; [discriminate|]. cbn [append].
      destruct (seq3 x y z); [apply IH; [cbn in Hlen; lia | assumption]|].
      destruct r2 as [|w r3]; [discriminate|]. cbn [append].
      apply andb_prop in Ha as [H4 Ha]. rewrite H4. cbn [andb].
      apply IH; [cbn in Hlen; lia | assumption]. }
  apply (H (length a)); [lia | assumption].
Qed.

(** Two fragments of a line make a line. *)
Lemma is_line_app a b : is_line a = true -> is_line b = true -> is_line (a ++ b) = true.
Proof.
  intros Ha Hb.
  pose proof (is_line_parts _ Ha) as [Ua [Na Ba]].
  pose proof (is_line_parts _ Hb) as [Ub [Nb Bb]].
  unfold is_line. rewrite is_utf8_app, no_newline_app by assumption. cbn [andb].
  apply negb_true_iff. destruct a as [|x a]; [assumption|].
  apply nonempty_has_no_BOM; [assumption | assumption | discriminate].
Qed.

(** A data line split inside its payload: the head does not parse and is
    logged, the tail is not a data line; the event is lost. *)
Lemma split_data_line_is_dropped payload1 payload2 :
  JSON_parse payload1 = None ->
  startsWith payload2 "data: " = false ->
  (handle_line ("data: " ++ payload1) ++ handle_line payload2)%list = [ConsoleError].
Proof.
  intros Hparse Htail. unfold handle_line at 2. rewrite Htail.
  unfold handle_line. cbn [startsWith append Ascii.eqb Bool.eqb andb skip].
  destruct payload1; cbn [startsWith skip]; now rewrite Hparse.
Qed.

(** C2, as the code has it.  Each chunk is split into lines on its own and
    what follows its last line feed is parsed at once; nothing is kept for
    the next chunk.  A line that arrives whole within one chunk is handled
    exactly once, as one line.  A line split between two chunks is handled as
    two lines, its two fragments, each on its own; when the split falls inside
    the payload of a data line, so that the head does not parse and the tail
    is no data line, the head is logged and the line's event is lost. *)
Theorem split_line_is_handled_as_two_lines
    (before after : list string) (frag1 frag2 : string) (rest : list read) :
  forallb is_line before = true -> forallb is_line after = true ->
  is_line frag1 = true -> is_line frag2 = true ->
  fst (read_loop (Chunk (lines_text (before ++ (frag1 ++ frag2) :: after)) :: rest))
  = (flat_map handle_line before ++ handle_line (frag1 ++ frag2)
       ++ flat_map handle_line after ++ fst (read_loop rest))%list
  /\ fst (read_loop (Chunk (lines_text before ++ frag1)
                       :: Chunk (lines_text (frag2 :: after)) :: rest))
     = (flat_map handle_line before ++ handle_line frag1 ++ handle_line frag2
          ++ flat_map handle_line after ++ fst (read_loop rest))%list
  /\ (forall payload1,
        frag1 = "data: " ++ payload1 -> JSON_parse payload1 = None ->
        startsWith frag2 "data: " = false ->
        fst (read_loop (Chunk (lines_text before ++ frag1)
                          :: Chunk (lines_text (frag2 :: after)) :: rest))
        = (flat_map handle_line before ++ ConsoleError
             :: flat_map handle_line after ++ fst (read_loop rest))%list).
Proof.
  intros Hbefore Hafter H1 H2.
  assert (Hsplit :
    fst (read_loop (Chunk (lines_text before ++ frag1)
                      :: Chunk (lines_text (frag2 :: after)) :: rest))
    = (flat_map handle_line before ++ (handle_line frag1 ++ handle_line frag2)
         ++ flat_map handle_line after ++ fst (read_loop rest))%list).
  { cbn [read_loop]. destruct (read_loop rest) as [t c]. cbn [fst].
    rewrite handle_chunk_lines by assumption.
    rewrite handle_chunk_complete_lines by (cbn [forallb]; now rewrite H2, Hafter).
    cbn [flat_map]. now rewrite <- !app_assoc. }
  split; [|split].
  - cbn [read_loop]. destruct (read_loop rest) as [t c]. cbn [fst].
    rewrite handle_chunk_complete_lines.
    + rewrite flat_map_app. cbn [flat_map]. now rewrite <- !app_assoc.
    + rewrite forallb_app. cbn [forallb].
      now rewrite Hbefore, Hafter, is_line_app.
  - rewrite Hsplit. now rewrite <- !app_assoc.
  - intros payload1 -> Hparse Htail. rewrite Hsplit.
    now rewrite split_data_line_is_dropped.
Qed.

Lemma split_line_is_handled_as_two_lines_witness :
  fst (read_loop [Chunk (lines_text [token_head ++ token_tail])])
  = [OnToken (VStr "Hello")]
  /\ fst (read_loop [Chunk token_head; Chunk (lines_text [token_tail])])
     = [ConsoleError].
Proof.
  pose proof (split_line_is_handled_as_two_lines [] [] token_head token_tail []
                eq_refl eq_refl eq_refl eq_refl) as [Hwhole [Hsplit _]].
  exact (conj Hwhole Hsplit).
Defined.

(** C2 fails as stated: the same line yields its token when it arrives in
    one chunk, and no event at all when it arrives in two. *)
Lemma split_line_is_lost :
  (token_head ++ token_tail = token_line)
  /\ callbacks (fst (chatStream (stream_of [token_line ++ LF]) 1 ask))
     = [OnToken (VStr "Hello")]
  /\ callbacks (fst (chatStream (stream_of [token_head; token_tail ++ LF]) 1 ask))
     = [].
Proof.
  repeat split.
Qed.




(** The frames of a well-behaved session reach the callbacks in wire order. *)
Example chatStream_hello_world :
  callbacks (fst (chatStream
    (stream_of [lines_text [json_text "data: {'type':'token','content':'Hello'}"; "";
                            json_text "data: {'type':'token','content':' world'}"; ""];
                lines_text [json_text "data: {'type':'done','message_id':7}"; ""]])
    1 ask))
  = [OnToken (VStr "Hello"); OnToken (VStr " world"); OnDone (int 7)].
Proof. reflexivity. Qed.

End Framing.

(** * Further properties *)

Import Notions2.

(** ** Polling in general ([pollRepositoryStatus]) *)
Section PollingRuns.
Import Api.
Variable getById : status_source.
Variable onUpdate : callback.
Variables id interval maxAttempts : Z.

(** The attempt counter is a number: it counts exactly up to [2 ^ 53], which
    the statements below ask [maxAttempts] not to exceed. *)

Lemma status_at_inv n status :
  status_at getById n = Some status ->
  exists repo, getById n = Return repo /\ getp repo "status" = Return status.
Proof.
  unfold status_at. destruct (getById n) as [repo|e]; [|discriminate].
  destruct (getp repo "status") as [st|e] eqn:Hst; [|discriminate].
  intros [= <-]. now exists repo.
Qed.

(** [k] rounds that end neither the polling nor the attempts. *)
Lemma poll_loop_rounds k :
  forall fuel attempt n,
  (forall j, j < k ->
     exists status, status_at getById (n + j) = Some status
                    /\ is_terminal status = false
                    /\ onUpdate status = Return tt) ->
  (attempt + Z.of_nat k <= maxAttempts)%Z ->
  poll_loop getById onUpdate id maxAttempts interval (k + fuel) attempt n
  = (let '(t, c) := poll_loop getById onUpdate id maxAttempts interval fuel
                      (attempt + Z.of_nat k)%Z (n + k) in
     ((flat_map (round id interval) (statuses getById n k) ++ t)%list, c))
  /\ List.length (statuses getById n k) = k.
Proof.
  induction k as [|k IH]; intros fuel attempt n Hpending Hle.
  - cbn [statuses flat_map Nat.add]. rewrite Z.add_0_r, Nat.add_0_r.
    destruct (poll_loop getById onUpdate id maxAttempts interval fuel attempt n).
    now split.
  - destruct (Hpending 0 ltac:(lia)) as [status [Hst [Hnt Hret]]].
    rewrite Nat.add_0_r in Hst.
    destruct (status_at_inv _ _ Hst) as [repo [Hrepo Hstatus]].
    cbn [Nat.add]. rewrite poll_loop_unfold by lia.
    rewrite Hrepo, Hstatus, Hret, Hnt.
    destruct (IH fuel (attempt + 1)%Z (S n)) as [Hrun Hlen].
    { intros j Hj. destruct (Hpending (S j) ltac:(lia)) as [st' H'].
      exists st'. now rewrite Nat.add_succ_l, <- Nat.add_succ_r. }
    { lia. }
    rewrite Hrun. cbn [statuses]. rewrite Hst.
    replace (attempt + 1 + Z.of_nat k)%Z with (attempt + Z.of_nat (S k))%Z by lia.
    replace (S n + k) with (n + S k) by lia.
    destruct (poll_loop getById onUpdate id maxAttempts interval fuel
                (attempt + Z.of_nat (S k)) (n + S k)) as [t c].
    cbn [flat_map round app List.length]. split; [reflexivity | now rewrite Hlen].
Qed.

Lemma pending_from_zero k :
  pending_until getById k ->
  returns_until getById onUpdate k ->
  forall j, j < k ->
    exists status, status_at getById (0 + j) = Some status
                   /\ is_terminal status = false
                   /\ onUpdate status = Return tt.
Proof.
  intros H Hret j Hj. destruct (H j Hj) as [status [Hst Hnt]].
  exists status. repeat split; try assumption. exact (Hret j status Hj Hst).
Qed.

Lemma count_rounds (l : list value) :
  List.length (requests (flat_map (round id interval) l)) = List.length l
  /\ List.length (filter is_update (flat_map (round id interval) l)) = List.length l
  /\ List.length (filter is_wait (flat_map (round id interval) l)) = List.length l.
Proof.
  induction l as [|x l [IH1 [IH2 IH3]]]; [now repeat split|].
  cbn [flat_map]. unfold requests in *. rewrite !filter_app, !List.length_app.
  rewrite IH1, IH2, IH3. now repeat split.
Qed.

(** X1.  The call settles at the first terminal status: after [k] rounds of
    fetch, update and wait on the [k] statuses that are not terminal, on which
    [onUpdate] returns, the fetch that reports [completed] or [failed] is
    followed by its update, and nothing else; [k + 1] requests in all.  When
    [onUpdate] returns on that status the call resolves with that job, [failed]
    included; when it throws, as the home page's does on [failed], the call
    rejects with what it threw. *)
Theorem poll_resolves_at_first_terminal (k : nat) (repo status : value) :
  pending_until getById k ->
  returns_until getById onUpdate k ->
  getById k = Return repo ->
  getp repo "status" = Return status ->
  is_terminal status = true ->
  (Z.of_nat k < maxAttempts <= 2 ^ 53)%Z ->
  (onUpdate status = Return tt ->
   pollRepositoryStatus getById onUpdate id maxAttempts interval
   = ((flat_map (round id interval) (statuses getById 0 k)
         ++ [Http (status_request id); OnUpdate status])%list,
      Some (Return repo)))
  /\ (forall e, onUpdate status = Throw e ->
        pollRepositoryStatus getById onUpdate id maxAttempts interval
        = ((flat_map (round id interval) (statuses getById 0 k)
              ++ [Http (status_request id); OnUpdate status])%list,
           Some (Throw e)))
  /\ List.length (statuses getById 0 k) = k
  /\ List.length (requests (fst (pollRepositoryStatus getById onUpdate id
                                   maxAttempts interval)))
     = S k.
Proof.
  intros Hpending Hreturns Hrepo Hstatus Hterm [Hk _].
  unfold pollRepositoryStatus.
  replace (Z.to_nat maxAttempts) with (k + (Z.to_nat maxAttempts - k)) by lia.
  destruct (poll_loop_rounds k (Z.to_nat maxAttempts - k) 0%Z 0
              (pending_from_zero k Hpending Hreturns) ltac:(lia)) as [Hrun Hlen].
  rewrite Hrun. cbn [Z.add Nat.add].
  destruct (Z.to_nat maxAttempts - k) as [|fuel] eqn:Hfuel; [lia|].
  rewrite poll_loop_unfold by lia. rewrite Hrepo, Hstatus, Hterm.
  destruct (count_rounds (statuses getById 0 k)) as [Hc _].
  unfold requests in *.
  split; [|split; [|split; [assumption|]]].
  - intros ->. reflexivity.
  - intros e ->. reflexivity.
  - destruct (onUpdate status) as [[]|e]; cbn [fst];
      rewrite filter_app, List.length_app, Hc, Hlen; cbn; lia.
Qed.

(** X2.  When none of the first [maxAttempts] fetches reports a terminal status,
    and [onUpdate] returns on each,
    the call rejects with the timeout error after exactly [maxAttempts]
    requests, as many updates and as many waits: it waits once more after the
    last fetch before it gives up. *)
Theorem poll_times_out_after_max_attempts :
  (maxAttempts <= 2 ^ 53)%Z ->
  pending_until getById (Z.to_nat maxAttempts) ->
  returns_until getById onUpdate (Z.to_nat maxAttempts) ->
  pollRepositoryStatus getById onUpdate id maxAttempts interval
  = (flat_map (round id interval) (statuses getById 0 (Z.to_nat maxAttempts)),
     Some (Throw (Error "Timeout waiting for repository to be processed")))
  /\ List.length (requests (fst (pollRepositoryStatus getById onUpdate id
                                   maxAttempts interval)))
     = Z.to_nat maxAttempts
  /\ List.length (filter is_wait
                    (fst (pollRepositoryStatus getById onUpdate id maxAttempts
                            interval)))
     = Z.to_nat maxAttempts.
Proof.
  intros _ Hpending Hreturns. unfold pollRepositoryStatus.
  destruct (Z.le_gt_cases 0 maxAttempts) as [Hpos|Hneg].
  - destruct (poll_loop_rounds (Z.to_nat maxAttempts) 0 0%Z 0
                (pending_from_zero _ Hpending Hreturns) ltac:(lia)) as [Hrun Hlen].
    rewrite Nat.add_0_r in Hrun. rewrite Hrun. cbn [Z.add Nat.add].
    rewrite poll_loop_exhausted by lia. rewrite app_nil_r. cbn [fst].
    destruct (count_rounds (statuses getById 0 (Z.to_nat maxAttempts)))
      as [Hc [_ Hw]].
    now rewrite Hc, Hw, Hlen.
  - replace (Z.to_nat maxAttempts) with 0 by lia.
    rewrite poll_loop_exhausted by lia. now repeat split.
Qed.

(** X3.  A status request that fails, after rounds on which [onUpdate]
    returned, ends the polling with that failure: there
    is no update for it, no retry and no further request. *)
Theorem poll_aborts_on_request_failure (k : nat) (err : value) :
  pending_until getById k ->
  returns_until getById onUpdate k ->
  getById k = Throw err ->
  (Z.of_nat k < maxAttempts <= 2 ^ 53)%Z ->
  pollRepositoryStatus getById onUpdate id maxAttempts interval
  = ((flat_map (round id interval) (statuses getById 0 k)
        ++ [Http (status_request id)])%list,
     Some (Throw err))
  /\ List.length (requests (fst (pollRepositoryStatus getById onUpdate id
                                   maxAttempts interval)))
     = S k
  /\ List.length (filter is_update
                    (fst (pollRepositoryStatus getById onUpdate id maxAttempts
                            interval)))
     = k.
Proof.
  intros Hpending Hreturns Hfail [Hk _]. unfold pollRepositoryStatus.
  replace (Z.to_nat maxAttempts) with (k + (Z.to_nat maxAttempts - k)) by lia.
  destruct (poll_loop_rounds k (Z.to_nat maxAttempts - k) 0%Z 0
              (pending_from_zero k Hpending Hreturns) ltac:(lia)) as [Hrun Hlen].
  rewrite Hrun. cbn [Z.add Nat.add].
  destruct (Z.to_nat maxAttempts - k) as [|fuel] eqn:Hfuel; [lia|].
  rewrite poll_loop_unfold by lia. rewrite Hfail.
  split; [reflexivity|]. cbn [fst]. unfold requests.
  rewrite !filter_app, !List.length_app.
  destruct (count_rounds (statuses getById 0 k)) as [Hc [Hu _]].
  unfold requests in Hc. rewrite Hc, Hu, Hlen. cbn. lia.
Qed.

Lemma poll_loop_bounds fuel :
  forall attempt n,
  let t := fst (poll_loop getById onUpdate id maxAttempts interval fuel attempt n) in
  List.length (requests t) <= fuel
  /\ List.length (filter is_update t) <= List.length (requests t)
  /\ List.length (filter is_wait t) <= List.length (filter is_update t).
Proof.
  induction fuel as [|fuel IH]; intros attempt n t; subst t.
  - cbn [poll_loop]. destruct (attempt <? maxAttempts)%Z; cbn; lia.
  - destruct (Z.lt_ge_cases attempt maxAttempts) as [Hlt|Hge].
    + rewrite poll_loop_unfold by assumption.
      destruct (getById n) as [repo|e]; [|cbn; lia].
      destruct (getp repo "status") as [status|e]; [|cbn; lia].
      destruct (onUpdate status) as [u|e]; [|cbn; lia].
      destruct (is_terminal status); [cbn; lia|].
      specialize (IH (attempt + 1)%Z (S n)).
      destruct (poll_loop getById onUpdate id maxAttempts interval fuel
                  (attempt + 1) (S n)) as [t c].
      cbn in *. lia.
    + rewrite poll_loop_exhausted by assumption. cbn. lia.
Qed.

(** X4.  Whatever the server answers and whatever [onUpdate] does, at most
    [maxAttempts] status requests are
    issued, every update follows a request of its own and every wait an update
    of its own. *)
Theorem poll_never_exceeds_max_attempts :
  (maxAttempts <= 2 ^ 53)%Z ->
  let t := fst (pollRepositoryStatus getById onUpdate id maxAttempts interval) in
  (Z.of_nat (List.length (requests t)) <= Z.max 0 maxAttempts)%Z
  /\ List.length (filter is_update t) <= List.length (requests t)
  /\ List.length (filter is_wait t) <= List.length (filter is_update t).
Proof.
  intros _. unfold pollRepositoryStatus.
  destruct (poll_loop_bounds (Z.to_nat maxAttempts) 0%Z 0) as [H1 [H2 H3]].
  cbn zeta. repeat split; [lia | assumption | assumption].
Qed.

End PollingRuns.

Lemma poll_resolves_at_first_terminal_witness :
  Api.pollRepositoryStatus failing_job_source home_onUpdate 1 120 3000
  = ([ Api.Http (Api.status_request 1); Api.OnUpdate (VStr "processing");
       Api.SetTimeout 3000;
       Api.Http (Api.status_request 1); Api.OnUpdate (VStr "failed") ],
     Some (Throw (Error "Repository processing failed"))).
Proof.
  refine (proj1 (proj2 (poll_resolves_at_first_terminal failing_job_source
                          home_onUpdate 1 3000 120 1
                          (job "failed") (VStr "failed") _ _ eq_refl eq_refl eq_refl
                          ltac:(cbn; lia)))
            (Error "Repository processing failed") eq_refl).
  - intros n Hn. destruct n as [|n]; [|lia].
    exists (VStr "processing"). split; reflexivity.
  - intros n status Hn. destruct n as [|n]; [|lia]. intros [= <-]. reflexivity.
Defined.

Lemma poll_times_out_after_max_attempts_witness :
  Api.pollRepositoryStatus stalled_source home_onUpdate 1 2 3000
  = ([ Api.Http (Api.status_request 1); Api.OnUpdate (VStr "processing");
       Api.SetTimeout 3000;
       Api.Http (Api.status_request 1); Api.OnUpdate (VStr "processing");
       Api.SetTimeout 3000 ],
     Some (Throw (Error "Timeout waiting for repository to be processed"))).
Proof.
  refine (proj1 (poll_times_out_after_max_attempts stalled_source home_onUpdate
                   1 3000 2 ltac:(cbn; lia) _ _)).
  - intros n _. exists (VStr "processing"). split; reflexivity.
  - intros n status _ [= <-]. reflexivity.
Defined.

Lemma poll_aborts_on_request_failure_witness :
  Api.pollRepositoryStatus unreachable_source home_onUpdate 1 120 3000
  = ([ Api.Http (Api.status_request 1); Api.OnUpdate (VStr "processing");
       Api.SetTimeout 3000;
       Api.Http (Api.status_request 1); Api.OnUpdate (VStr "processing");
       Api.SetTimeout 3000;
       Api.Http (Api.status_request 1) ],
     Some (Throw network_error)).
Proof.
  refine (proj1 (poll_aborts_on_request_failure unreachable_source home_onUpdate
                   1 3000 120 2 network_error _ _ eq_refl ltac:(cbn; lia))).
  - intros n Hn. destruct n as [|[|n]]; [| |lia];
      exists (VStr "processing"); split; reflexivity.
  - intros n status Hn. destruct n as [|[|n]]; [| |lia]; intros [= <-]; reflexivity.
Defined.

Lemma poll_never_exceeds_max_attempts_witness :
  let t := fst (Api.pollRepositoryStatus stalled_source home_onUpdate 1 2 3000) in
  (Z.of_nat (List.length (requests t)) <= Z.max 0 2)%Z
  /\ List.length (filter is_update t) <= List.length (requests t)
  /\ List.length (filter is_wait t) <= List.length (filter is_update t).
Proof.
  apply (poll_never_exceeds_max_attempts stalled_source home_onUpdate 1 3000 2).
  cbn. lia.
Defined.

(** ** The error handler beyond its intended inputs *)
Section ErrorHandlerMore.
Import ErrorHandler.

Lemma format_validation_error_cases e :
  (entry_ok e = true /\ exists part, format_validation_error e = Return part)
  \/ (entry_ok e = false /\ format_validation_error e = Throw TypeError).
Proof.
  destruct (entry_ok e) eqn:Hok.
  - left. split; [reflexivity|].
    destruct (format_validation_error_ok e Hok) as [part [Hpart _]]. now exists part.
  - right. split; [reflexivity | now apply format_validation_error_throws].
Qed.

Lemma Array_map_format_cases entries :
  (forallb entry_ok entries = true
   /\ exists parts, Array_map format_validation_error entries = Return parts)
  \/ (forallb entry_ok entries = false
      /\ Array_map format_validation_error entries = Throw TypeError).
Proof.
  induction entries as [|e entries IH].
  - left. split; [reflexivity | now exists []].
  - cbn [forallb Array_map].
    destruct (format_validation_error_cases e) as [[Hok [part Hpart]] | [Hbad Hthrow]].
    + rewrite Hok, Hpart. cbn [andb bind].
      destruct IH as [[Hall [parts Hparts]] | [Hsome Hthrow]].
      * left. split; [assumption|]. rewrite Hparts. now eexists.
      * right. split; [assumption|]. now rewrite Hthrow.
    + right. rewrite Hbad, Hthrow. now split.
Qed.

(** Whether [from_response_data] throws is decided by the validation array. *)
Lemma from_response_data_throws data e :
  from_response_data data = Some (Throw e) <->
  e = TypeError
  /\ exists entries, get data "detail" = VArr entries
                     /\ forallb entry_ok entries = false.
Proof.
  unfold from_response_data.
  destruct (get data "detail") as [| |b|n|d|entries|props] eqn:Edetail.
  6:{ destruct (Array_map_format_cases entries) as [[Hall [parts Hparts]] | [Hbad Hthrow]].
      - rewrite Hparts. cbn [bind]. split; [discriminate|].
        intros [_ [entries' [[= <-] Hbad]]]. congruence.
      - rewrite Hthrow. cbn [bind]. split.
        + intros [= <-]. split; [reflexivity|]. now exists entries.
        + intros [-> _]. reflexivity. }
  all: split; [|intros [_ [entries [Habs _]]]; discriminate].
  all: cbn;
    repeat match goal with
           | |- context [if ?c then _ else _] => destruct c
           end; discriminate.
Qed.

(** X5.  The handler throws in one situation only: the response body carries a
    validation array with an entry that is [null] or [undefined], or whose
    [loc] is neither missing nor an array, or whose [msg] or [loc] elements
    cannot be made strings (an object with a [toString] property of its own
    is among them); what it throws is a [TypeError].
    On every other input it returns. *)
Theorem extractErrorMessage_throws_iff (error e : value) :
  extractErrorMessage error = Throw e <->
  e = TypeError
  /\ truthy error = true
  /\ typeof error <> "string"
  /\ truthy (get_opt (get error "response") "data") = true
  /\ exists entries,
       get (get_opt (get error "response") "data") "detail" = VArr entries
       /\ forallb entry_ok entries = false.
Proof.
  unfold extractErrorMessage.
  set (data := get_opt (get error "response") "data").
  destruct (truthy error) eqn:Htruthy; cbn [negb].
  2:{ split; [discriminate | intros [_ [Habs _]]; discriminate]. }
  destruct (typeof error =? "string") eqn:Htype.
  { apply String.eqb_eq in Htype.
    split; [discriminate | intros [_ [_ [Habs _]]]; contradiction]. }
  apply String.eqb_neq in Htype.
  destruct (truthy data) eqn:Hdata.
  2:{ split; [|intros [_ [_ [_ [Habs _]]]]; discriminate].
      repeat match goal with
             | |- context [if ?c then _ else _] => destruct c
             end; discriminate. }
  destruct (from_response_data data) as [result|] eqn:Hfrom.
  - split.
    + intros ->. apply from_response_data_throws in Hfrom as [-> Hentries].
      now repeat split.
    + intros [-> [_ [_ [_ Hentries]]]].
      assert (H : from_response_data data = Some (Throw TypeError))
        by (apply from_response_data_throws; now split).
      congruence.
  - split.
    + repeat match goal with
             | |- context [if ?c then _ else _] => destruct c
             end; discriminate.
    + intros [-> [_ [_ [_ Hentries]]]].
      assert (H : from_response_data data = Some (Throw TypeError))
        by (apply from_response_data_throws; now split).
      congruence.
Qed.

(** X6.  [formatErrorForDisplay] never returns an empty or otherwise falsy
    message: it hands on the message that [extractErrorMessage] found when
    that is truthy, else the fallback when that is truthy, else
    [An error occurred]; and it fails only when [extractErrorMessage] does,
    with the same exception. *)
Theorem formatErrorForDisplay_never_empty (error fallback : value) :
  match formatErrorForDisplay error fallback with
  | Return shown =>
      truthy shown = true
      /\ (exists message,
            extractErrorMessage error = Return message
            /\ shown = (if truthy message then message
                        else if truthy fallback then fallback
                        else VStr "An error occurred"))
  | Throw e => extractErrorMessage error = Throw e
  end.
Proof.
  unfold formatErrorForDisplay.
  destruct (extractErrorMessage error) as [message|e]; cbn [bind]; [|reflexivity].
  unfold or_else. split.
  - destruct (truthy message) eqn:Hm; [now rewrite Hm|].
    destruct (truthy fallback) eqn:Hf; [now rewrite Hf | reflexivity].
  - exists message. split; [reflexivity|].
    destruct (truthy message) eqn:Hm; [now rewrite Hm|].
    now destruct (truthy fallback).
Qed.

(** X7.  [safeRenderError] returns a string as it is, the empty string too, which
    is the one falsy value it can return. *)
Theorem safeRenderError_only_empty_for_empty (error fallback : value) :
  (forall s, error = VStr s -> safeRenderError error fallback = Return (VStr s))
  /\ match safeRenderError error fallback with
     | Return shown => truthy shown = true \/ error = VStr ""
     | Throw e => extractErrorMessage error = Throw e
     end.
Proof.
  split; [now intros s ->|].
  unfold safeRenderError. destruct (typeof error =? "string") eqn:Htype.
  - destruct error as [| |b|n|s|l|ps]; try discriminate.
    destruct (s =? "") eqn:Hs.
    + right. apply String.eqb_eq in Hs. now subst.
    + left. cbn. now rewrite Hs.
  - unfold formatErrorForDisplay.
    destruct (extractErrorMessage error) as [message|e]; cbn [bind]; [left|reflexivity].
    unfold or_else. destruct (truthy message) eqn:Hm; [now rewrite Hm|].
    destruct (truthy fallback) eqn:Hf; [now rewrite Hf | reflexivity].
Qed.

(** X8.  When the response carries a JSON object or array as its body, the message
    is made from that body: the error's own [message] and [msg] play no
    part. *)
Theorem response_body_overrides_message (error error' : value) :
  truthy error = true -> typeof error <> "string" ->
  truthy error' = true -> typeof error' <> "string" ->
  get error' "response" = get error "response" ->
  truthy (get_opt (get error "response") "data") = true ->
  typeof (get_opt (get error "response") "data") = "object" ->
  extractErrorMessage error' = extractErrorMessage error.
Proof.
  intros Ht Hs Ht' Hs' Hresp Hdata Hobj. unfold extractErrorMessage.
  apply String.eqb_neq in Hs, Hs'. rewrite Ht, Ht', Hs, Hs', Hresp, Hdata.
  cbn [negb].
  set (data := get_opt (get error "response") "data") in *.
  assert (H : exists result, from_response_data data = Some result).
  { unfold from_response_data.
    destruct (get data "detail"); try (eexists; reflexivity);
      cbn; rewrite ?andb_false_r;
      repeat match goal with
             | |- context [if ?c then _ else _] => destruct c eqn:?
             end; try (eexists; reflexivity).
    all: rewrite Hobj in *; discriminate. }
  destruct H as [result ->]. reflexivity.
Qed.

End ErrorHandlerMore.

Lemma response_body_overrides_message_witness :
  ErrorHandler.extractErrorMessage
    (VObj [("message", VStr "Network Error");
           ("response", get validation_failure "response")])
  = ErrorHandler.extractErrorMessage validation_failure.
Proof.
  apply (response_body_overrides_message validation_failure
           (VObj [("message", VStr "Network Error");
                  ("response", get validation_failure "response")]));
    solve [reflexivity | discriminate].
Defined.

(** ** [trim], and the requests built from a question or a query *)
Section Requests.
Import Api ApiCalls.

Lemma startsWith_app s r e : startsWith s e = true -> startsWith (s ++ r) e = true.
Proof.
  revert s. induction e as [|a e IH]; intros s H; [reflexivity|].
  destruct s as [|b s]; [discriminate|]. cbn [startsWith append] in *.
  apply andb_prop in H as [Hab Hs]. now rewrite Hab, IH.
Qed.

Lemma startsWith_skip s e :
  startsWith s e = true -> s = e ++ skip (length e) s.
Proof.
  revert s. induction e as [|a e IH]; intros s H; [reflexivity|].
  destruct s as [|b s]; [discriminate|]. cbn [startsWith] in H.
  apply andb_prop in H as [Hab Hs]. apply Ascii.eqb_eq in Hab. subst.
  cbn. f_equal. now apply IH.
Qed.

Lemma find_none_all {A} (f : A -> bool) l :
  (forall x, In x l -> f x = false) -> find f l = None.
Proof.
  induction l as [|x l IH]; intros H; [reflexivity|].
  cbn. rewrite (H x (or_introl eq_refl)). apply IH. intros y Hy. apply H. now right.
Qed.

Lemma drop_leading_fixed encs fuel s :
  no_leading encs s -> drop_leading encs fuel s = s.
Proof.
  unfold no_leading. intros H. destruct fuel; cbn; [reflexivity | now rewrite H].
Qed.

(** What [drop_leading] returns is what is left of the string after some
    prefix; with fuel for every character no listed encoding starts it. *)
Lemma drop_leading_spec encs :
  Forall (fun e => 1 <= length e) encs ->
  forall fuel s, length s <= fuel ->
  no_leading encs (drop_leading encs fuel s)
  /\ exists p, s = p ++ drop_leading encs fuel s.
Proof.
  intros Hne. induction fuel as [|fuel IH]; intros s Hlen.
  - destruct s; [|cbn in Hlen; lia]. cbn. split; [|now exists ""].
    apply find_none_all. intros e He.
    rewrite Forall_forall in Hne. specialize (Hne e He).
    destruct e; [cbn in Hne; lia | reflexivity].
  - cbn [drop_leading]. destruct (find (fun e => startsWith s e) encs) as [e|] eqn:Hfind.
    + apply find_some in Hfind as [He Hstart].
      rewrite Forall_forall in Hne. specialize (Hne e He).
      pose proof (startsWith_skip s e Hstart) as Hs.
      assert (Hlt : length (skip (length e) s) <= fuel).
      { assert (length s = length e + length (skip (length e) s))
          by (rewrite Hs at 1; apply length_app). lia. }
      destruct (IH _ Hlt) as [Hno [p Hp]]. split; [assumption|].
      exists (e ++ p). rewrite append_assoc, <- Hp. exact Hs.
    + split; [exact Hfind | now exists ""].
Qed.

Lemma string_rev_app a b : string_rev (a ++ b) = string_rev b ++ string_rev a.
Proof.
  induction a as [|x a IH]; cbn; [now rewrite append_nil_r|].
  now rewrite IH, append_assoc.
Qed.

Lemma string_rev_involutive a : string_rev (string_rev a) = a.
Proof.
  induction a as [|x a IH]; [reflexivity|].
  cbn. now rewrite string_rev_app, IH.
Qed.

Lemma string_rev_length a : length (string_rev a) = length a.
Proof.
  induction a as [|x a IH]; [reflexivity|].
  cbn. rewrite length_app, IH. cbn. lia.
Qed.

Lemma ws_encodings_nonempty : Forall (fun e => 1 <= length e) ws_encodings.
Proof.
  repeat constructor.
Qed.

Lemma ws_reversed_nonempty :
  Forall (fun e => 1 <= length e) (map string_rev ws_encodings).
Proof.
  repeat constructor.
Qed.

Lemma trimStart_spec s :
  no_leading ws_encodings (trimStart s) /\ exists p, s = p ++ trimStart s.
Proof.
  apply (drop_leading_spec _ ws_encodings_nonempty). lia.
Qed.

Lemma trimEnd_spec s :
  no_leading (map string_rev ws_encodings) (string_rev (trimEnd s))
  /\ exists p, s = trimEnd s ++ p.
Proof.
  unfold trimEnd. rewrite string_rev_involutive.
  destruct (drop_leading_spec _ ws_reversed_nonempty (length s) (string_rev s))
    as [Hno [p Hp]]; [rewrite string_rev_length; lia|].
  split; [assumption|]. exists (string_rev p).
  rewrite <- string_rev_app, <- Hp. now rewrite string_rev_involutive.
Qed.

(** A prefix of a string that starts with no white space starts with none. *)
Lemma no_leading_prefix encs u p :
  no_leading encs (u ++ p) -> no_leading encs u.
Proof.
  unfold no_leading. intros H. apply find_none_all. intros e He.
  pose proof (find_none _ _ H e He) as Hf. cbn beta in Hf.
  destruct (startsWith u e) eqn:Hu; [|reflexivity].
  now rewrite (startsWith_app u p e Hu) in Hf.
Qed.

(** [trim] is idempotent: a trimmed string has nothing left to trim. *)
Lemma trim_idempotent s : trim (trim s) = trim s.
Proof.
  unfold trim.
  destruct (trimStart_spec s) as [Hstart _].
  destruct (trimEnd_spec (trimStart s)) as [Hend [p Hp]].
  set (u := trimEnd (trimStart s)) in *.
  assert (Hu : trimStart u = u).
  { unfold trimStart. apply drop_leading_fixed.
    apply (no_leading_prefix _ u p). now rewrite <- Hp. }
  rewrite Hu. unfold trimEnd at 1.
  rewrite drop_leading_fixed by assumption. apply string_rev_involutive.
Qed.

Lemma coalesce_idempotent a b : coalesce (coalesce a b) b = coalesce a b.
Proof.
  unfold coalesce. destruct (nullish a) eqn:Ha; [|now rewrite Ha].
  now destruct (nullish b).
Qed.

(** X9.  A request made by [createChatRequest] passes the validation of [chat]
    unchanged: the request is the question trimmed with each of the four
    options, where it was [null] or missing, at its default (5, [senior_dev],
    [true], [true]), and [chat] posts exactly that request, once, to the chat
    endpoint of the repository, and resolves with the [data] of the reply. *)
Theorem createChatRequest_is_posted_unchanged
    (post : request -> completion value) (id : Z) (q : string) (options : value) :
  trim q <> "" ->
  exists request,
    createChatRequest (VStr q) options = Return request
    /\ request
       = VObj [ ("question", VStr (trim q));
               ("top_k", coalesce (get_opt options "top_k") (int 5));
               ("prompt_style",
                coalesce (get_opt options "prompt_style") (VStr "senior_dev"));
               ("include_sources",
                coalesce (get_opt options "include_sources") (VBool true));
               ("include_metadata",
                coalesce (get_opt options "include_metadata") (VBool true)) ]
    /\ chat post id request
       = (let r := {| method := "POST";
                      url := "/repos/" ++ Number_toString (Num id 0) ++ "/chat";
                      body := request |} in
          ([Http r], bind (post r) (fun response => getp response "data"))).
Proof.
  intros Hq. apply truthy_VStr in Hq.
  assert (Hq' : truthy (VStr q) = true).
  { apply truthy_VStr. intros ->. now apply truthy_VStr in Hq. }
  unfold createChatRequest.
  change (typeof (VStr q) =? "string") with true. rewrite Hq'.
  cbn [negb orb String_trim bind]. rewrite Hq. cbn [negb].
  eexists. split; [reflexivity|]. split; [reflexivity|].
  unfold chat.
  change (truthy (VObj ?ps)) with true. cbn [negb orb typeof].
  change ("object" =? "object") with true. cbv iota. cbn [negb orb].
  cbn [get lookup String.eqb Ascii.eqb Bool.eqb].
  rewrite trim_idempotent, Hq. cbn [negb orb fst]. unfold validatedRequest.
  cbn [get lookup String.eqb Ascii.eqb Bool.eqb].
  now rewrite !coalesce_idempotent.
Qed.

(** X10.  An empty or white-space-only query is rejected by [searchCode] and by
    [createSearchRequest] with a validation error; [searchCode] hands no
    request to the transport. *)
Theorem blank_query_is_rejected_before_any_request
    (post : request -> completion value) (id : Z) (request options : value)
    (q : string) :
  whitespace_only q ->
  get request "query" = VStr q ->
  searchCode post id request = ([], Throw (Error "Search query is required"))
  /\ (exists message, createSearchRequest (VStr q) options = Throw (Error message)).
Proof.
  intros Hblank Hq. apply trim_whitespace_only in Hblank.
  destruct request as [| |b|n|s|l|props]; try discriminate. split.
  - unfold searchCode, getp. cbn [nullish]. rewrite Hq.
    destruct (truthy (VStr q)); cbn [negb]; [|reflexivity].
    cbn [String_trim]. rewrite Hblank. reflexivity.
  - unfold createSearchRequest.
    change (typeof (VStr q) =? "string") with true. cbn [negb]. rewrite orb_false_r.
    destruct (truthy (VStr q)); cbn [negb].
    + cbn [String_trim bind]. rewrite Hblank. cbn. eexists; reflexivity.
    + eexists; reflexivity.
Qed.

Lemma chat_trace post id request :
  fst (chat post id request) = []
  \/ exists r, fst (chat post id request) = [Http r].
Proof.
  unfold chat.
  repeat match goal with
         | |- context [if ?c then _ else _] => destruct c
         | |- context [match ?v with _ => _ end] => destruct v
         end; cbn [fst]; (now left) || (right; eexists; reflexivity).
Qed.

Lemma last_app3 {A} (t : list A) (a b c d : A) :
  last (t ++ [a; b; c])%list d = c.
Proof.
  change [a; b; c] with ([a; b] ++ [c])%list. rewrite app_assoc. apply last_last.
Qed.

Lemma last_app2 {A} (t : list A) (a b d : A) : last (t ++ [a; b])%list d = b.
Proof.
  change [a; b] with ([a] ++ [b])%list. rewrite app_assoc. apply last_last.
Qed.

Lemma sendMessage_ends
    (post : request -> completion value) (repoId : Z) (question options : value) :
  let '(t, c) := UseChat.sendMessage post repoId question options in
  last t ConsoleError = SetIsLoading false
  /\ List.length (requests t) <= 1.
Proof.
  unfold UseChat.sendMessage. cbv zeta.
  assert (Hfinish : forall (t : trace) (c : completion value),
            List.length (requests t) <= 1 ->
            let '(t', c') :=
              match c with
              | Return response => ((t ++ [SetIsLoading false])%list, Return response)
              | Throw err =>
                  match ErrorHandler.extractErrorMessage err with
                  | Return errorMsg =>
                      ((t ++ [ConsoleError; SetError errorMsg; SetIsLoading false])%list,
                       Return VNull)
                  | Throw e => ((t ++ [ConsoleError; SetIsLoading false])%list, Throw e)
                  end
              end in
            last t' ConsoleError = SetIsLoading false
            /\ List.length (requests t') <= 1).
  { intros t c Hreq.
    assert (Hreq' : forall l, List.length (requests l) = 0 ->
                              List.length (requests (t ++ l)%list) <= 1).
    { intros l Hl. unfold requests in *. rewrite filter_app, List.length_app. lia. }
    destruct c as [response|err].
    - split; [apply last_last | now apply Hreq'].
    - destruct (ErrorHandler.extractErrorMessage err) as [errorMsg|e] eqn:Herr.
      + split; [apply last_app3 | now apply Hreq'].
      + split; [apply last_app2 | now apply Hreq']. }
  repeat match goal with
         | |- context [if ?c then _ else _] => destruct c
         | |- context [String_trim ?v] => destruct (String_trim v)
         | |- context [createChatRequest ?a ?b] => destruct (createChatRequest a b)
         end;
    try match goal with
        | |- context [match ErrorHandler.extractErrorMessage ?err with
                      | Return _ => ((?t ++ _)%list, _)
                      | Throw _ => _
                      end] => apply (Hfinish t (Throw err)); cbn; lia
        end.
  match goal with
  | |- context [chat post repoId ?x] =>
      destruct (chat_trace post repoId x) as [H | [r H]];
        destruct (chat post repoId x) as [t c]; cbn [fst] in H; subst t;
        apply (Hfinish _ c); cbn; lia
  end.
Qed.

(** [sendMessage] on a question with text, up to the reply of the transport. *)
Lemma sendMessage_run
    (post : request -> completion value) (repoId : Z) (q : string)
    (options : value) :
  trim q <> "" ->
  UseChat.sendMessage post repoId (VStr q) options
  = let '(t, c) :=
      ([SetIsLoading true; SetError (VStr ""); Http (chat_request repoId q options)],
       bind (post (chat_request repoId q options))
            (fun response => getp response "data")) in
    match c with
    | Return response => ((t ++ [SetIsLoading false])%list, Return response)
    | Throw err =>
        match ErrorHandler.extractErrorMessage err with
        | Return errorMsg =>
            ((t ++ [ConsoleError; SetError errorMsg; SetIsLoading false])%list,
             Return VNull)
        | Throw e => ((t ++ [ConsoleError; SetIsLoading false])%list, Throw e)
        end
    end.
Proof.
  intros Hq. apply truthy_VStr in Hq.
  assert (Hq' : truthy (VStr q) = true).
  { apply truthy_VStr. intros ->. now apply truthy_VStr in Hq. }
  unfold UseChat.sendMessage.
  change (typeof (VStr q) =? "string") with true. rewrite Hq'.
  cbn [negb orb String_trim]. rewrite Hq. cbn [negb].
  unfold createChatRequest.
  change (typeof (VStr (trim q)) =? "string") with true. rewrite Hq.
  cbn [negb orb String_trim bind]. rewrite trim_idempotent, Hq. cbn [negb].
  unfold chat. change (truthy (VObj ?ps)) with true. cbn [negb orb typeof].
  change ("object" =? "object") with true. cbv iota.
  cbn [get lookup String.eqb Ascii.eqb Bool.eqb].
  rewrite trim_idempotent, Hq. cbn [negb orb]. unfold validatedRequest.
  cbn [get lookup String.eqb Ascii.eqb Bool.eqb].
  rewrite !coalesce_idempotent.
  fold (chat_request repoId q options). reflexivity.
Qed.

(** A question without text is answered with [null], whatever the transport. *)
Lemma sendMessage_invalid
    (post : request -> completion value) (repoId : Z) (question options : value) :
  (forall q, question = VStr q -> trim q = "") ->
  snd (UseChat.sendMessage post repoId question options) = Return VNull.
Proof.
  intros Hblank. unfold UseChat.sendMessage.
  destruct question as [| |b|n|s|l|ps]; try reflexivity.
  - destruct b; reflexivity.
  - destruct (negb (truthy (VNum n))); reflexivity.
  - change (typeof (VStr s) =? "string") with true.
    destruct (truthy (VStr s)); cbn [negb orb]; [|reflexivity].
    cbn [String_trim]. rewrite (Hblank s eq_refl). reflexivity.
Qed.

(** X11.  Whatever the question, the options and the transport: [sendMessage] ends
    by resetting the loading flag and hands at most one request to the
    transport.  It rejects in one case only: the question has text, the
    transport fails on the request posted for it, and [extractErrorMessage]
    throws on that failure; it then rejects with what [extractErrorMessage]
    threw. *)
Theorem sendMessage_always_settles
    (post : request -> completion value) (repoId : Z) (question options : value) :
  let '(t, c) := UseChat.sendMessage post repoId question options in
  last t ConsoleError = SetIsLoading false
  /\ List.length (requests t) <= 1
  /\ (forall e,
        c = Throw e <->
        exists q err,
          question = VStr q /\ trim q <> ""
          /\ post (chat_request repoId q options) = Throw err
          /\ ErrorHandler.extractErrorMessage err = Throw e).
Proof.
  pose proof (sendMessage_ends post repoId question options) as Hends.
  destruct (UseChat.sendMessage post repoId question options) as [t c] eqn:Hsend.
  destruct Hends as [Hlast Hreq]. split; [exact Hlast|]. split; [exact Hreq|].
  assert (Hc : snd (UseChat.sendMessage post repoId question options) = c)
    by now rewrite Hsend.
  clear Hsend Hlast Hreq. intros e.
  assert (Hcases : (forall q, question = VStr q -> trim q = "")
                   \/ exists q, question = VStr q /\ trim q <> "").
  { destruct question as [| |b|n|s|l|ps]; try (left; intros q; discriminate).
    destruct (string_dec (trim s) "") as [Hs | Hs].
    - left. intros q [= <-]. exact Hs.
    - right. now exists s. }
  destruct Hcases as [Hblank | [q [-> Hq]]].
  - rewrite (sendMessage_invalid post repoId question options Hblank) in Hc.
    subst c. split; [discriminate|].
    intros [q [err [-> [Hq _]]]]. now contradict Hq; apply Hblank.
  - rewrite (sendMessage_run post repoId q options Hq) in Hc. cbv zeta in Hc.
    destruct (post (chat_request repoId q options)) as [response|err] eqn:Hpost;
      cbn [bind] in Hc.
    + assert (Hret : exists v, c = Return v).
      { unfold getp in Hc. destruct (nullish response); cbn in Hc; subst c;
          eexists; reflexivity. }
      destruct Hret as [v ->]. split; [discriminate|].
      intros [q' [err [[= <-] [_ [Habs _]]]]]. congruence.
    + destruct (ErrorHandler.extractErrorMessage err) as [message|e'] eqn:Hmsg;
        cbn [snd] in Hc; subst c.
      * split; [discriminate|].
        intros [q' [err' [[= <-] [_ [Hpost' Hthrow]]]]]. congruence.
      * split.
        -- intros [= <-]. exists q, err. now repeat split.
        -- intros [q' [err' [[= <-] [_ [Hpost' Hthrow]]]]]. congruence.
Qed.

(** X12.  A question with text makes [sendMessage] post one request, the question
    trimmed and the missing options at their defaults, between setting and
    resetting the loading flag.  A reply is returned as its [data]; a failure
    of the transport is caught: the message extracted from it is stored and
    [null] is returned. *)
Theorem sendMessage_posts_trimmed_question
    (post : request -> completion value) (repoId : Z) (q : string)
    (options : value) :
  trim q <> "" ->
  (forall response,
     post (chat_request repoId q options) = Return response ->
     nullish response = false ->
     UseChat.sendMessage post repoId (VStr q) options
     = ([SetIsLoading true; SetError (VStr "");
         Http (chat_request repoId q options); SetIsLoading false],
        Return (get response "data")))
  /\ (forall err message,
        post (chat_request repoId q options) = Throw err ->
        ErrorHandler.extractErrorMessage err = Return message ->
        UseChat.sendMessage post repoId (VStr q) options
        = ([SetIsLoading true; SetError (VStr "");
            Http (chat_request repoId q options);
            ConsoleError; SetError message; SetIsLoading false],
           Return VNull)).
Proof.
  intros Hq. rewrite (sendMessage_run post repoId q options Hq). split.
  - intros response Hpost Hresp. rewrite Hpost.
    cbn [bind]. unfold getp. rewrite Hresp. reflexivity.
  - intros err message Hpost Hmsg. rewrite Hpost.
    cbn [bind]. now rewrite Hmsg.
Qed.

End Requests.

Lemma createChatRequest_is_posted_unchanged_witness :
  exists request,
    Api.createChatRequest (VStr "  why?  ") (VObj [("top_k", int 3)]) = Return request
    /\ request
       = VObj [ ("question", VStr "why?"); ("top_k", int 3);
               ("prompt_style", VStr "senior_dev");
               ("include_sources", VBool true);
               ("include_metadata", VBool true) ]
    /\ Api.chat (fun _ => Return (VObj [("data", VObj [])])) 7 request
       = ([Api.Http {| Api.method := "POST"; Api.url := "/repos/7/chat";
                       Api.body := request |}],
          Return (VObj [])).
Proof.
  exact (createChatRequest_is_posted_unchanged
           (fun _ => Return (VObj [("data", VObj [])])) 7 "  why?  "
           (VObj [("top_k", int 3)]) ltac:(vm_compute; discriminate)).
Defined.

Lemma blank_query_is_rejected_before_any_request_witness :
  ApiCalls.searchCode (fun _ => Return (VObj [("data", VObj [])])) 7
    (VObj [("query", VStr "   ")])
  = ([], Throw (Error "Search query is required"))
  /\ (exists message,
        ApiCalls.createSearchRequest (VStr "   ") VUndef = Throw (Error message)).
Proof.
  apply (blank_query_is_rejected_before_any_request
           (fun _ => Return (VObj [("data", VObj [])])) 7
           (VObj [("query", VStr "   ")]) VUndef "   ").
  - exists [" "; " "; " "]. split; [|reflexivity].
    repeat constructor; cbn; tauto.
  - reflexivity.
Defined.

Lemma sendMessage_posts_trimmed_question_witness :
  UseChat.sendMessage (fun _ => Return (VObj [("data", VStr "Because.")])) 7
    (VStr "  why?  ") VUndef
  = ([Api.SetIsLoading true; Api.SetError (VStr "");
      Api.Http (chat_request 7 "  why?  " VUndef); Api.SetIsLoading false],
     Return (VStr "Because.")).
Proof.
  refine (proj1 (sendMessage_posts_trimmed_question
                   (fun _ => Return (VObj [("data", VStr "Because.")])) 7
                   "  why?  " VUndef _)
            (VObj [("data", VStr "Because.")]) eq_refl eq_refl).
  vm_compute. discriminate.
Defined.

(** ** Search results and the search request ([lib/api/search.ts]) *)
Section SearchCalls.
Import Api SearchApi SearchClient.

Lemma truthy_not_nullish v : truthy v = true -> nullish v = false.
Proof.
  destruct v; cbn; congruence.
Qed.

Lemma or_else_not_nullish a b : nullish b = false -> nullish (or_else a b) = false.
Proof.
  intros Hb. unfold or_else. destruct (truthy a) eqn:Ha; [|assumption].
  now apply truthy_not_nullish.
Qed.

Lemma coalesce_undefined_not_null a : coalesce a VUndef <> VNull.
Proof.
  destruct a; discriminate.
Qed.

Lemma normalize_file_id_not_nullish file_id fileId :
  normalize_file_id file_id = Return fileId -> nullish fileId = false.
Proof.
  unfold normalize_file_id.
  set (v := match file_id with
            | VStr s => VNum (parseInt10 s)
            | _ => file_id
            end).
  destruct (isNaN v) as [nan|e]; cbn [bind]; [|discriminate].
  intros [= <-]. destruct (nan || nullish v) eqn:Hbad; [reflexivity|].
  now apply orb_false_elim in Hbad.
Qed.

(** X13.  Every field that the result type requires gets a value: for any
    result object whose [file_id] can be made a string, the transformation
    returns, and the
    transformed item has neither [undefined] nor [null] as its
    [fileId], [filePath], [snippet], [highlightedSnippet], [startLine],
    [endLine], [relevanceScore] or [language], its [matchType] is an array, an
    optional field that was [null] is [undefined], and a missing highlighted
    snippet is the plain snippet. *)
Theorem transformSearchResult_fills_defaults (apiResult : value) :
  nullish apiResult = false ->
  printable (get apiResult "file_id") = true ->
  exists item,
    transformSearchResult apiResult = Return item
    /\ forallb (fun v => negb (nullish v))
         [fileId item; filePath item; snippet item; highlightedSnippet item;
          startLine item; endLine item; relevanceScore item; language item] = true
    /\ Array_isArray (matchType item) = true
    /\ Forall (fun v => v <> VNull)
         [chunkId item; semanticScore item; keywordScore item; symbolScore item;
          symbolName item; symbolType item]
    /\ (truthy (get apiResult "highlighted_snippet") = false ->
          highlightedSnippet item = snippet item).
Proof.
  intros Hobj Hp. unfold transformSearchResult, getp. rewrite Hobj. cbn [bind].
  destruct (proj1 (normalize_file_id_decided _) Hp) as [v [Hv _]].
  rewrite Hv. cbn [bind].
  eexists. split; [reflexivity|].
  cbn [fileId filePath snippet highlightedSnippet startLine endLine relevanceScore
       language matchType chunkId semanticScore keywordScore symbolScore symbolName
       symbolType forallb].
  split; [|split; [|split]].
  - rewrite (normalize_file_id_not_nullish _ _ Hv), !or_else_not_nullish
      by reflexivity.
    reflexivity.
  - destruct (Array_isArray (get apiResult "match_type")) eqn:Harr;
      [assumption | reflexivity].
  - repeat constructor; apply coalesce_undefined_not_null.
  - intros Hh. unfold or_else at 2. now rewrite Hh.
Qed.

Lemma transformSearchResult_ok apiResult :
  transformable apiResult = true ->
  exists item, transformSearchResult apiResult = Return item
               /\ fileId item <> VNum NaN /\ nullish (fileId item) = false.
Proof.
  unfold transformable. intros H. apply andb_prop in H as [Hobj Hp].
  apply negb_true_iff in Hobj.
  unfold transformSearchResult, getp. rewrite Hobj. cbn [bind].
  destruct (proj1 (normalize_file_id_decided _) Hp) as [v [Hv Hnan]].
  rewrite Hv. cbn [bind].
  eexists. split; [reflexivity|]. cbn [fileId].
  split; [exact Hnan | exact (normalize_file_id_not_nullish _ _ Hv)].
Qed.

Lemma transformSearchResult_throws apiResult :
  transformable apiResult = false -> transformSearchResult apiResult = Throw TypeError.
Proof.
  unfold transformable, transformSearchResult, getp. intros H.
  destruct (nullish apiResult); [reflexivity|]. cbn [negb andb bind] in *.
  now rewrite (proj2 (normalize_file_id_decided _) H).
Qed.

Lemma Array_map_transform items :
  forallb transformable items = true ->
  exists items',
    ErrorHandler.Array_map transformSearchResult items = Return items'
    /\ Forall2 (fun x item => transformSearchResult x = Return item) items items'
    /\ Forall (fun item => fileId item <> VNum NaN /\ nullish (fileId item) = false)
         items'.
Proof.
  induction items as [|x items IH]; intros Hall.
  - exists []. repeat split; constructor.
  - cbn [forallb] in Hall. apply andb_prop in Hall as [Hx Hall].
    destruct (transformSearchResult_ok x Hx) as [item [Hitem Hid]].
    destruct (IH Hall) as [items' [Hmap [Hlen Hids]]].
    exists (item :: items'). cbn [ErrorHandler.Array_map]. rewrite Hitem. cbn [bind].
    rewrite Hmap. cbn [bind]. repeat split; now constructor.
Qed.

Lemma Array_map_transform_throws items :
  forallb transformable items = false ->
  ErrorHandler.Array_map transformSearchResult items = Throw TypeError.
Proof.
  induction items as [|x items IH]; [discriminate|].
  cbn [forallb ErrorHandler.Array_map]. destruct (transformable x) eqn:Hx.
  - destruct (transformSearchResult_ok x Hx) as [item [-> _]]. cbn [andb bind].
    intros Hall. now rewrite (IH Hall).
  - intros _. now rewrite (transformSearchResult_throws x Hx).
Qed.

(** X14.  A reply whose [results] is an array of results that can be
    transformed is transformed entry by
    entry: [searchApi.search] issues one request and resolves with the
    transformed results in the order of the reply, each with a [fileId] that
    is neither [NaN], [null] nor [undefined], and with the total of the
    reply.  One result that cannot be transformed makes the whole call
    reject with a [TypeError], and so does a reply whose [results] is not an
    array. *)
Theorem search_transforms_every_result
    (get_ : request -> completion value) (repoId : Z) (q : string)
    (options response apiData : value) :
  options <> VNull ->
  get_ (search_request repoId q options) = Return response ->
  getp response "data" = Return apiData ->
  (forall items,
     nullish apiData = false ->
     get apiData "results" = VArr items ->
     (forallb transformable items = true ->
      exists result,
        search get_ repoId q options
        = ([Http (search_request repoId q options)], Return result)
        /\ Forall2 (fun x item => transformSearchResult x = Return item)
             items (results result)
        /\ Forall (fun item => fileId item <> VNum NaN
                               /\ nullish (fileId item) = false)
             (results result)
        /\ totalResults result = get apiData "total_results")
     /\ (forallb transformable items = false ->
         search get_ repoId q options
         = ([Http (search_request repoId q options)], Throw TypeError)))
  /\ (Array_isArray (get apiData "results") = false ->
        search get_ repoId q options
        = ([Http (search_request repoId q options)], Throw TypeError)).
Proof.
  intros Hopt Hget Hdata.
  replace (search get_ repoId q options)
    with ([Http (search_request repoId q options)],
          bind (get_ (search_request repoId q options)) (fun response =>
          bind (getp response "data") transform_response))
    by (destruct options; try reflexivity; now contradict Hopt).
  rewrite Hget. cbn [bind]. rewrite Hdata.
  cbn [bind]. unfold transform_response, getp. split.
  - intros items Hobj Hres. rewrite Hobj, Hres. cbn [bind]. split.
    + intros Hall.
      destruct (Array_map_transform items Hall) as [items' [Hmap [Hlen Hids]]].
      rewrite Hmap. cbn [bind]. eexists. split; [reflexivity|].
      cbn [results totalResults]. now repeat split.
    + intros Hbad. now rewrite (Array_map_transform_throws items Hbad).
  - intros Hnot. destruct (nullish apiData); [reflexivity|]. cbn [bind].
    destruct (get apiData "results"); try reflexivity. discriminate.
Qed.

Lemma lookup_obj_set_other k k' v ps :
  k' <> k -> lookup k (obj_set k' v ps) = lookup k ps.
Proof.
  intros Hne. apply String.eqb_neq in Hne.
  induction ps as [|[k0 v0] ps IH]; cbn [obj_set lookup].
  - now rewrite Hne.
  - destruct (k0 =? k') eqn:Hk0.
    + apply String.eqb_eq in Hk0. subst. cbn [lookup]. now rewrite Hne.
    + destruct (precedes k' k0 && negb (has_own k' ps)); cbn [lookup].
      * now rewrite Hne.
      * now rewrite IH.
Qed.

Lemma lookup_spread k fs :
  forallb (fun kv => negb (fst kv =? k)) fs = true ->
  forall ps,
    lookup k (fold_left (fun ps kv => obj_set (fst kv) (snd kv) ps) fs ps)
    = lookup k ps.
Proof.
  induction fs as [|[k' v'] fs IH]; intros Hall ps; [reflexivity|].
  cbn [forallb fst] in Hall. apply andb_prop in Hall as [Hk Hall].
  apply negb_true_iff, String.eqb_neq in Hk.
  cbn [fold_left fst snd]. rewrite IH by assumption.
  now apply lookup_obj_set_other.
Qed.

(** A decimal numeral starts with a digit. *)
Lemma digits_first n : exists a r, digits n = String a r /\ is_digit a = true.
Proof.
  unfold digits. destruct (N.to_uint n); cbn; eexists; eexists; split; reflexivity.
Qed.

Lemma indexed_keys k i l :
  In k reserved_params -> forallb (fun kv => negb (fst kv =? k)) (indexed i l) = true.
Proof.
  intros Hk. revert i. induction l as [|x l IH]; intros i; [reflexivity|].
  cbn [indexed forallb fst]. rewrite IH, andb_true_r.
  destruct (digits_first i) as [a [r [-> Ha]]].
  cbn in Hk. destruct Hk as [<- | [<- | [<- | [<- | []]]]];
    cbn [String.eqb]; destruct (Ascii.eqb_spec a "q"); subst;
    try reflexivity; try discriminate;
    destruct (Ascii.eqb_spec a "m"); subst; try reflexivity; try discriminate;
    destruct (Ascii.eqb_spec a "p"); subst; try reflexivity; discriminate.
Qed.

Lemma reserved_free_key filters k :
  reserved_free filters = true -> In k reserved_params ->
  forallb (fun kv => negb (fst kv =? k)) (spread_properties filters) = true.
Proof.
  intros Hfree Hk. destruct filters as [| |b|n|s|l|fs]; try reflexivity.
  - now apply indexed_keys.
  - now apply indexed_keys.
  - cbn [reserved_free spread_properties] in *. rewrite forallb_forall in *.
    intros kv Hkv. specialize (Hfree kv Hkv). apply negb_true_iff in Hfree.
    apply negb_true_iff. destruct (fst kv =? k) eqn:Heq; [|reflexivity].
    apply String.eqb_eq in Heq. subst k.
    assert (existsb (String.eqb (fst kv)) reserved_params = true); [|congruence].
    apply existsb_exists. exists (fst kv). split; [assumption | apply String.eqb_refl].
Qed.

Lemma search_params_lookup q mode page perPage filters :
  reserved_free filters = true ->
  get (UseCodeSearch.search_params q mode page perPage filters) "q" = VStr q
  /\ get (UseCodeSearch.search_params q mode page perPage filters) "mode"
     = or_else mode (VStr "auto")
  /\ get (UseCodeSearch.search_params q mode page perPage filters) "page"
     = or_else page (int 1)
  /\ get (UseCodeSearch.search_params q mode page perPage filters) "per_page"
     = or_else perPage (int 20).
Proof.
  intros Hfree. unfold UseCodeSearch.search_params. cbn [get].
  assert (H : forall k, In k reserved_params ->
    lookup k (fold_left (fun ps kv => obj_set (fst kv) (snd kv) ps)
                (spread_properties filters)
                [("q", VStr q); ("mode", or_else mode (VStr "auto"));
                 ("page", or_else page (int 1));
                 ("per_page", or_else perPage (int 20))])
    = lookup k [("q", VStr q); ("mode", or_else mode (VStr "auto"));
                ("page", or_else page (int 1));
                ("per_page", or_else perPage (int 20))]).
  { intros k Hk. pose proof (reserved_free_key filters k Hfree Hk) as Hkey.
    now apply lookup_spread. }
  repeat split; rewrite H by (cbn; tauto); reflexivity.
Qed.

(** X15.  The request of [searchApi.search] always names a page and a page size:
    a page or page size that is missing, 0, [null] or [NaN] is sent as 1 and
    20, a missing mode as [auto], and the query is sent as given, as long as
    the filters do not define these parameters themselves. *)
Theorem search_request_defaults
    (get_ : request -> completion value) (repoId : Z) (q : string)
    (options : value) :
  options <> VNull ->
  reserved_free (get options "filters") = true ->
  exists params,
    fst (search get_ repoId q options)
    = [Http {| method := "GET";
               url := "/repos/" ++ Number_toString (Num repoId 0) ++ "/search";
               body := params |}]
    /\ get params "q" = VStr q
    /\ get params "mode" = or_else (get options "mode") (VStr "auto")
    /\ get params "page" = or_else (get options "page") (int 1)
    /\ get params "per_page" = or_else (get options "perPage") (int 20)
    /\ truthy (get params "mode") = true
    /\ truthy (get params "page") = true
    /\ truthy (get params "per_page") = true.
Proof.
  intros Hopt Hfree. exists (body (search_request repoId q options)).
  split; [destruct options; try reflexivity; now contradict Hopt|].
  cbn [search_request body].
  destruct (search_params_lookup q (get options "mode") (get options "page")
              (get options "perPage") (get options "filters") Hfree)
    as [Hq [Hm [Hp Hs]]].
  rewrite Hq, Hm, Hp, Hs. repeat split;
    unfold or_else;
    match goal with
    | |- context [truthy ?v] => destruct (truthy v) eqn:Hv; [now rewrite Hv | reflexivity]
    end.
Qed.

End SearchCalls.

Lemma transformSearchResult_fills_defaults_witness :
  exists item,
    SearchApi.transformSearchResult (VObj [("file_id", VStr "42")]) = Return item
    /\ SearchApi.fileId item = int 42
    /\ SearchApi.filePath item = VStr ""
    /\ SearchApi.language item = VStr "text"
    /\ SearchApi.matchType item = VArr []
    /\ SearchApi.highlightedSnippet item = SearchApi.snippet item.
Proof.
  destruct (transformSearchResult_fills_defaults (VObj [("file_id", VStr "42")])
              eq_refl eq_refl) as [item [Hitem [_ [_ [_ Hsnippet]]]]].
  exists item. split; [exact Hitem|].
  vm_compute in Hitem. injection Hitem as <-. repeat split.
Defined.

Lemma search_transforms_every_result_witness :
  exists result,
    SearchClient.search (fun _ => Return (VObj [("data", reply_B)])) 7 "auth" VUndef
    = ([Api.Http (SearchClient.search_request 7 "auth" VUndef)], Return result)
    /\ map SearchApi.fileId (SearchClient.results result) = [int 20; int 21]
    /\ SearchClient.totalResults result = int 2.
Proof.
  destruct (proj1 (proj1 (search_transforms_every_result
                            (fun _ => Return (VObj [("data", reply_B)])) 7 "auth"
                            VUndef (VObj [("data", reply_B)]) reply_B
                            ltac:(discriminate) eq_refl eq_refl)
                     [VObj [("file_id", int 20); ("file_path", VStr "login.ts")];
                      VObj [("file_id", int 21); ("file_path", VStr "logout.ts")]]
                     eq_refl eq_refl) eq_refl)
    as [result [Hsearch [Hitems [_ Htotal]]]].
  exists result. split; [exact Hsearch|]. split; [|exact Htotal].
  destruct (SearchClient.results result) as [|i1 [|i2 [|i3 rest]]];
    inversion Hitems as [|x1 y1 l1 l1' E1 R1]; subst;
    inversion R1 as [|x2 y2 l2 l2' E2 R2]; subst;
    inversion R2; subst.
  vm_compute in E1, E2. injection E1 as <-. injection E2 as <-. reflexivity.
Defined.

Lemma search_request_defaults_witness :
  exists params,
    fst (SearchClient.search (fun _ => Return (VObj [("data", reply_B)])) 7 "auth"
           (VObj [("page", int 0); ("filters", VObj [("lang", VStr "ts")])]))
    = [Api.Http {| Api.method := "GET"; Api.url := "/repos/7/search";
                   Api.body := params |}]
    /\ get params "q" = VStr "auth"
    /\ get params "mode" = VStr "auto"
    /\ get params "page" = int 1
    /\ get params "per_page" = int 20
    /\ truthy (get params "mode") = true
    /\ truthy (get params "page") = true
    /\ truthy (get params "per_page") = true.
Proof.
  exact (search_request_defaults (fun _ => Return (VObj [("data", reply_B)])) 7 "auth"
           (VObj [("page", int 0); ("filters", VObj [("lang", VStr "ts")])])
           ltac:(discriminate) eq_refl).
Defined.

(** ** The search session beyond the overtaking reply ([useCodeSearch]) *)
Section SearchSessionMore.
Import JsOps UseCodeSearch UseCodeSearchNav.
Variable repoId : Z.

Lemma or_else_truthy a b : truthy b = true -> truthy (or_else a b) = true.
Proof.
  intros Hb. unfold or_else. destruct (truthy a) eqn:Ha; assumption.
Qed.

Lemma search_nonblank st q searchOptions :
  trim q <> "" ->
  search repoId st (VStr q) searchOptions
  = {| query := query st; results := results st; totalResults := totalResults st;
       isLoading := true; error := VNull; latency := latency st;
       currentPage := currentPage st; mode := mode st; filters := filters st;
       perPage := perPage st; issued := S (issued st);
       in_flight := (in_flight st
                       ++ [(issued st, hook_request repoId st (trim q) searchOptions)])%list |}.
Proof.
  intros Hq. unfold search.
  change (typeof (VStr q) =? "string") with true. cbv iota.
  apply truthy_VStr in Hq. rewrite Hq. reflexivity.
Qed.

Lemma search_blank st q searchOptions :
  trim q = "" ->
  search repoId st (VStr q) searchOptions
  = {| query := query st; results := VArr []; totalResults := int 0;
       isLoading := isLoading st; error := error st; latency := latency st;
       currentPage := currentPage st; mode := mode st; filters := filters st;
       perPage := perPage st; issued := issued st; in_flight := in_flight st |}.
Proof.
  intros Hq. unfold search.
  change (typeof (VStr q) =? "string") with true. cbv iota. now rewrite Hq.
Qed.

Lemma is_in_flight_last st n r :
  is_in_flight n
    {| query := query st; results := results st; totalResults := totalResults st;
       isLoading := true; error := VNull; latency := latency st;
       currentPage := currentPage st; mode := mode st; filters := filters st;
       perPage := perPage st; issued := S (issued st);
       in_flight := (in_flight st ++ [(n, r)])%list |} = true.
Proof.
  apply is_in_flight_iff. exists r. cbn [in_flight]. apply in_or_app. right. now left.
Qed.

(** X16.  Clearing the query does not cancel a search: a blank query empties the
    display and issues no request, but the request still in flight is left
    alone, and what its reply holds fills the display again when it
    arrives. *)
Theorem blank_query_does_not_cancel
    (st0 : state) (qA blank : string) (optsA opts dataA : value) :
  trim qA <> "" ->
  whitespace_only blank ->
  nullish dataA = false ->
  let st2 := run repoId st0 [Search (VStr qA) optsA; Search (VStr blank) opts] in
  visible st2 = (VArr [], int 0)
  /\ outstanding st2 = (outstanding st0 ++ [issued st0])%list
  /\ visible (step repoId st2 (Resolved (issued st0) dataA)) = shown dataA.
Proof.
  intros HqA Hblank HA st2. apply trim_whitespace_only in Hblank.
  assert (Hst2 : visible st2 = (VArr [], int 0)
                 /\ in_flight st2
                    = (in_flight st0
                         ++ [(issued st0, hook_request repoId st0 (trim qA) optsA)])%list).
  { subst st2. unfold run. cbn [fold_left step].
    rewrite (search_nonblank st0 qA optsA HqA).
    rewrite search_blank by assumption. now split. }
  destruct Hst2 as [Hvis Hfl]. split; [assumption|]. split.
  - unfold outstanding. rewrite Hfl. now rewrite map_app.
  - apply (proj1 (resolved_response_is_applied repoId st2 (issued st0) dataA
                    ltac:(apply is_in_flight_iff; eexists; rewrite Hfl;
                          apply in_or_app; right; now left) HA)).
Qed.

(** X17.  A failure that arrives late wipes newer results: when query A fails after
    the reply to the later query B has been shown, the display is emptied and
    an error is set, although B succeeded. *)
Theorem late_failure_wipes_results
    (st0 : state) (qA qB : string) (optsA optsB dataB err : value) :
  trim qA <> "" -> trim qB <> "" ->
  nullish dataB = false ->
  nullish err = false ->
  let a := issued st0 in
  let b := S (issued st0) in
  let st := run repoId st0 [Search (VStr qA) optsA; Search (VStr qB) optsB;
                            Resolved b dataB; Rejected a err] in
  visible st = (VArr [], int 0)
  /\ truthy (error st) = true
  /\ isLoading st = false.
Proof.
  intros HqA HqB HB Herr a b. unfold run. cbn [fold_left step].
  rewrite (search_nonblank st0 qA optsA HqA).
  rewrite search_nonblank by assumption.
  match goal with
  | |- context [is_in_flight b ?s] =>
      replace (is_in_flight b s) with true
        by (symmetry; apply is_in_flight_iff; eexists; cbn [in_flight issued];
            apply in_or_app; right; now left)
  end.
  rewrite HB.
  match goal with
  | |- context [is_in_flight a ?s] =>
      replace (is_in_flight a s) with true
  end.
  2:{ symmetry. apply is_in_flight_iff. eexists. cbn [in_flight apply_response].
      unfold settle. cbn [in_flight issued]. apply filter_In. split.
      - apply in_or_app. left. apply in_or_app. right. now left.
      - cbn [fst]. apply negb_true_iff, Nat.eqb_neq. unfold a, b. lia. }
  unfold apply_failure, getp. rewrite Herr. cbn zeta.
  cbn [error results totalResults isLoading visible].
  repeat split. now apply or_else_truthy.
Qed.

(** X18.  The loading flag follows the last reply, not the requests outstanding:
    after the reply to A, the flag is off although B is still in flight. *)
Theorem loading_flag_ignores_outstanding
    (st0 : state) (qA qB : string) (optsA optsB dataA : value) :
  trim qA <> "" -> trim qB <> "" ->
  let a := issued st0 in
  let b := S (issued st0) in
  let st := run repoId st0 [Search (VStr qA) optsA; Search (VStr qB) optsB;
                            Resolved a dataA] in
  isLoading st = false /\ In b (outstanding st).
Proof.
  intros HqA HqB a b. unfold run. cbn [fold_left step].
  rewrite (search_nonblank st0 qA optsA HqA).
  rewrite search_nonblank by assumption.
  match goal with
  | |- context [is_in_flight a ?s] =>
      replace (is_in_flight a s) with true
        by (symmetry; apply is_in_flight_iff; eexists; cbn [in_flight issued];
            apply in_or_app; left; apply in_or_app; right; now left)
  end.
  assert (Hb : forall l : list (nat * Api.request), forall r,
            In b (map fst (filter (fun p => negb (Nat.eqb (fst p) a))
                             ((l ++ [(a, r)]) ++ [(b, hook_request repoId
                                  {| query := query st0; results := results st0;
                                     totalResults := totalResults st0;
                                     isLoading := true; error := VNull;
                                     latency := latency st0;
                                     currentPage := currentPage st0; mode := mode st0;
                                     filters := filters st0; perPage := perPage st0;
                                     issued := S (issued st0);
                                     in_flight := (l ++ [(a, r)])%list |}
                                  (trim qB) optsB)])%list))).
  { intros l r. apply in_map_iff. eexists (b, _). split; [reflexivity|].
    apply filter_In. split; [apply in_or_app; right; now left|].
    cbn [fst]. apply negb_true_iff, Nat.eqb_neq. unfold a, b. lia. }
  destruct (nullish dataA).
  - unfold apply_failure. cbn [getp nullish TypeError].
    cbn [isLoading outstanding in_flight]. split; [reflexivity|].
    unfold settle; cbn [in_flight issued]; apply Hb.
  - cbn [apply_response isLoading outstanding in_flight]. split; [reflexivity|].
    unfold settle. cbn [in_flight issued]. apply Hb.
Qed.

(** X19.  A reply is stored unchecked.  From a reply that is an object the
    hook takes [results] and [totalResults] as they are: when [results] is not
    an array, what is not an array becomes the list of results, and no error
    is set; a reply without [totalResults] leaves the total [undefined].
    Only a reply that is [null] or [undefined] takes the
    failure path, which empties the display and sets an error. *)
Theorem reply_is_stored_unchecked (st : state) (n : nat) (apiData : value) :
  is_in_flight n st = true ->
  let st' := step repoId st (Resolved n apiData) in
  (nullish apiData = false ->
   results st' = get apiData "results"
   /\ totalResults st' = get apiData "totalResults"
   /\ error st' = error st
   /\ (Array_isArray (get apiData "results") = false ->
       Array_isArray (results st') = false))
  /\ (nullish apiData = true ->
      visible st' = (VArr [], int 0) /\ truthy (error st') = true)
  /\ isLoading st' = false
  /\ ~ In n (outstanding st').
Proof.
  intros Hn st'. subst st'. cbn [step]. rewrite Hn.
  assert (Hout : forall s, in_flight s = settle n st -> ~ In n (outstanding s)).
  { intros s Hs. unfold outstanding. rewrite Hs. unfold settle.
    intros Hin. apply in_map_iff in Hin as [[m r] [Hm Hin]].
    cbn [fst] in Hm. subst m. apply filter_In in Hin as [_ Hneq].
    cbn [fst] in Hneq. now rewrite Nat.eqb_refl in Hneq. }
  destruct (nullish apiData).
  - unfold apply_failure. cbn [getp nullish TypeError].
    split; [discriminate|]. split; [now intros _|].
    split; [reflexivity | now apply Hout].
  - split.
    + intros _. cbn [apply_response results totalResults error].
      repeat split; trivial.
    + split; [discriminate|]. split; [reflexivity | now apply Hout].
Qed.

(** An integer of magnitude up to [2 ^ 53] is its own value. *)
Lemma fraction_of_safe a : (Z.abs a <= 2 ^ 53)%Z -> fraction_of a 0 = Some (a, 1%Z).
Proof.
  intros Ha. unfold fraction_of. destruct (Z.eqb_spec a 0) as [-> | _]; [reflexivity|].
  apply Z.leb_le in Ha. now rewrite Ha.
Qed.

Lemma extended_safe a : (Z.abs a <= 2 ^ 53)%Z -> extended (Num a 0) = Num a 0.
Proof.
  intros Ha. unfold extended. now rewrite fraction_of_safe.
Qed.

Lemma Num_add_int a b :
  (Z.abs a <= 2 ^ 53)%Z -> (Z.abs b <= 2 ^ 53)%Z -> (Z.abs (a + b) <= 2 ^ 53)%Z ->
  Num_add (Num a 0) (Num b 0) = Num (a + b) 0.
Proof.
  intros Ha Hb Hsum. unfold Num_add.
  rewrite !extended_safe, !fraction_of_safe by assumption.
  rewrite !Z.mul_1_r. unfold of_fraction.
  destruct (Z.eqb_spec (a + b) 0) as [-> | _]; [reflexivity|].
  apply Z.leb_le in Hsum. now rewrite Hsum.
Qed.

Lemma Num_ltb_int a b :
  (Z.abs a <= 2 ^ 53)%Z -> (Z.abs b <= 2 ^ 53)%Z ->
  Num_ltb (Num a 0) (Num b 0) = (a <? b)%Z.
Proof.
  intros Ha Hb. unfold Num_ltb.
  rewrite !extended_safe, !fraction_of_safe by assumption.
  now rewrite !Z.mul_1_r.
Qed.

Lemma hook_request_params st q searchOptions :
  reserved_free (or_else (get_opt searchOptions "filters") (filters st)) = true ->
  get (Api.body (hook_request repoId st q searchOptions)) "q" = VStr q
  /\ get (Api.body (hook_request repoId st q searchOptions)) "mode"
     = or_else (or_else (get_opt searchOptions "mode") (mode st)) (VStr "auto")
  /\ get (Api.body (hook_request repoId st q searchOptions)) "page"
     = or_else (or_else (get_opt searchOptions "page") (currentPage st)) (int 1).
Proof.
  intros Hfree. cbn [hook_request Api.body].
  destruct (search_params_lookup q
              (or_else (get_opt searchOptions "mode") (mode st))
              (or_else (get_opt searchOptions "page") (currentPage st))
              (or_else (or_else (get_opt searchOptions "perPage") (perPage st)) (int 20))
              (or_else (get_opt searchOptions "filters") (filters st)) Hfree)
    as [Hq [Hm [Hp _]]].
  now rewrite Hq, Hm, Hp.
Qed.

(** X20.  Changing the mode starts again at page 1: with a query in the box,
    [updateMode] sets the mode and page 1 in the state and at once issues one
    request for page 1 in the new mode. *)
Theorem updateMode_restarts_at_page_one (st : state) (q : string) (newMode : value) :
  query st = VStr q -> trim q <> "" ->
  reserved_free (filters st) = true ->
  truthy newMode = true ->
  let st' := updateMode repoId st newMode in
  currentPage st' = int 1
  /\ mode st' = newMode
  /\ isLoading st' = true
  /\ exists r,
       in_flight st' = (in_flight st ++ [(issued st, r)])%list
       /\ get (Api.body r) "q" = VStr (trim q)
       /\ get (Api.body r) "mode" = newMode
       /\ get (Api.body r) "page" = int 1.
Proof.
  intros Hquery Hq Hfree Hmode st'. subst st'. unfold updateMode.
  rewrite Hquery, search_nonblank by assumption.
  cbn [setCurrentPage setMode currentPage mode isLoading in_flight].
  repeat split. eexists. split; [reflexivity|].
  destruct (hook_request_params st (trim q)
              (VObj [("mode", newMode); ("page", int 1)])) as [H1 [H2 H3]];
    [exact Hfree|].
  rewrite H1, H2, H3. cbn [get_opt nullish get lookup String.eqb Ascii.eqb Bool.eqb].
  unfold or_else. rewrite Hmode, Hmode. now repeat split.
Qed.

(** X21.  Changing the filters starts again at page 1 too: [updateFilters] stores
    the new filters, sets page 1 and at once issues one request for page 1. *)
Theorem updateFilters_restarts_at_page_one
    (st : state) (q : string) (newFilters : value) :
  query st = VStr q -> trim q <> "" ->
  truthy newFilters = true ->
  reserved_free newFilters = true ->
  let st' := updateFilters repoId st newFilters in
  currentPage st' = int 1
  /\ filters st' = newFilters
  /\ exists r,
       in_flight st' = (in_flight st ++ [(issued st, r)])%list
       /\ get (Api.body r) "q" = VStr (trim q)
       /\ get (Api.body r) "page" = int 1.
Proof.
  intros Hquery Hq Htruthy Hfree st'. subst st'. unfold updateFilters.
  rewrite Hquery, search_nonblank by assumption.
  cbn [setCurrentPage setFilters currentPage filters in_flight].
  repeat split. eexists. split; [reflexivity|].
  destruct (hook_request_params st (trim q)
              (VObj [("filters", newFilters); ("page", int 1)])) as [H1 [_ H3]].
  { cbn [get_opt nullish get lookup String.eqb Ascii.eqb Bool.eqb].
    unfold or_else. now rewrite Htruthy. }
  rewrite H1, H3. now split.
Qed.

(** X22.  Page navigation from page [n], pages counting from 1 (and below [2 ^ 53],
    where adding 1 is exact): [nextPage] moves to
    page [n + 1] and requests it, whatever the number of results;
    [prevPage] does nothing on page 1 and otherwise moves to page [n - 1] and
    requests it; [goToPage] with a falsy page (0, say) stores that page but
    requests the page that was current. *)
Theorem page_navigation (st : state) (q : string) (n : Z) :
  query st = VStr q -> trim q <> "" ->
  reserved_free (filters st) = true ->
  currentPage st = int n -> (1 <= n < 2 ^ 53)%Z ->
  (currentPage (nextPage repoId st) = int (n + 1)
   /\ exists r,
        in_flight (nextPage repoId st) = (in_flight st ++ [(issued st, r)])%list
        /\ get (Api.body r) "page" = int (n + 1))
  /\ (n = 1%Z -> prevPage repoId st = Some st)
  /\ ((1 < n)%Z ->
      exists st',
        prevPage repoId st = Some st'
        /\ currentPage st' = int (n - 1)
        /\ exists r,
             in_flight st' = (in_flight st ++ [(issued st, r)])%list
             /\ get (Api.body r) "page" = int (n - 1))
  /\ (forall page,
        truthy page = false ->
        currentPage (goToPage repoId st page) = page
        /\ exists r,
             in_flight (goToPage repoId st page)
             = (in_flight st ++ [(issued st, r)])%list
             /\ get (Api.body r) "page" = int n).
Proof.
  intros Hquery Hq Hfree Hpage [Hn Hsafe].
  assert (Hreq : forall page,
    get (Api.body (hook_request repoId st (trim q) (VObj [("page", page)]))) "page"
    = or_else (or_else page (int n)) (int 1)).
  { intros page.
    destruct (hook_request_params st (trim q) (VObj [("page", page)]))
      as [_ [_ H3]]; [exact Hfree|].
    rewrite H3. cbn [get_opt nullish get lookup String.eqb Ascii.eqb Bool.eqb].
    now rewrite Hpage. }
  assert (Htruthy : forall m, (1 <= m)%Z -> or_else (or_else (int m) (int n)) (int 1) = int m).
  { intros m Hm.
    assert (Ht : truthy (int m) = true).
    { unfold int. cbn [truthy]. apply negb_true_iff, Z.eqb_neq. lia. }
    unfold or_else. now rewrite Ht, Ht. }
  split; [|split; [|split]].
  - unfold nextPage. rewrite Hquery, Hpage.
    unfold plus, int. cbn [ToPrimitive ToNumber_primitive bind].
    rewrite Num_add_int by lia.
    rewrite search_nonblank by assumption. cbn [setCurrentPage currentPage in_flight].
    split; [reflexivity|]. eexists. split; [reflexivity|].
    change (VNum (Num (n + 1) 0)) with (int (n + 1)).
    rewrite Hreq. apply Htruthy. lia.
  - intros ->. unfold prevPage. rewrite Hpage. reflexivity.
  - intros Hgt. unfold prevPage. rewrite Hpage, Hquery.
    unfold ToNumber, int. cbn [ToPrimitive ToNumber_primitive bind].
    rewrite Num_ltb_int by lia. apply Z.ltb_lt in Hgt. rewrite Hgt.
    cbn [Num_neg]. rewrite Num_add_int by lia.
    replace (n + - (1))%Z with (n - 1)%Z by lia.
    rewrite search_nonblank by assumption. eexists. split; [reflexivity|].
    cbn [setCurrentPage currentPage in_flight].
    split; [reflexivity|]. eexists. split; [reflexivity|].
    change (VNum (Num (n - 1) 0)) with (int (n - 1)).
    rewrite Hreq. apply Z.ltb_lt in Hgt. apply Htruthy. lia.
  - intros page Hfalsy. unfold goToPage. rewrite Hquery.
    rewrite search_nonblank by assumption. cbn [setCurrentPage currentPage in_flight].
    split; [reflexivity|]. eexists. split; [reflexivity|].
    rewrite Hreq. unfold or_else at 2. rewrite Hfalsy.
    assert (Ht : truthy (int n) = true).
    { unfold int. cbn [truthy]. apply negb_true_iff, Z.eqb_neq. lia. }
    unfold or_else. now rewrite Ht.
Qed.

End SearchSessionMore.

Lemma blank_query_does_not_cancel_witness :
  let st2 := UseCodeSearch.run 1 (UseCodeSearch.initial (VStr "") (VObj []))
               [UseCodeSearch.Search (VStr "auth") VUndef;
                UseCodeSearch.Search (VStr "   ") VUndef] in
  visible st2 = (VArr [], int 0)
  /\ outstanding st2 = [0]
  /\ visible (UseCodeSearch.step 1 st2 (UseCodeSearch.Resolved 0 reply_A))
     = (VArr [VObj [("file_id", int 10); ("file_path", VStr "auth.ts")]], VUndef).
Proof.
  assert (Hblank : whitespace_only "   ").
  { exists [" "; " "; " "]. split; [|reflexivity].
    repeat constructor; cbn; tauto. }
  exact (blank_query_does_not_cancel 1
           (UseCodeSearch.initial (VStr "") (VObj [])) "auth" "   "
           VUndef VUndef reply_A ltac:(vm_compute; discriminate) Hblank eq_refl).
Defined.

Lemma late_failure_wipes_results_witness :
  let st := UseCodeSearch.run 1 (UseCodeSearch.initial (VStr "") (VObj []))
              [UseCodeSearch.Search (VStr "auth") VUndef;
               UseCodeSearch.Search (VStr "login") VUndef;
               UseCodeSearch.Resolved 1 reply_B;
               UseCodeSearch.Rejected 0 network_error] in
  visible st = (VArr [], int 0)
  /\ truthy (UseCodeSearch.error st) = true
  /\ UseCodeSearch.isLoading st = false.
Proof.
  exact (late_failure_wipes_results 1
           (UseCodeSearch.initial (VStr "") (VObj [])) "auth" "login"
           VUndef VUndef reply_B network_error
           ltac:(vm_compute; discriminate) ltac:(vm_compute; discriminate)
           eq_refl eq_refl).
Defined.

Lemma loading_flag_ignores_outstanding_witness :
  let st := UseCodeSearch.run 1 (UseCodeSearch.initial (VStr "") (VObj []))
              [UseCodeSearch.Search (VStr "auth") VUndef;
               UseCodeSearch.Search (VStr "login") VUndef;
               UseCodeSearch.Resolved 0 reply_A] in
  UseCodeSearch.isLoading st = false /\ In 1 (outstanding st).
Proof.
  exact (loading_flag_ignores_outstanding 1
           (UseCodeSearch.initial (VStr "") (VObj [])) "auth" "login"
           VUndef VUndef reply_A
           ltac:(vm_compute; discriminate) ltac:(vm_compute; discriminate)).
Defined.

Lemma reply_is_stored_unchecked_witness :
  let st' := UseCodeSearch.step 1
               (UseCodeSearch.run 1 (UseCodeSearch.initial (VStr "") (VObj []))
                  [UseCodeSearch.Search (VStr "auth") VUndef])
               (UseCodeSearch.Resolved 0 (VObj [("total_results", int 0)])) in
  UseCodeSearch.results st' = VUndef
  /\ UseCodeSearch.totalResults st' = VUndef
  /\ UseCodeSearch.error st' = VNull
  /\ UseCodeSearch.isLoading st' = false.
Proof.
  destruct (reply_is_stored_unchecked 1
              (UseCodeSearch.run 1 (UseCodeSearch.initial (VStr "") (VObj []))
                 [UseCodeSearch.Search (VStr "auth") VUndef])
              0 (VObj [("total_results", int 0)]) eq_refl)
    as [Hstored [_ [Hloading _]]].
  destruct (Hstored eq_refl) as [Hresults [Htotal [Herror _]]].
  split; [exact Hresults|]. split; [exact Htotal|].
  split; [exact Herror | exact Hloading].
Defined.

Lemma updateMode_restarts_at_page_one_witness :
  let st' := UseCodeSearchNav.updateMode 1 third_page (VStr "semantic") in
  UseCodeSearch.currentPage st' = int 1
  /\ UseCodeSearch.mode st' = VStr "semantic"
  /\ UseCodeSearch.isLoading st' = true
  /\ exists r,
       UseCodeSearch.in_flight st' = [(0, r)]
       /\ get (Api.body r) "q" = VStr "auth"
       /\ get (Api.body r) "mode" = VStr "semantic"
       /\ get (Api.body r) "page" = int 1.
Proof.
  exact (updateMode_restarts_at_page_one 1 third_page "auth" (VStr "semantic")
           eq_refl ltac:(vm_compute; discriminate) eq_refl eq_refl).
Defined.

Lemma updateFilters_restarts_at_page_one_witness :
  let st' := UseCodeSearchNav.updateFilters 1 third_page
               (VObj [("lang", VStr "ts")]) in
  UseCodeSearch.currentPage st' = int 1
  /\ UseCodeSearch.filters st' = VObj [("lang", VStr "ts")]
  /\ exists r,
       UseCodeSearch.in_flight st' = [(0, r)]
       /\ get (Api.body r) "q" = VStr "auth"
       /\ get (Api.body r) "page" = int 1.
Proof.
  exact (updateFilters_restarts_at_page_one 1 third_page "auth"
           (VObj [("lang", VStr "ts")])
           eq_refl ltac:(vm_compute; discriminate) eq_refl eq_refl).
Defined.

Lemma page_navigation_witness :
  UseCodeSearch.currentPage (UseCodeSearchNav.nextPage 1 third_page) = int 4
  /\ (exists st',
        UseCodeSearchNav.prevPage 1 third_page = Some st'
        /\ UseCodeSearch.currentPage st' = int 2
        /\ exists r,
             UseCodeSearch.in_flight st' = [(0, r)]
             /\ get (Api.body r) "page" = int 2)
  /\ (UseCodeSearch.currentPage (UseCodeSearchNav.goToPage 1 third_page (int 0)) = int 0
      /\ exists r,
           UseCodeSearch.in_flight (UseCodeSearchNav.goToPage 1 third_page (int 0))
           = [(0, r)]
           /\ get (Api.body r) "page" = int 3).
Proof.
  destruct (page_navigation 1 third_page "auth" 3 eq_refl
              ltac:(vm_compute; discriminate) eq_refl eq_refl ltac:(cbn; lia))
    as [[Hnext _] [_ [Hprev Hgo]]].
  split; [exact Hnext|]. split; [exact (Hprev ltac:(lia))|].
  exact (Hgo (int 0) eq_refl).
Defined.

(** ** The chat stream beyond framing ([chatStream]) *)
Section ChatStreamMore.
Import Api.

Lemma read_loop_chunks cs :
  read_loop (map Chunk cs) = (flat_map handle_chunk cs, Return tt).
Proof.
  induction cs as [|c cs IH]; [reflexivity|].
  cbn [map read_loop flat_map]. now rewrite IH.
Qed.

Lemma read_loop_failure cs err rest :
  read_loop (map Chunk cs ++ ReadError err :: rest)
  = (flat_map handle_chunk cs, Throw err).
Proof.
  induction cs as [|c cs IH]; [reflexivity|].
  cbn [map read_loop flat_map app]. now rewrite IH.
Qed.

Lemma chatStream_opens fetch id request q :
  get request "question" = VStr q -> trim q <> "" ->
  chatStream fetch id request
  = match fetch (stream_request id request q) with
    | Throw e => ([Http (stream_request id request q)], Throw e)
    | Return response =>
        if negb (ok response) then
          let errorData := match json response with
                           | Return d => d
                           | Throw _ => VObj []
                           end in
          match getp errorData "detail" with
          | Throw e => ([Http (stream_request id request q)], Throw e)
          | Return detail =>
              ([Http (stream_request id request q)],
               bind (ToString (or_else detail
                                 (VStr "Failed to start streaming chat")))
                    (fun message => Throw (Error message)))
          end
        else
          match reads response with
          | None => ([Http (stream_request id request q)],
                     Throw (Error "Stream not available"))
          | Some rs =>
              let '(t, c) := read_loop rs in
              ((Http (stream_request id request q) :: t ++ [ReleaseLock])%list, c)
          end
    end.
Proof.
  intros Hq Htrim. apply truthy_VStr in Htrim.
  assert (Hq' : truthy (VStr q) = true).
  { apply truthy_VStr. intros ->. now apply truthy_VStr in Htrim. }
  destruct request as [| |b|n|s|l|props]; try discriminate.
  unfold chatStream, getp. cbn [nullish]. rewrite Hq, Hq'.
  cbn [negb String_trim]. rewrite Htrim. reflexivity.
Qed.

(** X23.  The reader is released on every way out of the read loop.  When the
    stream ends, the chunks have been handled in order, then the lock is
    released and the call resolves.  When a read fails, the chunks before it
    have been handled, the lock is released all the same, the call rejects
    with the failure, and nothing that follows is read. *)
Theorem chatStream_releases_reader
    (fetch : request -> completion response) (id : Z) (request : value)
    (q : string) (reply : response) (cs : list string) :
  get request "question" = VStr q -> trim q <> "" ->
  fetch (stream_request id request q) = Return reply ->
  ok reply = true ->
  (reads reply = Some (map Chunk cs) ->
   chatStream fetch id request
   = ((Http (stream_request id request q) :: flat_map handle_chunk cs
         ++ [ReleaseLock])%list,
      Return tt))
  /\ (forall err rest,
        reads reply = Some (map Chunk cs ++ ReadError err :: rest)%list ->
        chatStream fetch id request
        = ((Http (stream_request id request q) :: flat_map handle_chunk cs
              ++ [ReleaseLock])%list,
           Throw err)).
Proof.
  intros Hq Htrim Hfetch Hok.
  rewrite (chatStream_opens fetch id request q Hq Htrim), Hfetch, Hok. cbn [negb].
  split.
  - intros ->. now rewrite read_loop_chunks.
  - intros err rest ->. now rewrite read_loop_failure.
Qed.

(** X24.  A reply that is not [ok] opens no stream: the call rejects after its one
    request, with the [detail] of the reply's JSON body as message when there
    is one, with a default message when the body is not JSON or is an object
    with no [detail]; no callback is invoked and no reader is taken. *)
Theorem chatStream_rejects_failed_reply
    (fetch : request -> completion response) (id : Z) (request : value)
    (q : string) (reply : response) :
  get request "question" = VStr q -> trim q <> "" ->
  fetch (stream_request id request q) = Return reply ->
  ok reply = false ->
  fst (chatStream fetch id request) = [Http (stream_request id request q)]
  /\ (exists e, snd (chatStream fetch id request) = Throw e)
  /\ (forall data detail,
        json reply = Return data -> get data "detail" = VStr detail ->
        detail <> "" ->
        snd (chatStream fetch id request) = Throw (Error detail))
  /\ (forall e, json reply = Throw e ->
        snd (chatStream fetch id request)
        = Throw (Error "Failed to start streaming chat"))
  /\ (forall data,
        json reply = Return data -> nullish data = false ->
        truthy (get data "detail") = false ->
        snd (chatStream fetch id request)
        = Throw (Error "Failed to start streaming chat")).
Proof.
  intros Hq Htrim Hfetch Hok.
  rewrite (chatStream_opens fetch id request q Hq Htrim), Hfetch, Hok. cbn [negb].
  cbv zeta. split; [|split; [|split; [|split]]].
  - now destruct (getp _ "detail").
  - destruct (getp _ "detail") as [detail|e]; [|eexists; reflexivity].
    cbn [snd]. destruct (ToString _); eexists; reflexivity.
  - intros data detail -> Hdetail Hne. unfold getp.
    destruct data; try discriminate. cbn [nullish snd].
    rewrite Hdetail. unfold or_else. apply truthy_VStr in Hne. now rewrite Hne.
  - intros e ->. reflexivity.
  - intros data -> Hdata Hdetail. unfold getp. rewrite Hdata. cbn [snd].
    unfold or_else. now rewrite Hdetail.
Qed.

Lemma forallb_filter {A} (p f : A -> bool) l :
  forallb p l = true -> forallb p (filter f l) = true.
Proof.
  induction l as [|x l IH]; [reflexivity|]. cbn. intros H.
  apply andb_prop in H as [Hx Hl]. destruct (f x); cbn; [now rewrite Hx, IH | now apply IH].
Qed.

Lemma handle_line_not_data l : is_data_line l = false -> handle_line l = [].
Proof.
  unfold is_data_line, handle_line. now intros ->.
Qed.

Lemma flat_map_data_lines ls :
  flat_map handle_line (filter is_data_line ls) = flat_map handle_line ls.
Proof.
  induction ls as [|l ls IH]; [reflexivity|]. cbn [filter flat_map].
  destruct (is_data_line l) eqn:Hl.
  - cbn [flat_map]. now rewrite IH.
  - now rewrite handle_line_not_data, IH.
Qed.

(** X25.  Lines that do not start with the data marker (blank separators, comments,
    [event:] or [id:] fields) have no effect at all: a chunk of complete lines
    is handled exactly as the chunk of its data lines. *)
Theorem non_data_lines_are_ignored (ls : list string) (rest : list read) :
  forallb is_line ls = true ->
  fst (read_loop (Chunk (lines_text ls) :: rest))
  = fst (read_loop (Chunk (lines_text (filter is_data_line ls)) :: rest))
  /\ fst (read_loop (Chunk (lines_text ls) :: rest))
     = (flat_map handle_line (filter is_data_line ls) ++ fst (read_loop rest))%list.
Proof.
  intros Hls. cbn [read_loop]. destruct (read_loop rest) as [t c]. cbn [fst].
  rewrite !handle_chunk_complete_lines by (assumption || now apply forallb_filter).
  now rewrite flat_map_data_lines.
Qed.

(** X26.  One malformed frame does not abort the session: a data line whose payload
    does not parse is logged, and the frames before and after it reach the
    callbacks exactly as if it were not there. *)
Theorem malformed_frame_is_skipped
    (before after : list string) (bad : string) (rest : list read) :
  forallb is_line (before ++ bad :: after) = true ->
  handle_line bad = [ConsoleError] ->
  callbacks (fst (read_loop (Chunk (lines_text (before ++ bad :: after)) :: rest)))
  = callbacks (fst (read_loop (Chunk (lines_text (before ++ after)) :: rest)))
  /\ fst (read_loop (Chunk (lines_text (before ++ bad :: after)) :: rest))
     = (flat_map handle_line before ++ ConsoleError
          :: flat_map handle_line after ++ fst (read_loop rest))%list.
Proof.
  intros Hls Hbad.
  assert (Hls' : forallb is_line (before ++ after) = true).
  { rewrite forallb_app in *. cbn [forallb] in Hls.
    apply andb_prop in Hls as [Hb Ha]. apply andb_prop in Ha as [_ Ha].
    now rewrite Hb, Ha. }
  cbn [read_loop]. destruct (read_loop rest) as [t c]. cbn [fst].
  rewrite !handle_chunk_complete_lines by assumption.
  rewrite !flat_map_app. cbn [flat_map]. rewrite Hbad. split.
  - unfold callbacks. rewrite !filter_app. cbn [filter is_callback app].
    reflexivity.
  - now rewrite <- !app_assoc.
Qed.

(** X27.  A chunk boundary that falls between two lines is harmless: complete
    lines delivered in two chunks are handled exactly as in one. *)
Theorem chunk_boundary_between_lines_is_harmless
    (ls1 ls2 : list string) (rest : list read) :
  forallb is_line ls1 = true -> forallb is_line ls2 = true ->
  fst (read_loop (Chunk (lines_text ls1) :: Chunk (lines_text ls2) :: rest))
  = fst (read_loop (Chunk (lines_text (ls1 ++ ls2)) :: rest)).
Proof.
  intros H1 H2. cbn [read_loop]. destruct (read_loop rest) as [t c]. cbn [fst].
  rewrite !handle_chunk_complete_lines
    by (assumption || (rewrite forallb_app; now rewrite H1, H2)).
  now rewrite flat_map_app, app_assoc.
Qed.

Lemma strip_BOM_app a b :
  is_utf8 a = true -> startsWith b BOM = false ->
  strip_BOM (a ++ b) = strip_BOM a ++ b.
Proof.
  intros Ha Hb. unfold strip_BOM.
  destruct (startsWith a BOM) eqn:Hbom.
  - rewrite (startsWith_app a b BOM Hbom).
    pose proof (startsWith_skip a BOM Hbom) as Hskip.
    change (length BOM) with 3 in Hskip. rewrite Hskip at 1.
    rewrite append_assoc. reflexivity.
  - destruct a as [|x a]; [cbn [append]; now rewrite Hb|].
    rewrite nonempty_has_no_BOM; [reflexivity | assumption | assumption | discriminate].
Qed.

(** X28.  A chunk boundary that falls between two characters is harmless too:
    well-formed text decodes to itself, less a byte order mark at its very
    start, and two well-formed pieces decode, one call each, to what their
    concatenation decodes to in one call, unless the second piece opens with
    a byte order mark. *)
Theorem chunk_boundary_between_characters_is_harmless (a b : string) :
  is_utf8 a = true -> is_utf8 b = true ->
  TextDecoder_decode a = strip_BOM a
  /\ (startsWith b BOM = false ->
        TextDecoder_decode a ++ TextDecoder_decode b = TextDecoder_decode (a ++ b))
  /\ TextDecoder_decode (BOM ++ b) = b.
Proof.
  intros Ha Hb.
  assert (Hda : TextDecoder_decode a = strip_BOM a)
    by (apply decode_itself; now apply is_utf8_decodes).
  split; [assumption|]. split.
  - intros Hbom.
    rewrite Hda, (decode_itself b) by now apply is_utf8_decodes.
    rewrite (decode_itself (a ++ b))
      by (apply decodes_app; now apply is_utf8_decodes).
    rewrite strip_BOM_app by assumption. unfold strip_BOM at 2. now rewrite Hbom.
  - rewrite decode_itself.
    + reflexivity.
    + apply decodes_app; [reflexivity | now apply is_utf8_decodes].
Qed.

End ChatStreamMore.

Lemma chatStream_releases_reader_witness :
  Api.chatStream (fun _ => Return broken_stream) 7 ask
  = ([ Api.Http (stream_request 7 ask "What does it do?");
       Api.OnToken (VStr "Hello"); Api.OnToken (VStr " again"); Api.ReleaseLock ],
     Throw network_error).
Proof.
  refine (proj2 (chatStream_releases_reader (fun _ => Return broken_stream) 7 ask
                   "What does it do?" broken_stream
                   [token_line ++ LF; late_line ++ LF]
                   eq_refl _ eq_refl eq_refl)
            network_error [Api.Chunk (done_line ++ LF)] eq_refl).
  vm_compute. discriminate.
Defined.

Lemma chatStream_rejects_failed_reply_witness :
  fst (Api.chatStream (fun _ => Return refusal) 7 ask)
  = [Api.Http (stream_request 7 ask "What does it do?")]
  /\ snd (Api.chatStream (fun _ => Return refusal) 7 ask)
     = Throw (Error "Repository not found").
Proof.
  destruct (chatStream_rejects_failed_reply (fun _ => Return refusal) 7 ask
              "What does it do?" refusal eq_refl
              ltac:(vm_compute; discriminate) eq_refl eq_refl)
    as [Hfst [_ [Hdetail _]]].
  split; [exact Hfst|].
  exact (Hdetail (VObj [("detail", VStr "Repository not found")])
           "Repository not found" eq_refl eq_refl ltac:(discriminate)).
Defined.

Lemma non_data_lines_are_ignored_witness :
  fst (Api.read_loop
         [Api.Chunk (lines_text [": keep-alive"; token_line; ""; done_line])])
  = [Api.OnToken (VStr "Hello"); Api.OnDone (int 7)].
Proof.
  exact (proj2 (non_data_lines_are_ignored
                  [": keep-alive"; token_line; ""; done_line] [] eq_refl)).
Defined.

Lemma malformed_frame_is_skipped_witness :
  fst (Api.read_loop [Api.Chunk (lines_text [token_line; bad_line; done_line])])
  = [Api.OnToken (VStr "Hello"); Api.ConsoleError; Api.OnDone (int 7)].
Proof.
  exact (proj2 (malformed_frame_is_skipped [token_line] [done_line] bad_line []
                  eq_refl eq_refl)).
Defined.

Lemma chunk_boundary_between_lines_is_harmless_witness :
  fst (Api.read_loop [Api.Chunk (lines_text [token_line]);
                      Api.Chunk (lines_text [done_line])])
  = fst (Api.read_loop [Api.Chunk (lines_text [token_line; done_line])]).
Proof.
  exact (chunk_boundary_between_lines_is_harmless [token_line] [done_line] []
           eq_refl eq_refl).
Defined.

Lemma chunk_boundary_between_characters_is_harmless_witness :
  TextDecoder_decode "caf" ++ TextDecoder_decode (bytes [195; 169]%N)
  = TextDecoder_decode ("caf" ++ bytes [195; 169]%N).
Proof.
  exact (proj1 (proj2 (chunk_boundary_between_characters_is_harmless
                         "caf" (bytes [195; 169]%N) eq_refl eq_refl))
           eq_refl).
Defined.

(** ** The repository hook ([useRepository]) *)
Section Repository.
Import UseRepository.


End Repository.
